(** * Thrive Cash reconciliation: FIFO matching engine and validation framework

    A shallow embedding of [src/fifo_matching.py] and [src/data_quality.py].

    Modelling conventions.
    - A pandas DataFrame is a list of rows under the default RangeIndex (row
      [i] carries index label [i], which is what [pd.read_excel] and the
      [pd.DataFrame] constructor produce).  Inside the engine a frame is kept
      together with its labels, as pandas does, because boolean masks and
      [sort_values] keep the labels and [.loc] addresses rows through them.
    - The required columns TRANS_ID, TCTYPE, CREATEDAT and CUSTOMERID hold
      non-null values; CREATEDAT is a datetime64[ns] value, an integer number
      of nanoseconds.  AMOUNT is a binary64 float, as in the source.
    - Calls to the logger, and the two counters that only feed the logger,
      have no effect on any returned value and are left out. *)

From Corelib Require Import PrimFloat.
From Stdlib Require Import ZArith List String Bool Arith Lia Permutation.
From Stdlib Require Import DecimalString.
From Stdlib Require Import Sorted.

Set Warnings "-inexact-float".
Import ListNotations.

Open Scope string_scope.
Open Scope list_scope.
Open Scope Z_scope.

(** ** Data model *)

(** The numpy dtype of a column, as far as the code inspects it. *)
Inductive dtype := int64 | float64 | int32 | object_.

Definition Timestamp := Z.

Record Row := mkRow {
  TRANS_ID   : Z;
  TCTYPE     : string;
  CREATEDAT  : Timestamp;
  EXPIREDAT  : option Timestamp;
  CUSTOMERID : Z;
  ORDERID    : option Z;
  AMOUNT     : float;
  REASON     : option string;
  REDEEMID   : option Z   (* cell of the REDEEMID column, when the frame has one *)
}.

Record DataFrame := mkDataFrame {
  CUSTOMERID_dtype : dtype;    (* df['CUSTOMERID'].dtype *)
  has_REDEEMID     : bool;     (* 'REDEEMID' in df.columns *)
  rows             : list Row
}.

(** A row together with its index label. *)
Definition Labelled := (nat * Row)%type.

(** A frame with its index: what masks, sorts and [.loc] operate on. *)
Definition Frame := list Labelled.

Definition enumerate (rs : list Row) : Frame :=
  combine (seq 0 (List.length rs)) rs.

Definition set_REDEEMID (v : option Z) (r : Row) : Row :=
  mkRow (TRANS_ID r) (TCTYPE r) (CREATEDAT r) (EXPIREDAT r)
        (CUSTOMERID r) (ORDERID r) (AMOUNT r) (REASON r) v.

(** ** pandas primitives used by the engine *)

(** [Series.unique()]: distinct values in order of first appearance. *)
Fixpoint unique (l : list Z) : list Z :=
  match l with
  | [] => []
  | x :: t => x :: filter (fun y => negb (y =? x)) (unique t)
  end.

(** [Series.isin(values)] on one cell. *)
Definition isin (s : string) (values : list string) : bool :=
  existsb (String.eqb s) values.

Definition insert_by_CREATEDAT (x : Labelled) : Frame -> Frame :=
  fix ins (l : Frame) : Frame :=
    match l with
    | [] => [x]
    | y :: t =>
        if CREATEDAT (snd x) <=? CREATEDAT (snd y) then x :: y :: t
        else y :: ins t
    end.

(** [df.sort_values('CREATEDAT')]: ascending, labels travel with their rows.
    Rows with equal timestamps keep their relative order here; pandas decides
    their order from the timestamps alone, never from the labels or the other
    columns, which is what the general theorems below rely on
    ([in_sort_values], [relabel_sort_values]). *)
Fixpoint sort_values (f : Frame) : Frame :=
  match f with
  | [] => []
  | x :: t => insert_by_CREATEDAT x (sort_values t)
  end.

(** [df.loc[idx, 'REDEEMID'] = v]: the cell of every row labelled [idx] is
    overwritten.  The engine only passes labels taken from the frame's own
    index, so the enlarging behaviour of [.loc] on a fresh label never
    arises. *)
Definition loc_set_REDEEMID (idx : nat) (v : Z) (f : Frame) : Frame :=
  map (fun ir : Labelled =>
         if Nat.eqb (fst ir) idx then (fst ir, set_REDEEMID (Some v) (snd ir))
         else ir) f.

(** [list.remove(idx)] on the pool of available lots: the first entry with
    that label is dropped.  Python raises ValueError when there is none; the
    engine only removes labels it has just read from the pool, and the model
    leaves the pool as it is in that unreachable case. *)
Fixpoint list_remove (idx : nat) (l : Frame) : Frame :=
  match l with
  | [] => []
  | ir :: t => if Nat.eqb (fst ir) idx then t else ir :: list_remove idx t
  end.

(** ** The FIFO matching engine ([perform_fifo_matching]) *)

Module Fifo.

(** The inner loop [for earned_idx in available_earned_indices].  The pool
    holds each label together with the row [earned_txns.loc[earned_idx]] it
    denotes ([earned_txns] is a private copy that is never written).  The
    state threaded through is [result_df], [remaining_to_match] and
    [indices_to_remove]. *)
Fixpoint scan_available (redemption_id : Z) (redemption_date : Timestamp)
    (available : Frame) (result_df : Frame) (remaining_to_match : float)
    (indices_to_remove : list nat) : Frame * float * list nat :=
  match available with
  | [] => (result_df, remaining_to_match, indices_to_remove)
  | (earned_idx, earned_row) :: rest =>
      if (remaining_to_match <=? 0)%float then
        (* break *)
        (result_df, remaining_to_match, indices_to_remove)
      else if CREATEDAT earned_row >? redemption_date then
        (* continue *)
        scan_available redemption_id redemption_date rest
          result_df remaining_to_match indices_to_remove
      else
        scan_available redemption_id redemption_date rest
          (loc_set_REDEEMID earned_idx redemption_id result_df)
          (remaining_to_match - AMOUNT earned_row)%float
          (indices_to_remove ++ [earned_idx])
  end.

(** One iteration of [for _, redemption in redemption_txns.iterrows()]. *)
Definition match_redemption (st : Frame * Frame) (redemption : Labelled)
    : Frame * Frame :=
  let '(result_df, available_earned_indices) := st in
  let redemption_id := TRANS_ID (snd redemption) in
  let redemption_amount := abs (AMOUNT (snd redemption)) in
  let redemption_date := CREATEDAT (snd redemption) in
  let '(result_df', _, indices_to_remove) :=
    scan_available redemption_id redemption_date available_earned_indices
      result_df redemption_amount [] in
  (result_df',
   fold_left (fun pool idx => list_remove idx pool)
     indices_to_remove available_earned_indices).

(** One iteration of [for customer_id in customers]. *)
Definition process_customer (result_df : Frame) (customer_id : Z) : Frame :=
  let customer_df :=
    filter (fun ir : Labelled => CUSTOMERID (snd ir) =? customer_id) result_df in
  let earned_mask := fun ir : Labelled => String.eqb (TCTYPE (snd ir)) "earned" in
  let redemption_mask :=
    fun ir : Labelled => isin (TCTYPE (snd ir)) ["spent"; "expired"] in
  let earned_txns := sort_values (filter earned_mask customer_df) in
  let redemption_txns := sort_values (filter redemption_mask customer_df) in
  if (Nat.eqb (List.length earned_txns) 0 || Nat.eqb (List.length redemption_txns) 0)%bool
  then result_df
  else fst (fold_left match_redemption redemption_txns (result_df, earned_txns)).

Definition perform_fifo_matching (df : DataFrame) : DataFrame :=
  let result_df := enumerate (map (set_REDEEMID None) (rows df)) in
  let customers := unique (map (fun ir : Labelled => CUSTOMERID (snd ir)) result_df) in
  mkDataFrame (CUSTOMERID_dtype df) true
    (map snd (fold_left process_customer customers result_df)).

End Fifo.

(** ** The validation framework ([data_quality.py]) *)

Module DataQuality.

(** [ValidationResult].  The [message] and [details] attributes are
    presentation only (formatted text and a dict of offending values); no
    verdict is computed from them and they are not modelled. *)
Record ValidationResult := mkResult {
  check_name : string;
  passed     : bool;
  severity   : string   (* 'ERROR', 'WARNING' or 'INFO' *)
}.

Record ValidationReport := mkReport {
  timestamp : Timestamp;
  stage     : string;
  results   : list ValidationResult
}.

(** The [passed] property of a report. *)
Definition ValidationReport_passed (report : ValidationReport) : bool :=
  forallb passed
    (filter (fun r => String.eqb (severity r) "ERROR") (results report)).

(** The [error_count] property of a report. *)
Definition ValidationReport_error_count (report : ValidationReport) : nat :=
  List.length
    (filter (fun r => negb (passed r) && String.eqb (severity r) "ERROR")%bool
       (results report)).

(** The [warning_count] property of a report. *)
Definition ValidationReport_warning_count (report : ValidationReport) : nat :=
  List.length
    (filter (fun r => negb (passed r) && String.eqb (severity r) "WARNING")%bool
       (results report)).

(** [df[field].isna()] on one row.  Of the required columns only AMOUNT has a
    null value in this model (NaN). *)
Definition isna (field : string) (r : Row) : bool :=
  if String.eqb field "AMOUNT" then is_nan (AMOUNT r) else false.

(** [Series.duplicated()] followed by a selection of the flagged values:
    every occurrence of a value after its first one. *)
Fixpoint duplicated (seen : list Z) (l : list Z) : list Z :=
  match l with
  | [] => []
  | x :: t =>
      if existsb (Z.eqb x) seen then x :: duplicated seen t
      else duplicated (x :: seen) t
  end.

Definition required_fields : list string :=
  ["TRANS_ID"; "TCTYPE"; "CREATEDAT"; "CUSTOMERID"; "AMOUNT"].

Definition valid_types : list string := ["earned"; "spent"; "expired"].

(** CHECK 1, one result per required field. *)
Definition check_no_nulls (df : DataFrame) (field : string) : ValidationResult :=
  let null_count := List.length (filter (isna field) (rows df)) in
  mkResult ("No Null Values: " ++ field)%string (Nat.eqb null_count 0) "ERROR".

(** CHECK 2. *)
Definition check_valid_types (df : DataFrame) : ValidationResult :=
  let actual_types := nodup string_dec (map TCTYPE (rows df)) in
  let invalid_types := filter (fun t => negb (isin t valid_types)) actual_types in
  mkResult "Valid Transaction Types" (Nat.eqb (List.length invalid_types) 0) "ERROR".

(** CHECK 3. *)
Definition check_amount_signs (df : DataFrame) : ValidationResult :=
  let of_type t := filter (fun r => String.eqb (TCTYPE r) t) (rows df) in
  let earned_positive := forallb (fun r => (0 <? AMOUNT r)%float) (of_type "earned") in
  let spent_negative := forallb (fun r => (AMOUNT r <? 0)%float) (of_type "spent") in
  let expired_negative := forallb (fun r => (AMOUNT r <? 0)%float) (of_type "expired") in
  let sign_check_passed := (earned_positive && spent_negative && expired_negative)%bool in
  mkResult "Amount Sign Consistency" sign_check_passed "ERROR".

(** CHECK 4. *)
Definition check_no_duplicates (df : DataFrame) : ValidationResult :=
  let duplicate_ids := duplicated [] (map TRANS_ID (rows df)) in
  mkResult "No Duplicate Transaction IDs"
    (Nat.eqb (List.length duplicate_ids) 0) "ERROR".

(** CHECK 5; [now] is the reading of [datetime.now()]. *)
Definition check_no_future_dates (now : Timestamp) (df : DataFrame)
    : ValidationResult :=
  let future_dates := filter (fun r => CREATEDAT r >? now) (rows df) in
  mkResult "No Future Dates" (Nat.eqb (List.length future_dates) 0) "WARNING".

(** CHECK 6.  The comparison runs only when the column's dtype is one of the
    two listed; otherwise an empty frame stands in for the offenders. *)
Definition check_valid_customers (df : DataFrame) : ValidationResult :=
  let invalid_customers :=
    match CUSTOMERID_dtype df with
    | int64 | float64 => filter (fun r => CUSTOMERID r <=? 0) (rows df)
    | _ => []
    end in
  mkResult "Valid Customer IDs" (Nat.eqb (List.length invalid_customers) 0) "ERROR".

(** CHECK 7. *)
Definition check_summary (df : DataFrame) : ValidationResult :=
  mkResult "Data Completeness Summary" true "INFO".

Definition validate_source_data (now : Timestamp) (df : DataFrame)
    : ValidationReport :=
  let results :=
    map (check_no_nulls df) required_fields
    ++ [ check_valid_types df;
         check_amount_signs df;
         check_no_duplicates df;
         check_no_future_dates now df;
         check_valid_customers df;
         check_summary df ] in
  mkReport now "source" results.

Section PostFifo.

(** [Series.sum()] over a column of floats.  pandas chooses the order of the
    additions; the model takes the summation as given. *)
Variable Series_sum : list float -> float.

Definition is_redemption (r : Row) : bool := isin (TCTYPE r) ["spent"; "expired"].

Definition notna (v : option Z) : bool :=
  match v with Some _ => true | None => false end.

(** CHECK 1 of the post-FIFO stage. *)
Definition check_redeemid_exists (matched_df : DataFrame) : ValidationResult :=
  mkResult "REDEEMID Column Exists" (has_REDEEMID matched_df) "ERROR".

(** CHECK 2. *)
Definition check_redeemid_valid (matched_df : DataFrame) : ValidationResult :=
  let valid_redemption_ids :=
    map TRANS_ID (filter is_redemption (rows matched_df)) in
  let assigned_redeemids :=
    nodup Z.eq_dec
      (flat_map (fun r => match REDEEMID r with Some v => [v] | None => [] end)
         (rows matched_df)) in
  let invalid_redeemids :=
    filter (fun v => negb (existsb (Z.eqb v) valid_redemption_ids))
      assigned_redeemids in
  mkResult "REDEEMID References Valid Transactions"
    (Nat.eqb (List.length invalid_redeemids) 0) "ERROR".

(** CHECK 3. *)
Definition check_only_earned (matched_df : DataFrame) : ValidationResult :=
  let non_earned_with_redeemid :=
    filter (fun r => negb (String.eqb (TCTYPE r) "earned") && notna (REDEEMID r))%bool
      (rows matched_df) in
  mkResult "Only Earned Transactions Have REDEEMID"
    (Nat.eqb (List.length non_earned_with_redeemid) 0) "ERROR".

(** CHECK 4: the loop body decides, for one matched earned row, whether it is
    recorded in [chronological_errors]. *)
Definition chronological_error (matched_df : DataFrame) (earned_row : Row) : bool :=
  match REDEEMID earned_row with
  | None => false
  | Some redeemid =>
      match filter (fun r => TRANS_ID r =? redeemid) (rows matched_df) with
      | [] => false
      | redemption_row :: _ => CREATEDAT earned_row >? CREATEDAT redemption_row
      end
  end.

Definition check_chronological (matched_df : DataFrame) : ValidationResult :=
  let earned_with_redeemid :=
    filter (fun r => String.eqb (TCTYPE r) "earned" && notna (REDEEMID r))%bool
      (rows matched_df) in
  let chronological_errors :=
    filter (chronological_error matched_df) earned_with_redeemid in
  mkResult "Chronological Consistency"
    (Nat.eqb (List.length chronological_errors) 0) "ERROR".

(** CHECK 5: whether one customer is recorded in [balance_errors]. *)
Definition balance_error (matched_df : DataFrame) (customer_id : Z) : bool :=
  let customer_df := filter (fun r => CUSTOMERID r =? customer_id) (rows matched_df) in
  let amounts t := map AMOUNT (filter (fun r => String.eqb (TCTYPE r) t) customer_df) in
  let total_earned := Series_sum (amounts "earned") in
  let total_spent := abs (Series_sum (amounts "spent")) in
  let total_expired := abs (Series_sum (amounts "expired")) in
  let remaining := (total_earned - total_spent - total_expired)%float in
  (remaining <? -0.01)%float.

Definition check_balance (matched_df : DataFrame) : ValidationResult :=
  let balance_errors :=
    filter (balance_error matched_df) (unique (map CUSTOMERID (rows matched_df))) in
  mkResult "Customer Balance Reconciliation"
    (Nat.eqb (List.length balance_errors) 0) "WARNING".

(** CHECK 6. *)
Definition check_statistics (matched_df : DataFrame) : ValidationResult :=
  mkResult "Matching Statistics" true "INFO".

Definition validate_fifo_results (now : Timestamp)
    (original_df matched_df : DataFrame) : ValidationReport :=
  let results := [check_redeemid_exists matched_df] in
  if negb (has_REDEEMID matched_df) then
    (* Can't continue validation without REDEEMID *)
    mkReport now "post_fifo" results
  else
    mkReport now "post_fifo"
      (results ++
       [ check_redeemid_valid matched_df;
         check_only_earned matched_df;
         check_chronological matched_df;
         check_balance matched_df;
         check_statistics matched_df ]).

End PostFifo.

(** What a call of the gate does: it returns a boolean or raises
    [ValueError(error_msg)]. *)
Inductive Outcome :=
| Returns (b : bool)
| Raises_ValueError (error_msg : string).

(** Decimal rendering of a count inside an f-string. *)
Definition format_nat (n : nat) : string :=
  NilEmpty.string_of_uint (Nat.to_uint n).

Definition error_msg (report : ValidationReport) : string :=
  ("Validation failed at stage '" ++ stage report ++ "' with "
   ++ format_nat (ValidationReport_error_count report) ++ " errors")%string.

Definition validation_gate (report : ValidationReport) (fail_on_error : bool)
    : Outcome :=
  if negb (ValidationReport_passed report) then
    if fail_on_error then Raises_ValueError (error_msg report)
    else Returns false
  else Returns true.

End DataQuality.

(** ** Vocabulary of the statements *)

(** The pairs (TRANS_ID, REDEEMID) of a frame, row by row. *)
Definition redeemids (df : DataFrame) : list (Z * option Z) :=
  map (fun r => (TRANS_ID r, REDEEMID r)) (rows df).

(** The fields of a transaction other than the allocation annotation. *)
Definition same_transaction (r r' : Row) : Prop :=
  TRANS_ID r' = TRANS_ID r /\ TCTYPE r' = TCTYPE r /\
  CREATEDAT r' = CREATEDAT r /\ EXPIREDAT r' = EXPIREDAT r /\
  CUSTOMERID r' = CUSTOMERID r /\ ORDERID r' = ORDERID r /\
  AMOUNT r' = AMOUNT r /\ REASON r' = REASON r.

(** The mask [df['CUSTOMERID'] == customer_id], on a row and on a labelled
    row. *)
Definition of_customer (c : Z) (r : Row) : bool := CUSTOMERID r =? c.

Definition customer_mask (c : Z) (ir : Labelled) : bool :=
  CUSTOMERID (snd ir) =? c.

(** Strict sign of an amount, as [Series.gt(0)] and [Series.lt(0)] decide it. *)
Definition strictly_positive (a : float) : Prop := (0 <? a)%float = true.
Definition strictly_negative (a : float) : Prop := (a <? 0)%float = true.

(** The results of a report that carry a given check name. *)
Definition results_named (name : string) (report : DataQuality.ValidationReport)
    : list DataQuality.ValidationResult :=
  filter (fun r => String.eqb (DataQuality.check_name r) name)
    (DataQuality.results report).

(** ** Vocabulary of the proofs *)

(** A frame with every REDEEMID cell blanked. *)
Definition erase (f : Frame) : Frame :=
  map (fun ir : Labelled => (fst ir, set_REDEEMID None (snd ir))) f.

(** A row's annotation is justified within the rows [U] when, if present, it
    sits on an earned row and names a spent or expired row of the same
    customer that was not created before the earned row. *)
Definition justified (U : list Row) (e : Row) : Prop :=
  forall rid, REDEEMID e = Some rid ->
    TCTYPE e = "earned" /\
    exists r, In r U /\ TRANS_ID r = rid
              /\ (TCTYPE r = "spent" \/ TCTYPE r = "expired")
              /\ CUSTOMERID r = CUSTOMERID e
              /\ CREATEDAT e <= CREATEDAT r.

(** The invariant of the store [result_df] relative to the blanked rows [U]
    of the batch: labels are distinct, the rows are those of [U] up to the
    annotation, and every annotation is justified. *)
Definition Inv (U : list Row) (S : Frame) : Prop :=
  NoDup (map fst S) /\ map snd (erase S) = U
  /\ Forall (fun ir : Labelled => justified U (snd ir)) S.

(** The pool holds earned rows of customer [c] that belong to the frame. *)
Definition pool_ok (c : Z) (E : Frame) (pool : Frame) : Prop :=
  forall ir, In ir pool ->
    In (fst ir, set_REDEEMID None (snd ir)) E
    /\ TCTYPE (snd ir) = "earned" /\ CUSTOMERID (snd ir) = c.

(** A redemption being matched is a spent or expired row of customer [c]. *)
Definition redemption_ok (U : list Row) (c : Z) (red : Labelled) : Prop :=
  In (set_REDEEMID None (snd red)) U
  /\ (TCTYPE (snd red) = "spent" \/ TCTYPE (snd red) = "expired")
  /\ CUSTOMERID (snd red) = c.

(** A frame under another index: label [i] becomes [g i]. *)
Definition relabel (g : nat -> nat) (f : Frame) : Frame :=
  map (fun ir : Labelled => (g (fst ir), snd ir)) f.

(** The label map read off a list of pairs (old label, new label). *)
Fixpoint assoc (al : list (nat * nat)) (i : nat) : nat :=
  match al with
  | [] => i
  | (a, b) :: t => if Nat.eqb a i then b else assoc t i
  end.

Definition inj_on (g : nat -> nat) (D : list nat) : Prop :=
  forall i j, In i D -> In j D -> g i = g j -> i = j.

(** ** Scenarios and fixtures *)

(** Midnight of 2023-01-01, 2023-01-15 and 2023-02-01, in nanoseconds. *)
Definition ts_2023_01_01 : Timestamp := 1672531200000000000.
Definition ts_2023_01_15 : Timestamp := 1673740800000000000.
Definition ts_2023_02_01 : Timestamp := 1675209600000000000.

(** Scenario A: one customer [c] earns 20 on 2023-01-01 (id 1001), earns 30 on
    2023-01-15 (id 1002) and spends 25 on 2023-02-01 (id 1003).  The optional
    columns are left free. *)
Record scenario_A (c : Z) (r1 r2 r3 : Row) : Prop := {
  A_1001 : TRANS_ID r1 = 1001 /\ TCTYPE r1 = "earned" /\ AMOUNT r1 = 20%float
           /\ CREATEDAT r1 = ts_2023_01_01 /\ CUSTOMERID r1 = c;
  A_1002 : TRANS_ID r2 = 1002 /\ TCTYPE r2 = "earned" /\ AMOUNT r2 = 30%float
           /\ CREATEDAT r2 = ts_2023_01_15 /\ CUSTOMERID r2 = c;
  A_1003 : TRANS_ID r3 = 1003 /\ TCTYPE r3 = "spent" /\ AMOUNT r3 = (-25)%float
           /\ CREATEDAT r3 = ts_2023_02_01 /\ CUSTOMERID r3 = c
}.

(** The fixture [sample_tc_data] of the test suite, with CREATEDAT at midnight
    of the day as the scenario states it. *)
Definition sample_1001 : Row :=
  mkRow 1001 "earned" ts_2023_01_01 (Some 1677628800000000000) 100 None
        20%float (Some "Promotion") None.
Definition sample_1002 : Row :=
  mkRow 1002 "earned" ts_2023_01_15 (Some 1678838400000000000) 100 None
        30%float (Some "Refund") None.
Definition sample_1003 : Row :=
  mkRow 1003 "spent" ts_2023_02_01 None 100 (Some 5001) (-25)%float None None.

Definition sample_tc_data : DataFrame :=
  mkDataFrame int64 false [sample_1001; sample_1002; sample_1003].

(** The fixture [expired_transactions_data] of the test suite (Scenario B). *)
Definition expired_transactions_data : DataFrame :=
  mkDataFrame int64 false
    [ mkRow 1001 "earned"  1672531200000000000 (Some 1675209600000000000) 100 None
            10%float None None;
      mkRow 1002 "earned"  1673740800000000000 (Some 1678838400000000000) 100 None
            20%float None None;
      mkRow 1003 "expired" 1675209600000000000 None 100 None (-10)%float None None;
      mkRow 1004 "spent"   1676419200000000000 None 100 (Some 5001) (-15)%float None None ].

(** The batch of [test_spent_before_earned] (Scenario C). *)
Definition spent_before_earned : DataFrame :=
  mkDataFrame int64 false
    [ mkRow 1001 "spent"  1672531200000000000 None 100 (Some 5001) (-20)%float None None;
      mkRow 1002 "earned" 1675209600000000000 None 100 None 20%float None None ].

(** The fixture [multi_customer_data] of the test suite, and the same batch
    with the rows of customer 200 removed. *)
Definition multi_customer_data : DataFrame :=
  mkDataFrame int64 false
    [ mkRow 1001 "earned" 1672531200000000000 None 100 None 20%float None None;
      mkRow 1002 "spent"  1675209600000000000 None 100 (Some 5001) (-15)%float None None;
      mkRow 1003 "earned" 1672876800000000000 None 200 None 50%float None None;
      mkRow 2001 "earned" 1673308800000000000 None 200 None 25%float None None;
      mkRow 2002 "spent"  1676419200000000000 None 200 (Some 5002) (-60)%float None None;
      mkRow 2003 "earned" 1672531200000000000 None 100 None 10%float None None ].

Definition customer_100_only : DataFrame :=
  mkDataFrame int64 false
    [ mkRow 1001 "earned" 1672531200000000000 None 100 None 20%float None None;
      mkRow 1002 "spent"  1675209600000000000 None 100 (Some 5001) (-15)%float None None;
      mkRow 2003 "earned" 1672531200000000000 None 100 None 10%float None None ].

(** A batch whose CUSTOMERID column is stored as int32 and holds -5. *)
Definition int32_customer_batch : DataFrame :=
  mkDataFrame int32 false
    [ mkRow 1 "earned" ts_2023_01_01 None (-5) None 20%float None None ].

(** The same row in an int64 column. *)
Definition int64_customer_batch : DataFrame :=
  mkDataFrame int64 false
    [ mkRow 1 "earned" ts_2023_01_01 None (-5) None 20%float None None ].

(** A left-to-right summation, one admissible reading of [Series.sum()]. *)
Definition sum_left (l : list float) : float :=
  fold_left PrimFloat.add l 0%float.

(** A report with one failed ERROR check and one failed WARNING check. *)
Definition failing_report : DataQuality.ValidationReport :=
  DataQuality.mkReport ts_2023_02_01 "source"
    [ DataQuality.mkResult "No Null Values: TRANS_ID" false "ERROR";
      DataQuality.mkResult "No Future Dates" false "WARNING" ].

(** A report whose only failure is a WARNING. *)
Definition warning_report : DataQuality.ValidationReport :=
  DataQuality.mkReport ts_2023_02_01 "post_fifo"
    [ DataQuality.mkResult "REDEEMID Column Exists" true "ERROR";
      DataQuality.mkResult "Customer Balance Reconciliation" false "WARNING" ].

(** ** Callers of the validators *)

Module Pipeline.
Import DataQuality.

(** [run_all_validations] of [data_quality.py]. *)
Definition run_all_validations (Series_sum : list float -> float)
    (now : Timestamp) (source_df matched_df : DataFrame)
    : ValidationReport * ValidationReport :=
  let source_report := validate_source_data now source_df in
  let fifo_report := validate_fifo_results Series_sum now source_df matched_df in
  (source_report, fifo_report).

(** What a validation task of the DAG does once its frames are loaded: it
    raises what the gate raises, or returns the dict with the keys
    'validation_passed', 'error_count' and 'warning_count'. *)
Inductive TaskOutcome :=
| TaskReturns (validation_passed : bool) (error_count warning_count : nat)
| TaskRaises (error_msg : string).

(** The part of a validation task after the report is built: the call
    [validation_gate(report, fail_on_error=True)], whose result is dropped,
    and the returned dict. *)
Definition gate_and_return (report : ValidationReport) : TaskOutcome :=
  match validation_gate report true with
  | Raises_ValueError msg => TaskRaises msg
  | Returns _ =>
      TaskReturns (ValidationReport_passed report)
        (ValidationReport_error_count report)
        (ValidationReport_warning_count report)
  end.

(** The task [validate_source] of the DAG on the frame [load_tc_data] gave. *)
Definition validate_source (now : Timestamp) (df : DataFrame) : TaskOutcome :=
  gate_and_return (validate_source_data now df).

(** The task [validate_results] of the DAG on the two frames it loaded. *)
Definition validate_results (Series_sum : list float -> float)
    (now : Timestamp) (original_df matched_df : DataFrame) : TaskOutcome :=
  gate_and_return (validate_fifo_results Series_sum now original_df matched_df).

End Pipeline.

(** A batch in which two spent rows share TRANS_ID 7, one created before the
    earned row and one after it. *)
Definition duplicate_id_batch : DataFrame :=
  mkDataFrame int64 false
    [ mkRow 7 "spent"  ts_2023_01_01 None 100 None (-20)%float None None;
      mkRow 1 "earned" ts_2023_01_15 None 100 None 20%float None None;
      mkRow 7 "spent"  ts_2023_02_01 None 100 None (-20)%float None None ].

(** ** Vocabulary of the ordering proofs *)

(** The lots one scan of the pool consumes, in pool order: what the inner
    loop of [perform_fifo_matching] appends to [indices_to_remove], each
    label with its row. *)
Fixpoint taken (redemption_date : Timestamp) (available : Frame)
    (remaining_to_match : float) : Frame :=
  match available with
  | [] => []
  | ir :: rest =>
      if (remaining_to_match <=? 0)%float then []
      else if CREATEDAT (snd ir) >? redemption_date then
        taken redemption_date rest remaining_to_match
      else
        ir :: taken redemption_date rest
                (remaining_to_match - AMOUNT (snd ir))%float
  end.

(** The writes of one scan, replayed on a store. *)
Definition write_all (redemption_id : Z) (lots : Frame) (S : Frame) : Frame :=
  fold_left (fun s (ir : Labelled) => loc_set_REDEEMID (fst ir) redemption_id s)
    lots S.

(** Ascending order of CREATEDAT along a labelled frame. *)
Definition chronological (f : Frame) : Prop :=
  StronglySorted (fun x y : Labelled => CREATEDAT (snd x) <= CREATEDAT (snd y)) f.

(** The state of one customer's pass, relative to the sorted earned lots [E]:
    the pool is a chronological part of [E] with distinct labels, a lot is in
    the pool exactly when its row is still unannotated, and the pool is
    closed towards later lots. *)
Record pass_state (E S P : Frame) : Prop := {
  ps_sorted   : chronological P;
  ps_labels   : NoDup (map fst P);
  ps_incl     : incl P E;
  ps_free     : forall i er e, In (i, er) P -> In (i, e) S -> REDEEMID e = None;
  ps_consumed : forall i er e, In (i, er) E -> ~ In (i, er) P -> In (i, e) S ->
                               REDEEMID e <> None;
  ps_upward   : forall x y, In x P -> In y E ->
                            CREATEDAT (snd x) < CREATEDAT (snd y) -> In y P
}.

(** Every annotation names a redemption of [R] whose amount is not zero. *)
Definition named_open (R : Frame) (S : Frame) : Prop :=
  forall i e rid, In (i, e) S -> REDEEMID e = Some rid ->
    exists red, In red R /\ TRANS_ID (snd red) = rid
                /\ (abs (AMOUNT (snd red)) <=? 0)%float = false.

(** A customer who earns 20 and 30 and then spends 15: the second lot is left
    over. *)
Definition leftover_batch : DataFrame :=
  mkDataFrame int64 false
    [ mkRow 1001 "earned" ts_2023_01_01 None 100 None 20%float None None;
      mkRow 1002 "earned" ts_2023_01_15 None 100 None 30%float None None;
      mkRow 1003 "spent"  ts_2023_02_01 None 100 (Some 5001) (-15)%float None None ].

(** A customer who earns 20 and then records a spend of amount zero. *)
Definition zero_spend_batch : DataFrame :=
  mkDataFrame int64 false
    [ mkRow 1001 "earned" ts_2023_01_01 None 100 None 20%float None None;
      mkRow 1002 "spent"  ts_2023_02_01 None 100 (Some 5001) 0%float None None ].

(** ** The balance analytics ([run_analytics.py] and the DAG task
    [build_analytics]) *)

Module Analytics.

(** One entry of [balance_records]. *)
Record BalanceRecord := mkBalance {
  customer_id        : Z;
  transaction_date   : Timestamp;
  transaction_id     : Z;
  transaction_type   : string;
  amount             : float;
  cumulative_earned  : float;
  cumulative_spent   : float;
  cumulative_expired : float;
  current_balance    : float
}.

(** [DataFrame.iloc[-1]] on a non-empty selection. *)
Fixpoint iloc_last {A : Type} (l : list A) : option A :=
  match l with
  | [] => None
  | [x] => Some x
  | _ :: t => iloc_last t
  end.

Section Rounding.

(** How a total is stored in a record: [round(x, 2)] in
    [build_customer_balance_history], the value itself in [build_analytics]. *)
Variable round2 : float -> float.

(** The loop [for _, row in customer_df.iterrows()] with its three running
    totals. *)
Fixpoint running_totals (customer_id : Z) (customer_df : list Row)
    (cumulative_earned cumulative_spent cumulative_expired : float)
    : list BalanceRecord :=
  match customer_df with
  | [] => []
  | row :: rest =>
      let '(cumulative_earned, cumulative_spent, cumulative_expired) :=
        if String.eqb (TCTYPE row) "earned" then
          ((cumulative_earned + AMOUNT row)%float, cumulative_spent, cumulative_expired)
        else if String.eqb (TCTYPE row) "spent" then
          (cumulative_earned, (cumulative_spent + abs (AMOUNT row))%float,
           cumulative_expired)
        else if String.eqb (TCTYPE row) "expired" then
          (cumulative_earned, cumulative_spent,
           (cumulative_expired + abs (AMOUNT row))%float)
        else (cumulative_earned, cumulative_spent, cumulative_expired) in
      let current_balance :=
        (cumulative_earned - cumulative_spent - cumulative_expired)%float in
      mkBalance customer_id (CREATEDAT row) (TRANS_ID row) (TCTYPE row) (AMOUNT row)
        (round2 cumulative_earned) (round2 cumulative_spent)
        (round2 cumulative_expired) (round2 current_balance)
      :: running_totals customer_id rest
           cumulative_earned cumulative_spent cumulative_expired
  end.

(** The rows of one customer in date order:
    [df[df['CUSTOMERID'] == customer_id].sort_values('CREATEDAT')]. *)
Definition customer_rows (df : DataFrame) (customer_id : Z) : list Row :=
  map snd (sort_values (filter (customer_mask customer_id) (enumerate (rows df)))).

Definition balance_history (df : DataFrame) : list BalanceRecord :=
  flat_map
    (fun customer_id =>
       running_totals customer_id (customer_rows df customer_id) 0 0 0)
    (unique (map CUSTOMERID (rows df))).

End Rounding.

(** [build_customer_balance_history] of [run_analytics.py]. *)
Definition build_customer_balance_history (round2 : float -> float)
    (df : DataFrame) : list BalanceRecord :=
  balance_history round2 df.

(** The records the DAG task [build_analytics] writes. *)
Definition build_analytics (df : DataFrame) : list BalanceRecord :=
  balance_history (fun x => x) df.

(** One entry of the answer of [get_balance_on_date]. *)
Record BalanceOnDate := mkOnDate {
  queried_customer      : Z;
  balance_date          : string;
  last_transaction_date : option Timestamp;
  total_earned          : float;
  total_spent           : float;
  total_expired         : float;
  balance_on_date       : float
}.

(** What a call of [get_balance_on_date] does: it returns its answer frame,
    or raises the KeyError of a column lookup, or raises what
    [pd.to_datetime] raises on a string it cannot read. *)
Inductive QueryOutcome :=
| Answer (results : list BalanceOnDate)
| Raises_KeyError (column : string)
| Raises_DateError.

Section Query.

(** [pd.to_datetime] on the target date string; [None] when it raises. *)
Variable to_datetime : string -> option Timestamp.

(** The body of [for customer_id in customer_ids]. *)
Definition balance_of_customer (balance_history : list BalanceRecord)
    (target_date : string) (target_dt : Timestamp) (c : Z) : BalanceOnDate :=
  let customer_history :=
    filter (fun b => (customer_id b =? c) && (transaction_date b <=? target_dt))%bool
      balance_history in
  match iloc_last customer_history with
  | None => mkOnDate c target_date None 0 0 0 0
  | Some latest =>
      mkOnDate c target_date (Some (transaction_date latest))
        (cumulative_earned latest) (cumulative_spent latest)
        (cumulative_expired latest) (current_balance latest)
  end.

(** The history is a frame [pd.DataFrame(balance_records)]: built from no
    record it has no column at all, and the first column lookup of the loop
    raises. *)
Definition get_balance_on_date (balance_history : list BalanceRecord)
    (customer_ids : list Z) (target_date : string) : QueryOutcome :=
  match to_datetime target_date with
  | None => Raises_DateError
  | Some target_dt =>
      match customer_ids, balance_history with
      | _ :: _, [] => Raises_KeyError "customer_id"
      | _, _ =>
          Answer (map (balance_of_customer balance_history target_date target_dt)
                    customer_ids)
      end
  end.

End Query.

(** The part of a record that repeats its transaction. *)
Definition record_transaction (b : BalanceRecord)
    : Z * Timestamp * Z * string * float :=
  (customer_id b, transaction_date b, transaction_id b, transaction_type b, amount b).

Definition row_transaction (r : Row) : Z * Timestamp * Z * string * float :=
  (CUSTOMERID r, CREATEDAT r, TRANS_ID r, TCTYPE r, AMOUNT r).

End Analytics.

(** A target date reader that knows '2023-01-20'. *)
Definition read_date (s : string) : option Timestamp :=
  if String.eqb s "2023-01-20" then Some 1674172800000000000 else None.

(** What an answer [q] of [get_balance_on_date] says about the batch [df],
    the history [H] and the target instant [target_dt]: with no transaction
    of the customer on or before the target the answer is all zero; otherwise
    it repeats the totals of a record of the customer dated at the latest
    transaction on or before the target. *)
Definition answers_latest (df : DataFrame) (H : list Analytics.BalanceRecord)
    (target_dt : Timestamp) (q : Analytics.BalanceOnDate) : Prop :=
  match Analytics.last_transaction_date q with
  | None =>
      (forall r, In r (rows df) -> CUSTOMERID r = Analytics.queried_customer q ->
                 target_dt < CREATEDAT r)
      /\ Analytics.total_earned q = 0%float
      /\ Analytics.total_spent q = 0%float
      /\ Analytics.total_expired q = 0%float
      /\ Analytics.balance_on_date q = 0%float
  | Some d =>
      d <= target_dt
      /\ (forall r, In r (rows df) -> CUSTOMERID r = Analytics.queried_customer q ->
                    CREATEDAT r <= target_dt -> CREATEDAT r <= d)
      /\ exists b, In b H
                   /\ Analytics.customer_id b = Analytics.queried_customer q
                   /\ Analytics.transaction_date b = d
                   /\ Analytics.total_earned q = Analytics.cumulative_earned b
                   /\ Analytics.total_spent q = Analytics.cumulative_spent b
                   /\ Analytics.total_expired q = Analytics.cumulative_expired b
                   /\ Analytics.balance_on_date q = Analytics.current_balance b
  end.

(** The batch with no row. *)
Definition empty_batch : DataFrame := mkDataFrame object_ false [].

(** What the matching reads of a row: its id, whether it is earned, whether
    it is a redemption, its creation instant, its customer and its amount. *)
Definition matching_view (r : Row) : Z * bool * bool * Timestamp * Z * float :=
  (TRANS_ID r, String.eqb (TCTYPE r) "earned",
   isin (TCTYPE r) ["spent"; "expired"], CREATEDAT r, CUSTOMERID r, AMOUNT r).

(** Two labelled rows the matching cannot tell apart. *)
Definition alike (x y : Labelled) : Prop :=
  fst x = fst y /\ matching_view (snd x) = matching_view (snd y)
  /\ REDEEMID (snd x) = REDEEMID (snd y).

(** [expired_transactions_data] with the expiry recorded as a spend and
    without expiry dates, order ids or reasons. *)
Definition expiry_as_spend : DataFrame :=
  mkDataFrame int64 false
    [ mkRow 1001 "earned" 1672531200000000000 None 100 None 10%float None None;
      mkRow 1002 "earned" 1673740800000000000 None 100 None 20%float None None;
      mkRow 1003 "spent"  1675209600000000000 None 100 None (-10)%float None None;
      mkRow 1004 "spent"  1676419200000000000 None 100 None (-15)%float
            (Some "order") None ].

(** [sample_tc_data] seen from the evening of 2023-01-20: the spend of
    2023-02-01 lies in the future. *)
Definition evening_2023_01_20 : Timestamp := 1674172800000000000.

(** ** The transaction-type check on a column with blank cells *)

(** A column of the batch as the validator receives it: a cell is filled in
    or blank (NaN / None). *)
Definition Series (A : Type) : Type := list (option A).

(** [Series.dropna()]: the filled-in cells, in order. *)
Fixpoint dropna {A : Type} (s : Series A) : list A :=
  match s with
  | [] => []
  | Some v :: t => v :: dropna t
  | None :: t => dropna t
  end.

(** CHECK 2 of [validate_source_data] on the TCTYPE column itself:
    [actual_types = set(df['TCTYPE'].dropna().unique())],
    [invalid_types = actual_types - valid_types], passed when there is none. *)
Definition check_valid_types_on (col : Series string) : DataQuality.ValidationResult :=
  let actual_types := nodup string_dec (dropna col) in
  let invalid_types :=
    filter (fun t => negb (isin t DataQuality.valid_types)) actual_types in
  DataQuality.mkResult "Valid Transaction Types"
    (Nat.eqb (List.length invalid_types) 0) "ERROR".

(** [df['TCTYPE']] of a batch of typed rows: every cell is filled in. *)
Definition TCTYPE_column (df : DataFrame) : Series string :=
  map (fun r => Some (TCTYPE r)) (rows df).

(** A TCTYPE column with a blank cell among valid types, and one with a
    blank cell and an unknown type. *)
Definition blank_type_column : Series string :=
  [Some "earned"; None; Some "spent"].

Definition unknown_type_column : Series string :=
  [Some "earned"; None; Some "refund"].

(** * Properties *)

(** ** Index labels *)

Lemma enumerate_labels (rs : list Row) :
  map fst (enumerate rs) = seq 0 (List.length rs).
Proof.
  unfold enumerate. generalize 0%nat.
  induction rs as [|r rs IH]; intros n; simpl; [reflexivity|].
  now rewrite IH.
Qed.

Lemma enumerate_rows (rs : list Row) : map snd (enumerate rs) = rs.
Proof.
  unfold enumerate. generalize 0%nat.
  induction rs as [|r rs IH]; intros n; simpl; [reflexivity|].
  now rewrite IH.
Qed.

Lemma enumerate_NoDup (rs : list Row) : NoDup (map fst (enumerate rs)).
Proof. rewrite enumerate_labels. apply seq_NoDup. Qed.

Lemma loc_set_labels idx v (f : Frame) :
  map fst (loc_set_REDEEMID idx v f) = map fst f.
Proof.
  unfold loc_set_REDEEMID. rewrite map_map. apply map_ext.
  intros [i r]; simpl. now destruct (Nat.eqb i idx).
Qed.

(** Writing through a label the frame does not carry changes nothing. *)
Lemma loc_set_absent idx v (f : Frame) :
  ~ In idx (map fst f) -> loc_set_REDEEMID idx v f = f.
Proof.
  induction f as [|[i r] f IH]; simpl; intros H; [reflexivity|].
  destruct (Nat.eqb_spec i idx) as [->|Hne].
  - exfalso. apply H. now left.
  - f_equal. apply IH. intros Hin. apply H. now right.
Qed.

(** ** The frame of the engine: only the REDEEMID cell of a row changes *)

Lemma erase_loc_set idx v f : erase (loc_set_REDEEMID idx v f) = erase f.
Proof.
  unfold erase, loc_set_REDEEMID. rewrite map_map. apply map_ext.
  intros [i r]; simpl. now destruct (Nat.eqb i idx).
Qed.

Lemma erase_labels f : map fst (erase f) = map fst f.
Proof. unfold erase. rewrite map_map. reflexivity. Qed.

Lemma erase_rows f : map snd (erase f) = map (set_REDEEMID None) (map snd f).
Proof. unfold erase. now rewrite !map_map. Qed.

Lemma erase_enumerate_blank rs :
  erase (enumerate (map (set_REDEEMID None) rs))
  = enumerate (map (set_REDEEMID None) rs).
Proof.
  unfold erase, enumerate. rewrite length_map. generalize 0%nat.
  induction rs as [|r rs IH]; intros n; simpl; [reflexivity|].
  now rewrite IH.
Qed.

Module FifoFacts.
Import Fifo.

Lemma scan_erase rid rdate pool : forall S rem tr,
  erase (fst (fst (scan_available rid rdate pool S rem tr))) = erase S.
Proof.
  induction pool as [|[i er] pool IH]; intros S rem tr; simpl; [reflexivity|].
  destruct (rem <=? 0)%float; [reflexivity|].
  destruct (CREATEDAT er >? rdate).
  - apply IH.
  - rewrite IH. apply erase_loc_set.
Qed.

Lemma match_redemption_erase st red :
  erase (fst (match_redemption st red)) = erase (fst st).
Proof.
  destruct st as [S pool]. unfold match_redemption.
  pose proof (scan_erase (TRANS_ID (snd red)) (CREATEDAT (snd red)) pool S
                (abs (AMOUNT (snd red))) []) as H.
  destruct (scan_available _ _ _ _ _ _) as [[S' rem'] tr']. exact H.
Qed.

Lemma fold_match_erase reds : forall st,
  erase (fst (fold_left match_redemption reds st)) = erase (fst st).
Proof.
  induction reds as [|red reds IH]; intros st; simpl; [reflexivity|].
  rewrite IH. apply match_redemption_erase.
Qed.

Lemma process_customer_erase S c : erase (process_customer S c) = erase S.
Proof.
  unfold process_customer.
  destruct (_ || _)%bool; [reflexivity|].
  apply (fold_match_erase _ (S, _)).
Qed.

Lemma fold_process_erase custs : forall S,
  erase (fold_left process_customer custs S) = erase S.
Proof.
  induction custs as [|c custs IH]; intros S; simpl; [reflexivity|].
  rewrite IH. apply process_customer_erase.
Qed.

Lemma process_customer_labels S c :
  map fst (process_customer S c) = map fst S.
Proof.
  rewrite <- (erase_labels (process_customer S c)), process_customer_erase.
  apply erase_labels.
Qed.

Lemma fold_process_labels custs S :
  map fst (fold_left process_customer custs S) = map fst S.
Proof.
  rewrite <- (erase_labels (fold_left _ _ _)), fold_process_erase.
  apply erase_labels.
Qed.

(** Blanking the REDEEMID column of the output gives the blanked input. *)
Lemma perform_blank df :
  map (set_REDEEMID None) (rows (perform_fifo_matching df))
  = map (set_REDEEMID None) (rows df).
Proof.
  unfold perform_fifo_matching; simpl.
  rewrite <- erase_rows, fold_process_erase, erase_enumerate_blank.
  apply enumerate_rows.
Qed.

End FifoFacts.

Lemma blank_eq_same_transaction r r' :
  set_REDEEMID None r' = set_REDEEMID None r -> same_transaction r r'.
Proof.
  unfold set_REDEEMID, same_transaction. intros H.
  injection H; intros; repeat split; assumption.
Qed.

Lemma map_blank_Forall2 (l l' : list Row) :
  map (set_REDEEMID None) l' = map (set_REDEEMID None) l ->
  Forall2 same_transaction l l'.
Proof.
  revert l'. induction l as [|r l IH]; intros [|r' l'] H; simpl in H;
    try discriminate; constructor.
  - apply blank_eq_same_transaction. exact (f_equal (hd r) H).
  - apply IH. exact (f_equal (@tl Row) H).
Qed.

(** C4. The output of [perform_fifo_matching] has the rows of the input, one
    for one and in the same order, and on every row TRANS_ID, TCTYPE,
    CREATEDAT, EXPIREDAT, CUSTOMERID, ORDERID, AMOUNT and REASON keep their
    input values; the REDEEMID column is present afterwards and is the only
    thing written. *)
Theorem perform_fifo_matching_frame (df : DataFrame) :
  let out := Fifo.perform_fifo_matching df in
  Forall2 same_transaction (rows df) (rows out)
  /\ List.length (rows out) = List.length (rows df)
  /\ CUSTOMERID_dtype out = CUSTOMERID_dtype df
  /\ has_REDEEMID out = true.
Proof.
  intros out.
  assert (H : Forall2 same_transaction (rows df) (rows out))
    by (apply map_blank_Forall2, FifoFacts.perform_blank).
  repeat split; [exact H | symmetry; eapply Forall2_length; exact H].
Qed.

(** C10. Running [perform_fifo_matching] on its own output returns that
    output: the REDEEMID column is blanked on entry and nothing the matching
    reads is ever written. *)
Theorem perform_fifo_matching_idempotent (df : DataFrame) :
  Fifo.perform_fifo_matching (Fifo.perform_fifo_matching df)
  = Fifo.perform_fifo_matching df.
Proof.
  unfold Fifo.perform_fifo_matching at 1.
  rewrite FifoFacts.perform_blank. reflexivity.
Qed.

(** ** Scenario A *)

Lemma Permutation_3_inv {A} (l : list A) a b c :
  Permutation l [a; b; c] ->
  l = [a; b; c] \/ l = [a; c; b] \/ l = [b; a; c] \/
  l = [b; c; a] \/ l = [c; a; b] \/ l = [c; b; a].
Proof.
  intros H.
  destruct (Permutation_vs_cons_inv H) as (l1 & l2 & ->).
  apply Permutation_sym, Permutation_cons_app_inv in H.
  apply Permutation_length_2_inv in H.
  destruct l1 as [|x [|y [|z l1]]]; simpl in H |- *;
    destruct H as [H|H]; inversion H; subst; tauto.
Qed.

(** Runs the engine on a frame whose rows are explicit and whose customer
    ids are one symbolic value. *)
Ltac run_engine :=
  unfold Fifo.perform_fifo_matching, redeemids; simpl rows;
  repeat (cbn -[Z.eqb]; rewrite ?Z.eqb_refl);
  unfold Fifo.process_customer;
  repeat (cbn -[Z.eqb]; rewrite ?Z.eqb_refl).

Ltac perm3 :=
  solve [ reflexivity
        | apply perm_swap
        | apply perm_skip, perm_swap
        | eapply perm_trans; [apply perm_swap | apply perm_skip, perm_swap]
        | eapply perm_trans; [apply perm_skip, perm_swap | apply perm_swap]
        | eapply perm_trans; [apply perm_swap |];
          eapply perm_trans; [apply perm_skip, perm_swap | apply perm_swap] ].

(** C1. On a batch made of the three Scenario A rows of one customer, in any
    row order, rows 1001 and 1002 both come out with REDEEMID = 1003 (lot 1001
    is consumed whole, the 5 still open then consumes lot 1002 whole) and row
    1003 comes out with a null REDEEMID. *)
Theorem scenario_A_matching (df : DataFrame) (c : Z) (r1 r2 r3 : Row) :
  scenario_A c r1 r2 r3 ->
  Permutation (rows df) [r1; r2; r3] ->
  Permutation (redeemids (Fifo.perform_fifo_matching df))
    [(1001, Some 1003); (1002, Some 1003); (1003, None)].
Proof.
  intros [H1 H2 H3] HP.
  destruct r1, r2, r3; simpl in H1, H2, H3.
  destruct H1 as (-> & -> & -> & -> & ->), H2 as (-> & -> & -> & -> & ->),
           H3 as (-> & -> & -> & -> & ->).
  destruct df as [dt has rs]; simpl in HP.
  apply Permutation_3_inv in HP.
  destruct HP as [->|[->|[->|[->|[->| ->]]]]]; run_engine; perm3.
Qed.

Lemma scenario_A_matching_witness :
  Permutation (redeemids (Fifo.perform_fifo_matching sample_tc_data))
    [(1001, Some 1003); (1002, Some 1003); (1003, None)].
Proof.
  apply (scenario_A_matching sample_tc_data 100 sample_1001 sample_1002 sample_1003).
  - split; simpl; repeat split; reflexivity.
  - apply Permutation_refl.
Defined.

(** The other scenarios of the test suite, run through the model. *)
Example scenario_B_matching :
  redeemids (Fifo.perform_fifo_matching expired_transactions_data)
  = [(1001, Some 1003); (1002, Some 1004); (1003, None); (1004, None)].
Proof. vm_compute. reflexivity. Qed.

Example scenario_C_matching :
  redeemids (Fifo.perform_fifo_matching spent_before_earned)
  = [(1001, None); (1002, None)].
Proof. vm_compute. reflexivity. Qed.

Example multi_customer_matching :
  redeemids (Fifo.perform_fifo_matching multi_customer_data)
  = [(1001, Some 1002); (1002, None); (1003, Some 2002);
     (2001, Some 2002); (2002, None); (2003, None)].
Proof. vm_compute. reflexivity. Qed.

(** ** The temporal guard *)

Lemma NoDup_labels_functional {A} (l : list (nat * A)) i a b :
  NoDup (map fst l) -> In (i, a) l -> In (i, b) l -> a = b.
Proof.
  induction l as [|[j x] l IH]; simpl; intros Hnd Ha Hb; [contradiction|].
  inversion Hnd as [|? ? Hnotin Hnd']; subst.
  destruct Ha as [Ha|Ha], Hb as [Hb|Hb].
  - congruence.
  - injection Ha as -> ->. exfalso. apply Hnotin.
    apply (in_map fst) in Hb. exact Hb.
  - injection Hb as -> ->. exfalso. apply Hnotin.
    apply (in_map fst) in Ha. exact Ha.
  - now apply IH.
Qed.

Lemma in_erase i r (S : Frame) :
  In (i, r) S -> In (i, set_REDEEMID None r) (erase S).
Proof. intros H. apply (in_map (fun ir : Labelled => (fst ir, set_REDEEMID None (snd ir))) _ _ H). Qed.

Lemma in_insert_by_CREATEDAT x y l :
  In y (insert_by_CREATEDAT x l) <-> y = x \/ In y l.
Proof.
  induction l as [|z l IH]; simpl.
  - intuition congruence.
  - destruct (CREATEDAT (snd x) <=? CREATEDAT (snd z)); simpl.
    + intuition congruence.
    + rewrite IH. intuition congruence.
Qed.

Lemma in_sort_values y l : In y (sort_values l) <-> In y l.
Proof.
  induction l as [|x l IH]; simpl; [tauto|].
  rewrite in_insert_by_CREATEDAT, IH. intuition congruence.
Qed.

Lemma in_list_remove idx ir l : In ir (list_remove idx l) -> In ir l.
Proof.
  induction l as [|x l IH]; simpl; [tauto|].
  destruct (Nat.eqb (fst x) idx); simpl; intuition.
Qed.

Lemma in_fold_list_remove tr : forall pool ir,
  In ir (fold_left (fun p idx => list_remove idx p) tr pool) -> In ir pool.
Proof.
  induction tr as [|idx tr IH]; simpl; intros pool ir H; [exact H|].
  apply IH in H. eapply in_list_remove; exact H.
Qed.

Lemma isin_spent_expired t :
  isin t ["spent"; "expired"] = true <-> t = "spent" \/ t = "expired".
Proof.
  unfold isin; simpl. rewrite !orb_true_iff, !String.eqb_eq. intuition discriminate.
Qed.

Module Guard.
Import Fifo.

Section Invariant.

(** The blanked rows of the frame, which no step of the engine changes. *)
Variable U : list Row.


Lemma scan_inv c red pool : forall S rem tr,
  redemption_ok U c red ->
  pool_ok c (erase S) pool ->
  Inv U S ->
  Inv U (fst (fst (scan_available (TRANS_ID (snd red)) (CREATEDAT (snd red))
                   pool S rem tr))).
Proof.
  induction pool as [|[i er] pool IH]; intros S rem tr Hred Hpool HS; simpl;
    [exact HS|].
  destruct (rem <=? 0)%float; [exact HS|].
  assert (Hrest : pool_ok c (erase S) pool)
    by (intros ir Hir; apply Hpool; now right).
  destruct (Z.gtb_spec (CREATEDAT er) (CREATEDAT (snd red))) as [Hgt|Hle].
  - now apply IH.
  - apply IH; [exact Hred | now rewrite erase_loc_set |].
    destruct HS as (Hnd & HU & Hj).
    destruct (Hpool (i, er) (or_introl eq_refl)) as (Hin & Hty & Hc); simpl in *.
    split; [now rewrite loc_set_labels|].
    split; [now rewrite erase_loc_set|].
    unfold loc_set_REDEEMID. apply Forall_map.
    rewrite Forall_forall in Hj |- *. intros [j e] Hje; simpl.
    destruct (Nat.eqb_spec j i) as [->|Hne]; simpl; [|exact (Hj _ Hje)].
    assert (He : set_REDEEMID None e = set_REDEEMID None er).
    { eapply (NoDup_labels_functional (erase S) i);
        [now rewrite erase_labels | now apply in_erase | exact Hin]. }
    apply blank_eq_same_transaction in He.
    destruct He as (_ & Hty' & Hcr & _ & Hcu & _).
    intros rid Hrid; simpl in Hrid. injection Hrid as <-.
    split; [simpl; congruence|].
    destruct Hred as (HinU & Hkind & Hcust).
    exists (set_REDEEMID None (snd red)); simpl.
    repeat split; try assumption; [congruence | lia].
Qed.

Lemma match_redemption_inv c red S pool :
  redemption_ok U c red ->
  pool_ok c (erase S) pool ->
  Inv U S ->
  Inv U (fst (match_redemption (S, pool) red))
  /\ pool_ok c (erase (fst (match_redemption (S, pool) red)))
       (snd (match_redemption (S, pool) red)).
Proof.
  intros Hred Hpool HS.
  pose proof (scan_inv c red pool S (abs (AMOUNT (snd red))) [] Hred Hpool HS) as H.
  pose proof (FifoFacts.match_redemption_erase (S, pool) red) as He.
  unfold match_redemption in *.
  destruct (scan_available _ _ _ _ _ _) as [[S' rem'] tr']; simpl in *.
  split; [exact H|].
  rewrite He. intros ir Hir. apply Hpool. eapply in_fold_list_remove; exact Hir.
Qed.

Lemma fold_match_inv c reds : forall S pool,
  (forall red, In red reds -> redemption_ok U c red) ->
  pool_ok c (erase S) pool ->
  Inv U S ->
  Inv U (fst (fold_left match_redemption reds (S, pool))).
Proof.
  induction reds as [|red reds IH]; intros S pool Hreds Hpool HS;
    cbn [fold_left]; [exact HS|].
  destruct (match_redemption_inv c red S pool) as [H1 H2];
    [apply Hreds; now left | exact Hpool | exact HS |].
  destruct (match_redemption (S, pool) red) as [S' pool'].
  apply IH; [intros r Hr; apply Hreds; now right | exact H2 | exact H1].
Qed.

Lemma process_customer_inv S c : Inv U S -> Inv U (process_customer S c).
Proof.
  intros HS. unfold process_customer.
  destruct (_ || _)%bool; [exact HS|].
  apply (fold_match_inv c).
  - intros [i r] Hr. apply (proj1 (in_sort_values _ _)) in Hr.
    apply filter_In in Hr as [Hr Hmask]. apply filter_In in Hr as [Hr Hc].
    simpl in *. destruct HS as (_ & HU & _).
    repeat split.
    + rewrite <- HU. apply in_erase in Hr.
      apply (in_map snd) in Hr. exact Hr.
    + now apply isin_spent_expired.
    + now apply Z.eqb_eq.
  - intros [i r] Hr. apply (proj1 (in_sort_values _ _)) in Hr.
    apply filter_In in Hr as [Hr Hmask]. apply filter_In in Hr as [Hr Hc].
    simpl in *. repeat split.
    + now apply in_erase.
    + now apply String.eqb_eq.
    + now apply Z.eqb_eq.
  - exact HS.
Qed.

Lemma fold_process_inv custs : forall S,
  Inv U S -> Inv U (fold_left process_customer custs S).
Proof.
  induction custs as [|c custs IH]; intros S HS; simpl; [exact HS|].
  apply IH, process_customer_inv, HS.
Qed.

End Invariant.

Lemma initial_inv rs :
  Inv (map (set_REDEEMID None) rs) (enumerate (map (set_REDEEMID None) rs)).
Proof.
  split; [apply enumerate_NoDup|].
  split; [now rewrite erase_enumerate_blank, enumerate_rows|].
  apply Forall_forall. intros [i r] Hir rid Hrid. exfalso.
  apply (in_map snd) in Hir. rewrite enumerate_rows in Hir.
  apply in_map_iff in Hir as (r0 & Hr0 & _). simpl in Hr0, Hrid.
  rewrite <- Hr0 in Hrid. discriminate Hrid.
Qed.

(** The frame the engine ends with satisfies the invariant. *)
Lemma final_inv df :
  let S := fold_left process_customer
             (unique (map (fun ir : Labelled => CUSTOMERID (snd ir))
                        (enumerate (map (set_REDEEMID None) (rows df)))))
             (enumerate (map (set_REDEEMID None) (rows df))) in
  Inv (map (set_REDEEMID None) (rows df)) S
  /\ rows (perform_fifo_matching df) = map snd S.
Proof.
  intros S. split; [|reflexivity].
  apply fold_process_inv, initial_inv.
Qed.

End Guard.

Lemma NoDup_map_injective_on {A B} (f : A -> B) (l : list A) x y :
  NoDup (map f l) -> In x l -> In y l -> f x = f y -> x = y.
Proof.
  induction l as [|a l IH]; simpl; intros Hnd Hx Hy Hf; [contradiction|].
  inversion Hnd as [|? ? Hnotin Hnd']; subst.
  destruct Hx as [->|Hx], Hy as [->|Hy]; auto.
  - exfalso. apply Hnotin. rewrite Hf. now apply in_map.
  - exfalso. apply Hnotin. rewrite <- Hf. now apply in_map.
Qed.

(** C2. In the output of [perform_fifo_matching], a row that carries
    REDEEMID = rid is an earned row, and the output holds a spent or expired
    row of the same customer with TRANS_ID = rid whose CREATEDAT is greater
    than or equal to the earned row's (equal timestamps are allowed).  When
    the batch's TRANS_IDs are unique, that row is the only one named rid, so
    no row the reference can denote was created strictly earlier. *)
Theorem temporal_guard (df : DataFrame) (e : Row) (rid : Z) :
  In e (rows (Fifo.perform_fifo_matching df)) ->
  REDEEMID e = Some rid ->
  TCTYPE e = "earned" /\
  exists r,
    In r (rows (Fifo.perform_fifo_matching df))
    /\ TRANS_ID r = rid
    /\ (TCTYPE r = "spent" \/ TCTYPE r = "expired")
    /\ CUSTOMERID r = CUSTOMERID e
    /\ CREATEDAT e <= CREATEDAT r
    /\ (NoDup (map TRANS_ID (rows df)) ->
        forall r', In r' (rows (Fifo.perform_fifo_matching df)) ->
                   TRANS_ID r' = rid -> CREATEDAT e <= CREATEDAT r').
Proof.
  intros He Hrid.
  destruct (Guard.final_inv df) as [(Hnd & HU & Hj) Hrows].
  set (out := Fifo.perform_fifo_matching df) in *.
  rewrite Hrows in He. apply in_map_iff in He as ([i e'] & <- & Hie).
  rewrite Forall_forall in Hj.
  destruct (Hj _ Hie rid Hrid) as (Hty & r & HrU & Hid & Hkind & Hcust & Hle).
  split; [exact Hty|].
  rewrite <- (FifoFacts.perform_blank df) in HrU. fold out in HrU.
  apply in_map_iff in HrU as (r' & <- & Hr').
  exists r'. simpl in *. repeat split; try assumption.
  intros Hids r'' Hr'' Hid''.
  assert (Hidsout : NoDup (map TRANS_ID (rows out))).
  { replace (map TRANS_ID (rows out)) with (map TRANS_ID (rows df)); [exact Hids|].
    transitivity (map TRANS_ID (map (set_REDEEMID None) (rows out))).
    - unfold out. rewrite FifoFacts.perform_blank. now rewrite map_map.
    - now rewrite map_map. }
  rewrite (NoDup_map_injective_on TRANS_ID (rows out) r'' r' Hidsout Hr'' Hr');
    [exact Hle | congruence].
Qed.

Lemma temporal_guard_witness :
  TCTYPE (set_REDEEMID (Some 1003) sample_1002) = "earned" /\
  exists r,
    In r (rows (Fifo.perform_fifo_matching sample_tc_data))
    /\ TRANS_ID r = 1003
    /\ (TCTYPE r = "spent" \/ TCTYPE r = "expired")
    /\ CUSTOMERID r = CUSTOMERID (set_REDEEMID (Some 1003) sample_1002)
    /\ CREATEDAT (set_REDEEMID (Some 1003) sample_1002) <= CREATEDAT r
    /\ (NoDup (map TRANS_ID (rows sample_tc_data)) ->
        forall r', In r' (rows (Fifo.perform_fifo_matching sample_tc_data)) ->
                   TRANS_ID r' = 1003 ->
                   CREATEDAT (set_REDEEMID (Some 1003) sample_1002) <= CREATEDAT r').
Proof.
  apply (temporal_guard sample_tc_data (set_REDEEMID (Some 1003) sample_1002) 1003).
  - vm_compute. right. left. reflexivity.
  - reflexivity.
Defined.

(** ** Customer isolation *)

(** *** Rows of other customers are never written *)

Lemma filter_loc_set c idx v (S : Frame) :
  filter (customer_mask c) (loc_set_REDEEMID idx v S)
  = loc_set_REDEEMID idx v (filter (customer_mask c) S).
Proof.
  unfold loc_set_REDEEMID. rewrite filter_map_swap. f_equal.
  apply filter_ext. intros [i r]; simpl.
  now destruct (Nat.eqb i idx).
Qed.

Lemma NoDup_labels_filter (p : Labelled -> bool) (S : Frame) :
  NoDup (map fst S) -> NoDup (map fst (filter p S)).
Proof.
  induction S as [|x S IH]; simpl; intros H; [constructor|].
  inversion H as [|? ? Hnotin Hnd]; subst.
  destruct (p x); simpl; [|now apply IH].
  constructor; [|now apply IH].
  intros Hin. apply Hnotin.
  apply in_map_iff in Hin as (y & Hy & Hin). apply filter_In in Hin as [Hin _].
  rewrite <- Hy. now apply in_map.
Qed.

Module Isolation.
Import Fifo.

Section StoreMap.

(** A transformation of the store that commutes with every write. *)
Variable h : Frame -> Frame.
Hypothesis h_loc_set :
  forall idx v S, h (loc_set_REDEEMID idx v S) = loc_set_REDEEMID idx v (h S).

Lemma scan_store_map rid rdate pool : forall S rem tr,
  scan_available rid rdate pool (h S) rem tr
  = (h (fst (fst (scan_available rid rdate pool S rem tr))),
     snd (fst (scan_available rid rdate pool S rem tr)),
     snd (scan_available rid rdate pool S rem tr)).
Proof.
  induction pool as [|[i er] pool IH]; intros S rem tr; simpl; [reflexivity|].
  destruct (rem <=? 0)%float; [reflexivity|].
  destruct (CREATEDAT er >? rdate); [apply IH|].
  rewrite <- h_loc_set. apply IH.
Qed.

Lemma match_redemption_store_map S pool red :
  match_redemption (h S, pool) red
  = (h (fst (match_redemption (S, pool) red)),
     snd (match_redemption (S, pool) red)).
Proof.
  unfold match_redemption. rewrite scan_store_map.
  destruct (scan_available _ _ _ S _ _) as [[S' rem'] tr']. reflexivity.
Qed.

Lemma fold_match_store_map reds : forall S pool,
  fold_left match_redemption reds (h S, pool)
  = (h (fst (fold_left match_redemption reds (S, pool))),
     snd (fold_left match_redemption reds (S, pool))).
Proof.
  induction reds as [|red reds IH]; intros S pool; cbn [fold_left];
    [reflexivity|].
  rewrite match_redemption_store_map.
  destruct (match_redemption (S, pool) red) as [S' pool']. apply IH.
Qed.

End StoreMap.

(** The customer's own pass sees nothing but the customer's rows. *)
Lemma process_customer_own S c :
  process_customer (filter (customer_mask c) S) c
  = filter (customer_mask c) (process_customer S c).
Proof.
  unfold process_customer.
  fold (customer_mask c).
  assert (E : filter (customer_mask c) (filter (customer_mask c) S)
              = filter (customer_mask c) S).
  { apply forallb_filter_id, forallb_filter. }
  rewrite E.
  destruct (_ || _)%bool; [reflexivity|].
  rewrite (fold_match_store_map (filter (customer_mask c)) (filter_loc_set c)).
  reflexivity.
Qed.

Lemma scan_absent rid rdate pool : forall T rem tr,
  (forall ir, In ir pool -> ~ In (fst ir) (map fst T)) ->
  fst (fst (scan_available rid rdate pool T rem tr)) = T.
Proof.
  induction pool as [|[i er] pool IH]; intros T rem tr H; simpl; [reflexivity|].
  destruct (rem <=? 0)%float; [reflexivity|].
  assert (Hrest : forall ir, In ir pool -> ~ In (fst ir) (map fst T))
    by (intros ir Hir; apply H; now right).
  destruct (CREATEDAT er >? rdate); [now apply IH|].
  rewrite (loc_set_absent i rid T); [now apply IH|].
  apply (H (i, er)). now left.
Qed.

Lemma fold_match_absent reds : forall T pool,
  (forall ir, In ir pool -> ~ In (fst ir) (map fst T)) ->
  fst (fold_left match_redemption reds (T, pool)) = T.
Proof.
  induction reds as [|red reds IH]; intros T pool H; cbn [fold_left];
    [reflexivity|].
  unfold match_redemption at 2.
  pose proof (scan_absent (TRANS_ID (snd red)) (CREATEDAT (snd red)) pool T
                (abs (AMOUNT (snd red))) [] H) as HT.
  destruct (scan_available _ _ _ _ _ _) as [[T' rem'] tr']; simpl in HT; subst T'.
  apply IH. intros ir Hir. apply H. eapply in_fold_list_remove; exact Hir.
Qed.

(** Another customer's pass leaves the customer's rows as they are. *)
Lemma process_customer_other S c c' :
  c' <> c -> NoDup (map fst S) ->
  filter (customer_mask c) (process_customer S c') = filter (customer_mask c) S.
Proof.
  intros Hne Hnd. unfold process_customer.
  destruct (_ || _)%bool; [reflexivity|].
  pose proof (fold_match_store_map (filter (customer_mask c)) (filter_loc_set c)) as E.
  match goal with
  | |- filter _ (fst (fold_left _ ?reds (S, ?pool))) = _ =>
      specialize (E reds S pool);
      transitivity (fst (fold_left match_redemption reds
                           (filter (customer_mask c) S, pool)));
      [exact (eq_sym (f_equal fst E))|]
  end.
  apply fold_match_absent.
  intros [i r] Hir Hin. apply (proj1 (in_sort_values _ _)) in Hir.
  apply filter_In in Hir as [Hir _]. apply filter_In in Hir as [Hir Hc'].
  apply in_map_iff in Hin as ([j r'] & Hj & Hin). simpl in Hj. subst j.
  apply filter_In in Hin as [Hin Hc].
  assert (r = r') by (eapply NoDup_labels_functional; eassumption). subst r'.
  unfold customer_mask in Hc. simpl in Hc, Hc'.
  apply Z.eqb_eq in Hc, Hc'. congruence.
Qed.

Lemma fold_process_other custs c : forall S,
  ~ In c custs -> NoDup (map fst S) ->
  filter (customer_mask c) (fold_left process_customer custs S)
  = filter (customer_mask c) S.
Proof.
  induction custs as [|c' custs IH]; intros S Hc Hnd; simpl; [reflexivity|].
  rewrite IH.
  - apply process_customer_other; [|exact Hnd]. intros ->. apply Hc. now left.
  - intros Hin. apply Hc. now right.
  - now rewrite FifoFacts.process_customer_labels.
Qed.

Lemma fold_process_own custs c : forall S,
  NoDup custs -> In c custs -> NoDup (map fst S) ->
  filter (customer_mask c) (fold_left process_customer custs S)
  = process_customer (filter (customer_mask c) S) c.
Proof.
  induction custs as [|c' custs IH]; intros S Hcs Hc Hnd; simpl; [contradiction|].
  inversion Hcs as [|? ? Hnotin Hcs']; subst.
  destruct (Z.eq_dec c' c) as [->|Hne].
  - rewrite fold_process_other;
      [symmetry; apply process_customer_own | exact Hnotin
      | now rewrite FifoFacts.process_customer_labels].
  - destruct Hc as [Hc|Hc]; [contradiction|].
    rewrite IH;
      [| exact Hcs' | exact Hc | now rewrite FifoFacts.process_customer_labels].
    now rewrite process_customer_other.
Qed.

End Isolation.

(** *** The allocation does not depend on the index labels *)

Lemma relabel_rows g S : map snd (relabel g S) = map snd S.
Proof. unfold relabel. rewrite map_map. reflexivity. Qed.

Lemma relabel_labels g S : map fst (relabel g S) = map g (map fst S).
Proof. unfold relabel. now rewrite !map_map. Qed.

Lemma relabel_filter g (q : Row -> bool) S :
  filter (fun ir : Labelled => q (snd ir)) (relabel g S)
  = relabel g (filter (fun ir : Labelled => q (snd ir)) S).
Proof. unfold relabel. now rewrite filter_map_swap. Qed.

Lemma relabel_insert g x l :
  insert_by_CREATEDAT (g (fst x), snd x) (relabel g l)
  = relabel g (insert_by_CREATEDAT x l).
Proof.
  induction l as [|y l IH]; simpl; [reflexivity|].
  destruct (CREATEDAT (snd x) <=? CREATEDAT (snd y)); simpl; [reflexivity|].
  now rewrite IH.
Qed.

Lemma relabel_sort_values g l :
  sort_values (relabel g l) = relabel g (sort_values l).
Proof.
  induction l as [|x l IH]; simpl; [reflexivity|].
  rewrite IH. apply relabel_insert.
Qed.

Lemma list_remove_labels idx l :
  incl (map fst (list_remove idx l)) (map fst l).
Proof.
  intros i Hi. apply in_map_iff in Hi as (ir & <- & Hir).
  apply in_map. eapply in_list_remove; exact Hir.
Qed.

Section Relabel.

Variable g : nat -> nat.
Variable D : list nat.
Hypothesis g_inj : inj_on g D.

Lemma eqb_relabel i j : In i D -> In j D -> Nat.eqb (g i) (g j) = Nat.eqb i j.
Proof.
  intros Hi Hj. destruct (Nat.eqb_spec i j) as [->|Hne].
  - apply Nat.eqb_refl.
  - apply Nat.eqb_neq. intros H. apply Hne. now apply g_inj.
Qed.

Lemma relabel_loc_set idx v (S : Frame) :
  In idx D -> incl (map fst S) D ->
  loc_set_REDEEMID (g idx) v (relabel g S) = relabel g (loc_set_REDEEMID idx v S).
Proof.
  intros Hidx HS. unfold loc_set_REDEEMID, relabel. rewrite !map_map.
  apply map_ext_in. intros [i r] Hir; simpl.
  rewrite eqb_relabel; [now destruct (Nat.eqb i idx) | | exact Hidx].
  apply HS. apply (in_map fst) in Hir. exact Hir.
Qed.

Lemma relabel_list_remove idx (pool : Frame) :
  In idx D -> incl (map fst pool) D ->
  list_remove (g idx) (relabel g pool) = relabel g (list_remove idx pool).
Proof.
  intros Hidx. induction pool as [|[i r] pool IH]; simpl; intros Hp;
    [reflexivity|].
  rewrite eqb_relabel; [| apply Hp; now left | exact Hidx].
  destruct (Nat.eqb i idx); [reflexivity|]. simpl. f_equal.
  apply IH. intros j Hj. apply Hp. now right.
Qed.

Lemma relabel_fold_list_remove tr : forall pool : Frame,
  incl tr D -> incl (map fst pool) D ->
  fold_left (fun p idx => list_remove idx p) (map g tr) (relabel g pool)
  = relabel g (fold_left (fun p idx => list_remove idx p) tr pool).
Proof.
  induction tr as [|idx tr IH]; intros pool Htr Hp; simpl; [reflexivity|].
  rewrite relabel_list_remove; [| apply Htr; now left | exact Hp].
  apply IH.
  - intros j Hj. apply Htr. now right.
  - intros j Hj. apply Hp. eapply list_remove_labels; exact Hj.
Qed.

Import Fifo.

Lemma scan_indices rid rdate pool : forall S rem tr,
  incl (snd (scan_available rid rdate pool S rem tr)) (tr ++ map fst pool).
Proof.
  induction pool as [|[i er] pool IH]; intros S rem tr; simpl.
  - apply incl_appl, incl_refl.
  - destruct (rem <=? 0)%float; [apply incl_appl, incl_refl|].
    destruct (CREATEDAT er >? rdate).
    + intros j Hj. apply IH in Hj. apply in_app_iff in Hj as [Hj|Hj];
        apply in_app_iff; [now left | right; now right].
    + intros j Hj. apply IH in Hj. rewrite <- app_assoc in Hj. exact Hj.
Qed.

Lemma relabel_scan rid rdate (pool : Frame) : forall (S : Frame) rem tr,
  incl (map fst pool) D -> incl (map fst S) D ->
  scan_available rid rdate (relabel g pool) (relabel g S) rem (map g tr)
  = (relabel g (fst (fst (scan_available rid rdate pool S rem tr))),
     snd (fst (scan_available rid rdate pool S rem tr)),
     map g (snd (scan_available rid rdate pool S rem tr))).
Proof.
  induction pool as [|[i er] pool IH]; intros S rem tr Hp HS; simpl;
    [reflexivity|].
  destruct (rem <=? 0)%float; [reflexivity|].
  assert (Hrest : incl (map fst pool) D) by (intros j Hj; apply Hp; now right).
  destruct (CREATEDAT er >? rdate); [now apply IH|].
  rewrite relabel_loc_set; [| apply Hp; now left | exact HS].
  replace (map g tr ++ [g i]) with (map g (tr ++ [i])) by apply map_app.
  apply IH; [exact Hrest | now rewrite loc_set_labels].
Qed.

Lemma scan_labels rid rdate pool S rem tr :
  map fst (fst (fst (scan_available rid rdate pool S rem tr))) = map fst S.
Proof.
  rewrite <- (erase_labels (fst (fst _))), FifoFacts.scan_erase.
  apply erase_labels.
Qed.

Lemma relabel_match_redemption (S pool : Frame) red :
  incl (map fst pool) D -> incl (map fst S) D ->
  match_redemption (relabel g S, relabel g pool) (g (fst red), snd red)
  = (relabel g (fst (match_redemption (S, pool) red)),
     relabel g (snd (match_redemption (S, pool) red))).
Proof.
  intros Hp HS. unfold match_redemption. cbn [snd].
  pose proof (relabel_scan (TRANS_ID (snd red)) (CREATEDAT (snd red)) pool S
                (abs (AMOUNT (snd red))) [] Hp HS) as E.
  pose proof (scan_indices (TRANS_ID (snd red)) (CREATEDAT (snd red)) pool S
                (abs (AMOUNT (snd red))) []) as Htr.
  cbn [map] in E. rewrite E.
  destruct (scan_available _ _ pool S _ _) as [[S' rem'] tr']; cbn [fst snd] in *.
  f_equal. apply relabel_fold_list_remove; [|exact Hp].
  intros j Hj. apply Hp, (Htr j Hj).
Qed.

Lemma match_redemption_labels (S pool : Frame) red :
  map fst (fst (match_redemption (S, pool) red)) = map fst S
  /\ incl (map fst (snd (match_redemption (S, pool) red))) (map fst pool).
Proof.
  unfold match_redemption.
  pose proof (scan_labels (TRANS_ID (snd red)) (CREATEDAT (snd red)) pool S
                (abs (AMOUNT (snd red))) []) as E.
  destruct (scan_available _ _ _ _ _ _) as [[S' rem'] tr']; cbn [fst snd] in *.
  split; [exact E|].
  intros j Hj. apply in_map_iff in Hj as (ir & <- & Hir).
  apply in_map. eapply in_fold_list_remove; exact Hir.
Qed.

Lemma relabel_fold_match reds : forall S pool : Frame,
  incl (map fst pool) D -> incl (map fst S) D ->
  fold_left match_redemption (relabel g reds) (relabel g S, relabel g pool)
  = (relabel g (fst (fold_left match_redemption reds (S, pool))),
     relabel g (snd (fold_left match_redemption reds (S, pool)))).
Proof.
  induction reds as [|red reds IH]; intros S pool Hp HS; cbn [fold_left relabel map];
    [reflexivity|].
  fold (relabel g reds).
  rewrite relabel_match_redemption by assumption.
  destruct (match_redemption_labels S pool red) as [E1 E2].
  destruct (match_redemption (S, pool) red) as [S' pool']; cbn [fst snd] in *.
  apply IH; [intros j Hj; apply Hp, E2, Hj | now rewrite E1].
Qed.

Lemma relabel_length (S : Frame) : List.length (relabel g S) = List.length S.
Proof. apply length_map. Qed.

(** A pass over a relabelled frame is the relabelled pass. *)
Lemma relabel_process_customer (S : Frame) c :
  incl (map fst S) D ->
  process_customer (relabel g S) c = relabel g (process_customer S c).
Proof.
  intros HS. unfold process_customer.
  rewrite (relabel_filter g (fun r => CUSTOMERID r =? c)).
  rewrite (relabel_filter g (fun r => String.eqb (TCTYPE r) "earned")).
  rewrite (relabel_filter g (fun r => isin (TCTYPE r) ["spent"; "expired"])).
  rewrite !relabel_sort_values, !relabel_length.
  destruct (_ || _)%bool; [reflexivity|].
  rewrite relabel_fold_match; [reflexivity | | exact HS].
  intros j Hj. apply HS.
  apply in_map_iff in Hj as (ir & <- & Hir).
  apply (proj1 (in_sort_values _ _)) in Hir.
  apply filter_In in Hir as [Hir _]. apply filter_In in Hir as [Hir _].
  now apply in_map.
Qed.

End Relabel.

(** Two frames with the same rows under duplicate-free labels differ by a
    relabelling that is injective on the labels in use. *)
Lemma assoc_combine_in (la : list nat) : forall (lb : list nat) i,
  List.length la = List.length lb -> In i la ->
  In (i, assoc (combine la lb) i) (combine la lb).
Proof.
  induction la as [|a la IH]; intros [|b lb] i Hlen Hi; simpl in *;
    try contradiction; try discriminate.
  destruct (Nat.eqb_spec a i) as [->|Hne]; [now left|].
  right. apply IH; [lia|]. destruct Hi as [Hi|Hi]; [contradiction|exact Hi].
Qed.

Lemma combine_functional_r (la : list nat) : forall (lb : list nat) i j x,
  NoDup lb -> In (i, x) (combine la lb) -> In (j, x) (combine la lb) -> i = j.
Proof.
  induction la as [|a la IH]; intros [|b lb] i j x Hnd Hi Hj; simpl in *;
    try contradiction.
  inversion Hnd as [|? ? Hnotin Hnd']; subst.
  destruct Hi as [Hi|Hi], Hj as [Hj|Hj].
  - congruence.
  - injection Hi as <- <-. exfalso. apply Hnotin.
    eapply in_combine_r; exact Hj.
  - injection Hj as <- <-. exfalso. apply Hnotin.
    eapply in_combine_r; exact Hi.
  - eapply IH; eassumption.
Qed.

Lemma assoc_inj_on (la lb : list nat) :
  List.length la = List.length lb -> NoDup lb ->
  inj_on (assoc (combine la lb)) la.
Proof.
  intros Hlen Hnd i j Hi Hj E.
  pose proof (assoc_combine_in la lb i Hlen Hi) as Pi.
  pose proof (assoc_combine_in la lb j Hlen Hj) as Pj.
  rewrite E in Pi. eapply combine_functional_r; eassumption.
Qed.

Lemma relabel_assoc (A : Frame) : forall B : Frame,
  map snd A = map snd B -> NoDup (map fst A) ->
  relabel (assoc (combine (map fst A) (map fst B))) A = B.
Proof.
  induction A as [|[a r] A IH]; intros [|[b r'] B] Hrows Hnd; simpl in *;
    try discriminate; [reflexivity|].
  inversion Hnd as [|? ? Hnotin Hnd']; subst.
  injection Hrows as <- Hrows.
  rewrite Nat.eqb_refl. f_equal.
  transitivity (relabel (assoc (combine (map fst A) (map fst B))) A);
    [|now apply IH].
  unfold relabel. apply map_ext_in. intros [i x] Hix; simpl.
  destruct (Nat.eqb_spec a i) as [->|Hne]; [|reflexivity].
  exfalso. apply Hnotin. apply (in_map fst) in Hix. exact Hix.
Qed.

Lemma same_rows_relabel (A B : Frame) :
  map snd A = map snd B -> NoDup (map fst A) -> NoDup (map fst B) ->
  exists g, inj_on g (map fst A) /\ B = relabel g A.
Proof.
  intros Hrows HA HB.
  exists (assoc (combine (map fst A) (map fst B))). split.
  - apply assoc_inj_on; [|exact HB].
    rewrite !length_map.
    rewrite <- (length_map snd A), <- (length_map snd B). now rewrite Hrows.
  - symmetry. now apply relabel_assoc.
Qed.

(** [unique] lists every value once. *)
Lemma unique_In x l : In x (unique l) <-> In x l.
Proof.
  induction l as [|y l IH]; simpl; [tauto|].
  rewrite filter_In, IH, negb_true_iff, Z.eqb_neq.
  destruct (Z.eq_dec y x); intuition congruence.
Qed.

Lemma unique_NoDup l : NoDup (unique l).
Proof.
  induction l as [|y l IH]; simpl; constructor.
  - rewrite filter_In, negb_true_iff, Z.eqb_neq. intuition.
  - now apply NoDup_filter.
Qed.

Lemma filter_rows_labelled c (S : Frame) :
  filter (of_customer c) (map snd S) = map snd (filter (customer_mask c) S).
Proof. now rewrite filter_map_swap. Qed.

Lemma filter_blank c rs :
  filter (of_customer c) (map (set_REDEEMID None) rs)
  = map (set_REDEEMID None) (filter (of_customer c) rs).
Proof. now rewrite filter_map_swap. Qed.

(** The rows of customer [c] in the output are what the customer's own pass
    makes of the customer's rows. *)
Lemma perform_customer_rows df c :
  filter (of_customer c) (rows (Fifo.perform_fifo_matching df))
  = map snd (Fifo.process_customer
               (filter (customer_mask c)
                  (enumerate (map (set_REDEEMID None) (rows df)))) c).
Proof.
  unfold Fifo.perform_fifo_matching; cbn [rows].
  rewrite filter_rows_labelled. f_equal.
  set (S := enumerate (map (set_REDEEMID None) (rows df))).
  set (custs := unique _).
  destruct (in_dec Z.eq_dec c custs) as [Hin|Hnotin].
  - apply Isolation.fold_process_own;
      [apply unique_NoDup | exact Hin | apply enumerate_NoDup].
  - rewrite Isolation.fold_process_other;
      [| exact Hnotin | apply enumerate_NoDup].
    assert (E : filter (customer_mask c) S = []).
    { destruct (filter (customer_mask c) S) as [|[i r] l] eqn:El; [reflexivity|].
      exfalso. apply Hnotin. unfold custs. apply unique_In.
      assert (Hir : In (i, r) (filter (customer_mask c) S))
        by (rewrite El; now left).
      apply filter_In in Hir as [Hir Hc]. unfold customer_mask in Hc.
      apply Z.eqb_eq in Hc. simpl in Hc. rewrite <- Hc.
      apply (in_map (fun ir : Labelled => CUSTOMERID (snd ir))) in Hir.
      exact Hir. }
    rewrite E. reflexivity.
Qed.

(** C3. If two batches hold the same rows for customer [c], whatever the
    rows of other customers are (changed, added or removed), the rows of [c]
    come out of [perform_fifo_matching] identical in both runs, REDEEMID
    included. *)
Theorem customer_isolation (df1 df2 : DataFrame) (c : Z) :
  filter (of_customer c) (rows df1) = filter (of_customer c) (rows df2) ->
  filter (of_customer c) (rows (Fifo.perform_fifo_matching df1))
  = filter (of_customer c) (rows (Fifo.perform_fifo_matching df2)).
Proof.
  intros H. rewrite !perform_customer_rows.
  set (A := filter (customer_mask c) (enumerate (map (set_REDEEMID None) (rows df1)))).
  set (B := filter (customer_mask c) (enumerate (map (set_REDEEMID None) (rows df2)))).
  assert (Hrows : map snd A = map snd B).
  { unfold A, B. rewrite <- !filter_rows_labelled, !enumerate_rows, !filter_blank.
    now rewrite H. }
  destruct (same_rows_relabel A B Hrows) as (g & Hg & ->);
    [apply NoDup_labels_filter, enumerate_NoDup
    | apply NoDup_labels_filter, enumerate_NoDup |].
  rewrite (relabel_process_customer g (map fst A) Hg);
    [now rewrite relabel_rows | apply incl_refl].
Qed.

Lemma customer_isolation_witness :
  filter (of_customer 100) (rows (Fifo.perform_fifo_matching multi_customer_data))
  = filter (of_customer 100) (rows (Fifo.perform_fifo_matching customer_100_only)).
Proof.
  apply (customer_isolation multi_customer_data customer_100_only 100).
  reflexivity.
Defined.

(** ** The validation report and the gate *)

Module ReportFacts.
Import DataQuality.

Lemma passed_iff (rs : list ValidationResult) :
  forallb passed (filter (fun r => String.eqb (severity r) "ERROR") rs) = true
  <-> forall r, In r rs -> severity r = "ERROR" -> passed r = true.
Proof.
  rewrite forallb_forall. split.
  - intros H r Hr Hs. apply H. apply filter_In. split; [exact Hr|].
    now apply String.eqb_eq.
  - intros H r Hr. apply filter_In in Hr as [Hr Hs].
    apply H; [exact Hr | now apply String.eqb_eq].
Qed.

Lemma passed_skip (w : ValidationResult) (pre post : list ValidationResult) :
  severity w <> "ERROR" ->
  forallb passed (filter (fun r => String.eqb (severity r) "ERROR") (pre ++ w :: post))
  = forallb passed (filter (fun r => String.eqb (severity r) "ERROR") (pre ++ post)).
Proof.
  intros Hw. rewrite !filter_app. simpl.
  apply String.eqb_neq in Hw. now rewrite Hw.
Qed.

End ReportFacts.

(** C5. A report's [passed] is true exactly when every result of severity
    ERROR has [passed = true]; a result of severity WARNING or INFO, passed
    or failed, can be taken out of the report without changing the verdict. *)
Theorem report_passed_spec (report : DataQuality.ValidationReport) :
  (DataQuality.ValidationReport_passed report = true
   <-> forall r, In r (DataQuality.results report) ->
                 DataQuality.severity r = "ERROR" -> DataQuality.passed r = true)
  /\ (forall w pre post,
        DataQuality.severity w = "WARNING" \/ DataQuality.severity w = "INFO" ->
        DataQuality.results report = pre ++ w :: post ->
        DataQuality.ValidationReport_passed report
        = DataQuality.ValidationReport_passed
            (DataQuality.mkReport (DataQuality.timestamp report)
               (DataQuality.stage report) (pre ++ post))).
Proof.
  split.
  - apply ReportFacts.passed_iff.
  - intros w pre post Hw E. unfold DataQuality.ValidationReport_passed.
    rewrite E. cbn [DataQuality.results]. apply ReportFacts.passed_skip.
    destruct Hw as [Hw|Hw]; rewrite Hw; discriminate.
Qed.

Lemma report_passed_spec_witness :
  DataQuality.ValidationReport_passed warning_report
  = DataQuality.ValidationReport_passed
      (DataQuality.mkReport ts_2023_02_01 "post_fifo"
         [DataQuality.mkResult "REDEEMID Column Exists" true "ERROR"]).
Proof.
  apply (proj2 (report_passed_spec warning_report)
           (DataQuality.mkResult "Customer Balance Reconciliation" false "WARNING")
           [DataQuality.mkResult "REDEEMID Column Exists" true "ERROR"] []).
  - left. reflexivity.
  - reflexivity.
Defined.

(** C6. The gate raises exactly when [fail_on_error] is true and the report
    has not passed; the exception then carries the message built from the
    report's stage and error count.  In every other case nothing is raised
    and the gate returns the report's [passed]. *)
Theorem validation_gate_contract (report : DataQuality.ValidationReport)
    (fail_on_error : bool) :
  ((exists msg, DataQuality.validation_gate report fail_on_error
                = DataQuality.Raises_ValueError msg)
   <-> fail_on_error = true /\ DataQuality.ValidationReport_passed report = false)
  /\ (fail_on_error = true ->
      DataQuality.ValidationReport_passed report = false ->
      DataQuality.validation_gate report fail_on_error
      = DataQuality.Raises_ValueError
          ("Validation failed at stage '" ++ DataQuality.stage report
           ++ "' with "
           ++ DataQuality.format_nat (DataQuality.ValidationReport_error_count report)
           ++ " errors")%string)
  /\ (~ (fail_on_error = true /\ DataQuality.ValidationReport_passed report = false) ->
      DataQuality.validation_gate report fail_on_error
      = DataQuality.Returns (DataQuality.ValidationReport_passed report)).
Proof.
  unfold DataQuality.validation_gate.
  destruct (DataQuality.ValidationReport_passed report), fail_on_error; simpl;
    repeat match goal with
           | |- _ /\ _ => split
           | |- _ <-> _ => split
           | |- _ -> _ => intro
           | H : exists _, _ |- _ => destruct H
           | H : _ /\ _ |- _ => destruct H
           end;
    first [ reflexivity
          | discriminate
          | eexists; reflexivity
          | match goal with
            | H : ~ _ |- _ => exfalso; apply H; split; reflexivity
            end ].
Qed.

Lemma validation_gate_contract_witness :
  DataQuality.validation_gate failing_report true
  = DataQuality.Raises_ValueError "Validation failed at stage 'source' with 1 errors".
Proof.
  apply (proj1 (proj2 (validation_gate_contract failing_report true)));
    reflexivity.
Defined.

(** ** The source validator *)

Module SourceFacts.
Import DataQuality.

Lemma forallb_of_type (t : string) (q : Row -> bool) (rs : list Row) :
  forallb q (filter (fun r => String.eqb (TCTYPE r) t) rs) = true
  <-> forall r, In r rs -> TCTYPE r = t -> q r = true.
Proof.
  rewrite forallb_forall. split.
  - intros H r Hr Ht. apply H. apply filter_In. split; [exact Hr|].
    now apply String.eqb_eq.
  - intros H r Hr. apply filter_In in Hr as [Hr Ht].
    apply H; [exact Hr | now apply String.eqb_eq].
Qed.

Lemma length_zero_iff_forall {A} (q : A -> bool) (l : list A) :
  Nat.eqb (List.length (filter q l)) 0 = true <-> forall x, In x l -> q x = false.
Proof.
  rewrite Nat.eqb_eq, length_zero_iff_nil. split.
  - intros E x Hx. destruct (q x) eqn:Q; [|reflexivity].
    assert (Hin : In x (filter q l)) by (apply filter_In; now split).
    rewrite E in Hin. contradiction.
  - intros H. induction l as [|a l IH]; simpl; [reflexivity|].
    rewrite (H a (or_introl eq_refl)). apply IH.
    intros x Hx. apply H. now right.
Qed.

End SourceFacts.

(** C7. The source report holds exactly one sign-consistency result, of
    severity ERROR, computed over the whole batch (the report has eleven
    results whatever the number of rows); it passes exactly when every earned
    amount is strictly positive, every spent amount strictly negative and
    every expired amount strictly negative. *)
Theorem sign_consistency_check (now : Timestamp) (df : DataFrame) :
  let report := DataQuality.validate_source_data now df in
  exists res,
    results_named "Amount Sign Consistency" report = [res]
    /\ DataQuality.severity res = "ERROR"
    /\ List.length (DataQuality.results report) = 11%nat
    /\ (DataQuality.passed res = true <->
        (forall r, In r (rows df) -> TCTYPE r = "earned" -> strictly_positive (AMOUNT r))
        /\ (forall r, In r (rows df) -> TCTYPE r = "spent" -> strictly_negative (AMOUNT r))
        /\ (forall r, In r (rows df) -> TCTYPE r = "expired" -> strictly_negative (AMOUNT r))).
Proof.
  intros report. exists (DataQuality.check_amount_signs df).
  split; [reflexivity|]. split; [reflexivity|]. split; [reflexivity|].
  unfold DataQuality.check_amount_signs; cbn [DataQuality.passed].
  rewrite !andb_true_iff, !SourceFacts.forallb_of_type.
  unfold strictly_positive, strictly_negative. tauto.
Qed.

(** C9. The valid-customer-id check misses a non-positive id when the
    CUSTOMERID column is stored as int32: on the one-row batch holding
    customer id -5 the report's result of that name does not fail, so "fails
    if and only if some customer id is non-positive" does not hold of the code
    there.  The dtype test of line 285 skips the comparison, against the
    comment above it ("Customer IDs should be positive integers") and against
    what the same line does for an int64 column. *)
Lemma customer_check_int32_passes :
  exists res,
    results_named "Valid Customer IDs"
      (DataQuality.validate_source_data ts_2023_02_01 int32_customer_batch) = [res]
    /\ ~ (DataQuality.passed res = false
          <-> exists r, In r (rows int32_customer_batch) /\ CUSTOMERID r <= 0).
Proof.
  eexists. split; [reflexivity|].
  intros [_ H].
  assert (E : DataQuality.passed (DataQuality.check_valid_customers int32_customer_batch)
              = false).
  { apply H. eexists. split; [left; reflexivity|]. simpl. lia. }
  discriminate E.
Qed.

(** The sibling path: the same row in an int64 column is rejected. *)
Example int64_batch_rejected :
  DataQuality.passed (DataQuality.check_valid_customers int64_customer_batch) = false.
Proof. reflexivity. Qed.

(** The reach of the check as the code has it: the source report holds
    exactly one valid-customer-id result, of severity ERROR, and it fails
    exactly when some row's customer id is non-positive and the CUSTOMERID
    column has dtype int64 or float64.  Non-positive ids in a column of any
    other dtype go unreported. *)
Theorem valid_customer_check (now : Timestamp) (df : DataFrame) :
  let report := DataQuality.validate_source_data now df in
  exists res,
    results_named "Valid Customer IDs" report = [res]
    /\ DataQuality.severity res = "ERROR"
    /\ (DataQuality.passed res = false <->
        (CUSTOMERID_dtype df = int64 \/ CUSTOMERID_dtype df = float64)
        /\ exists r, In r (rows df) /\ CUSTOMERID r <= 0).
Proof.
  intros report. exists (DataQuality.check_valid_customers df).
  split; [reflexivity|]. split; [reflexivity|].
  unfold DataQuality.check_valid_customers; cbn [DataQuality.passed].
  rewrite <- not_true_iff_false.
  assert (Hnum : Nat.eqb (List.length
                   (filter (fun r => CUSTOMERID r <=? 0) (rows df))) 0 <> true
                 <-> exists r, In r (rows df) /\ CUSTOMERID r <= 0).
  { rewrite SourceFacts.length_zero_iff_forall. split.
    - intros H.
      destruct (existsb (fun r => CUSTOMERID r <=? 0) (rows df)) eqn:E.
      + apply existsb_exists in E as (r & Hr & Hle). exists r.
        split; [exact Hr | now apply Z.leb_le].
      + exfalso. apply H. intros x Hx.
        destruct (CUSTOMERID x <=? 0) eqn:Q; [|reflexivity].
        assert (existsb (fun r => CUSTOMERID r <=? 0) (rows df) = true)
          by (apply existsb_exists; now exists x).
        congruence.
    - intros (r & Hr & Hle) H. specialize (H r Hr).
      apply Z.leb_le in Hle. congruence. }
  destruct (CUSTOMERID_dtype df); simpl.
  - rewrite Hnum. intuition.
  - rewrite Hnum. intuition.
  - split; [intros H; now contradiction H | intros [[H|H] _]; discriminate H].
  - split; [intros H; now contradiction H | intros [[H|H] _]; discriminate H].
Qed.

(** ** The result validator *)

(** C8. When the annotated batch has no REDEEMID column,
    [validate_fifo_results] returns a report with exactly one result, the
    column check, which has failed with severity ERROR; the report's [passed]
    is false. *)
Theorem missing_redeemid_column (Series_sum : list float -> float)
    (now : Timestamp) (original_df matched_df : DataFrame) :
  has_REDEEMID matched_df = false ->
  let report :=
    DataQuality.validate_fifo_results Series_sum now original_df matched_df in
  exists res,
    DataQuality.results report = [res]
    /\ DataQuality.check_name res = "REDEEMID Column Exists"
    /\ DataQuality.passed res = false
    /\ DataQuality.severity res = "ERROR"
    /\ DataQuality.ValidationReport_passed report = false.
Proof.
  intros H report. subst report. unfold DataQuality.validate_fifo_results.
  rewrite H. cbn [negb]. eexists. split; [reflexivity|].
  unfold DataQuality.ValidationReport_passed, DataQuality.check_redeemid_exists.
  simpl. rewrite H. repeat split.
Qed.

Lemma missing_redeemid_column_witness :
  exists res,
    DataQuality.results
      (DataQuality.validate_fifo_results sum_left ts_2023_02_01
         sample_tc_data sample_tc_data) = [res]
    /\ DataQuality.check_name res = "REDEEMID Column Exists"
    /\ DataQuality.passed res = false
    /\ DataQuality.severity res = "ERROR"
    /\ DataQuality.ValidationReport_passed
         (DataQuality.validate_fifo_results sum_left ts_2023_02_01
            sample_tc_data sample_tc_data) = false.
Proof.
  apply (missing_redeemid_column sum_left ts_2023_02_01 sample_tc_data sample_tc_data).
  reflexivity.
Defined.

(** ** The pool of available lots *)

(** Every [available_earned_indices.remove(idx)] the engine performs finds its
    entry, so the ValueError of [list.remove] is never raised: each removal
    shortens the pool by one. *)
Module PoolFacts.
Import Fifo.

Lemma list_remove_length idx (pool : Frame) :
  In idx (map fst pool) ->
  S (List.length (list_remove idx pool)) = List.length pool.
Proof.
  induction pool as [|[i r] pool IH]; simpl; intros H; [contradiction|].
  destruct (Nat.eqb_spec i idx) as [->|Hne]; [reflexivity|].
  simpl. f_equal. apply IH. destruct H as [H|H]; [contradiction|exact H].
Qed.

Lemma list_remove_keeps idx j (pool : Frame) :
  j <> idx -> In j (map fst pool) -> In j (map fst (list_remove idx pool)).
Proof.
  intros Hne. induction pool as [|[i r] pool IH]; simpl; intros H; [contradiction|].
  destruct (Nat.eqb_spec i idx) as [->|Hi].
  - destruct H as [H|H]; [congruence|exact H].
  - simpl. destruct H as [H|H]; [now left | right; now apply IH].
Qed.

Lemma fold_list_remove_length tr : forall pool : Frame,
  NoDup tr -> incl tr (map fst pool) ->
  (List.length (fold_left (fun p idx => list_remove idx p) tr pool)
   + List.length tr = List.length pool)%nat.
Proof.
  induction tr as [|idx tr IH]; intros pool Hnd Hincl; simpl; [lia|].
  inversion Hnd as [|? ? Hnotin Hnd']; subst.
  rewrite Nat.add_succ_r, IH, list_remove_length; auto.
  - apply Hincl. now left.
  - intros j Hj. apply list_remove_keeps.
    + intros ->. contradiction.
    + apply Hincl. now right.
Qed.

Lemma scan_indices_NoDup rid rdate (pool : Frame) : forall (S : Frame) rem tr,
  NoDup (tr ++ map fst pool) ->
  NoDup (snd (scan_available rid rdate pool S rem tr)).
Proof.
  induction pool as [|[i er] pool IH]; intros S rem tr H; simpl in *.
  - now rewrite app_nil_r in H.
  - destruct (rem <=? 0)%float; [eapply NoDup_app_remove_r; exact H|].
    destruct (CREATEDAT er >? rdate).
    + apply IH. eapply NoDup_remove_1; exact H.
    + apply IH. now rewrite <- app_assoc.
Qed.

Lemma match_redemption_removals (S pool : Frame) red :
  NoDup (map fst pool) ->
  (List.length (snd (match_redemption (S, pool) red))
   + List.length (snd (scan_available (TRANS_ID (snd red)) (CREATEDAT (snd red))
                         pool S (abs (AMOUNT (snd red))) []))
   = List.length pool)%nat.
Proof.
  intros Hnd. unfold match_redemption.
  pose proof (scan_indices_NoDup (TRANS_ID (snd red)) (CREATEDAT (snd red)) pool S
                (abs (AMOUNT (snd red))) [] Hnd) as H1.
  pose proof (scan_indices (TRANS_ID (snd red)) (CREATEDAT (snd red)) pool S
                (abs (AMOUNT (snd red))) []) as H2.
  destruct (scan_available _ _ _ _ _ _) as [[S' rem'] tr']; cbn [fst snd] in *.
  now apply fold_list_remove_length.
Qed.

Lemma insert_labels x (l : Frame) :
  Permutation (map fst (insert_by_CREATEDAT x l)) (fst x :: map fst l).
Proof.
  induction l as [|y l IH]; simpl; [reflexivity|].
  destruct (CREATEDAT (snd x) <=? CREATEDAT (snd y)); simpl; [reflexivity|].
  rewrite IH. apply perm_swap.
Qed.

Lemma sort_values_labels (l : Frame) :
  Permutation (map fst (sort_values l)) (map fst l).
Proof.
  induction l as [|x l IH]; simpl; [reflexivity|].
  rewrite insert_labels. now apply perm_skip.
Qed.

(** The pool starts with distinct labels and keeps them distinct. *)
Lemma initial_pool_NoDup (p q : Labelled -> bool) (S : Frame) :
  NoDup (map fst S) -> NoDup (map fst (sort_values (filter p (filter q S)))).
Proof.
  intros H. eapply Permutation_NoDup.
  - symmetry. apply sort_values_labels.
  - now apply NoDup_labels_filter, NoDup_labels_filter.
Qed.

Lemma list_remove_NoDup idx (pool : Frame) :
  NoDup (map fst pool) -> NoDup (map fst (list_remove idx pool)).
Proof.
  induction pool as [|[i r] pool IH]; simpl; intros H; [constructor|].
  inversion H as [|? ? Hnotin Hnd]; subst.
  destruct (Nat.eqb i idx); [exact Hnd|].
  simpl. constructor; [|now apply IH].
  intros Hin. apply Hnotin. eapply list_remove_labels; exact Hin.
Qed.

Lemma match_redemption_pool_NoDup (S pool : Frame) red :
  NoDup (map fst pool) -> NoDup (map fst (snd (match_redemption (S, pool) red))).
Proof.
  intros H. unfold match_redemption.
  destruct (scan_available _ _ _ _ _ _) as [[S' rem'] tr']; cbn [snd].
  revert pool H. induction tr' as [|idx tr IH]; intros pool H; simpl; [exact H|].
  apply IH, list_remove_NoDup, H.
Qed.

End PoolFacts.

(** * Further properties of the code *)

(** ** Reports and the gate *)

Module CountFacts.
Import DataQuality.

Lemma passed_error_count (rs : list ValidationResult) :
  forallb passed (filter (fun r => String.eqb (severity r) "ERROR") rs) = true
  <-> List.length
        (filter (fun r => negb (passed r) && String.eqb (severity r) "ERROR")%bool rs)
      = 0%nat.
Proof.
  induction rs as [|r rs IH]; simpl; [tauto|].
  destruct (String.eqb (severity r) "ERROR"); simpl.
  - destruct (passed r); simpl; [exact IH|].
    split; intros H; discriminate H.
  - rewrite andb_false_r. exact IH.
Qed.

End CountFacts.

(** X1. A report has passed exactly when its error count is zero; hence the
    message of a raised gate never announces zero errors. *)
Theorem passed_iff_no_errors (report : DataQuality.ValidationReport) :
  (DataQuality.ValidationReport_passed report = true
   <-> DataQuality.ValidationReport_error_count report = 0%nat)
  /\ (forall fail_on_error msg,
        DataQuality.validation_gate report fail_on_error
        = DataQuality.Raises_ValueError msg ->
        (1 <= DataQuality.ValidationReport_error_count report)%nat).
Proof.
  assert (H : DataQuality.ValidationReport_passed report = true
              <-> DataQuality.ValidationReport_error_count report = 0%nat)
    by apply CountFacts.passed_error_count.
  split; [exact H|].
  intros f msg E. unfold DataQuality.validation_gate in E.
  destruct (DataQuality.ValidationReport_passed report) eqn:P; simpl in E;
    [discriminate E|].
  destruct (DataQuality.ValidationReport_error_count report); [|lia].
  destruct H as [_ H]. specialize (H eq_refl). congruence.
Qed.

Lemma passed_iff_no_errors_witness :
  (1 <= DataQuality.ValidationReport_error_count failing_report)%nat.
Proof.
  apply (proj2 (passed_iff_no_errors failing_report) true
           "Validation failed at stage 'source' with 1 errors").
  reflexivity.
Defined.

(** X2. A validation task of the DAG that returns at all returns
    'validation_passed' = True and 'error_count' = 0: a failed report leaves
    the task through the gate's exception, never through the dict. *)
Theorem task_returns_only_success (report : DataQuality.ValidationReport)
    (p : bool) (e w : nat) :
  Pipeline.gate_and_return report = Pipeline.TaskReturns p e w ->
  p = true /\ e = 0%nat
  /\ w = DataQuality.ValidationReport_warning_count report.
Proof.
  unfold Pipeline.gate_and_return, DataQuality.validation_gate.
  destruct (DataQuality.ValidationReport_passed report) eqn:P; simpl;
    [|discriminate].
  intros E. injection E as <- <- <-.
  repeat split. now apply CountFacts.passed_error_count.
Qed.

Lemma task_returns_only_success_witness :
  true = true /\ 0%nat = 0%nat
  /\ 1%nat = DataQuality.ValidationReport_warning_count warning_report.
Proof.
  apply (task_returns_only_success warning_report true 0 1). reflexivity.
Defined.

(** ** The checks of the source validator *)

From Corelib Require SpecFloat FloatOps FloatAxioms.

(** Facts of binary64 arithmetic, from the specification of the primitive
    operations. *)
Module FloatFacts.

Lemma SFeqb_refl x : x <> SpecFloat.S754_nan -> SpecFloat.SFeqb x x = true.
Proof.
  intros H. unfold SpecFloat.SFeqb, SpecFloat.SFcompare.
  destruct x as [s| s| |s m e]; try (destruct s; reflexivity); try congruence.
  destruct s; rewrite Z.compare_refl; unfold Pos.compare;
    rewrite ?Pos.compare_cont_refl; reflexivity.
Qed.

(** A float that compares strictly with zero is not NaN. *)
Lemma signed_not_nan a :
  (0 <? a)%float = true \/ (a <? 0)%float = true -> is_nan a = false.
Proof.
  unfold is_nan. rewrite !FloatAxioms.ltb_spec, FloatAxioms.eqb_spec.
  intros H. rewrite SFeqb_refl; [reflexivity|].
  intros E. rewrite E in H.
  destruct H as [H|H]; unfold SpecFloat.SFltb, SpecFloat.SFcompare in H;
    destruct (FloatOps.Prim2SF 0) as [[|]| [|]| |[|] ? ?]; discriminate H.
Qed.

End FloatFacts.

Module CheckFacts.
Import DataQuality.

Lemma duplicated_nil (l : list Z) : forall seen,
  duplicated seen l = [] <-> NoDup l /\ (forall x, In x l -> ~ In x seen).
Proof.
  induction l as [|x l IH]; intros seen; simpl.
  - split; [intros _; split; [constructor | intros x []] | reflexivity].
  - destruct (existsb (Z.eqb x) seen) eqn:E.
    + split; [discriminate|]. intros [_ H]. exfalso.
      apply existsb_exists in E as (y & Hy & Exy). apply Z.eqb_eq in Exy. subst y.
      apply (H x); [now left | exact Hy].
    + assert (Hx : ~ In x seen).
      { intros Hin. assert (existsb (Z.eqb x) seen = true)
          by (apply existsb_exists; exists x; split; [exact Hin | apply Z.eqb_refl]).
        congruence. }
      rewrite IH. split.
      * intros [Hnd H]. split.
        -- constructor; [|exact Hnd]. intros Hin. apply (H x Hin). now left.
        -- intros y [<-|Hy]; [exact Hx|]. intros Hs. apply (H y Hy). now right.
      * intros [Hnd H]. inversion Hnd as [|? ? Hnotin Hnd']; subst. split; [exact Hnd'|].
        intros y Hy [<-|Hs]; [contradiction|]. apply (H y); [now right | exact Hs].
Qed.

Lemma no_duplicates_iff df :
  passed (check_no_duplicates df) = true <-> NoDup (map TRANS_ID (rows df)).
Proof.
  unfold check_no_duplicates; cbn [passed].
  rewrite Nat.eqb_eq, length_zero_iff_nil, duplicated_nil.
  split; [tauto | intros H; split; [exact H | intros x _ []]].
Qed.

Lemma isin_In s l : isin s l = true <-> In s l.
Proof.
  unfold isin. rewrite existsb_exists. split.
  - intros (y & Hy & E). apply String.eqb_eq in E. now subst.
  - intros H. exists s. split; [exact H | apply String.eqb_refl].
Qed.

Lemma valid_types_iff df :
  passed (check_valid_types df) = true
  <-> forall r, In r (rows df) -> In (TCTYPE r) valid_types.
Proof.
  unfold check_valid_types; cbn [passed].
  rewrite SourceFacts.length_zero_iff_forall. split.
  - intros H r Hr. apply isin_In.
    specialize (H (TCTYPE r)). rewrite negb_false_iff in H. apply H.
    apply nodup_In. now apply in_map.
  - intros H t Ht. apply nodup_In in Ht. apply in_map_iff in Ht as (r & <- & Hr).
    apply negb_false_iff, isin_In, H, Hr.
Qed.

Lemma in_dropna {A : Type} (s : Series A) (v : A) :
  In v (dropna s) <-> In (Some v) s.
Proof.
  induction s as [|[w|] s IH]; simpl.
  - tauto.
  - rewrite IH. split.
    + intros [->|H]; [now left | now right].
    + intros [E|H]; [left; congruence | now right].
  - rewrite IH. split; [now right | intros [E|H]; [discriminate | exact H]].
Qed.

Lemma dropna_filled {A B : Type} (f : A -> B) (l : list A) :
  dropna (map (fun x => Some (f x)) l) = map f l.
Proof. induction l as [|x l IH]; simpl; [reflexivity | now rewrite IH]. Qed.

Lemma valid_types_on_iff (col : Series string) :
  passed (check_valid_types_on col) = true
  <-> forall t, In (Some t) col -> In t valid_types.
Proof.
  unfold check_valid_types_on; cbn [passed].
  rewrite SourceFacts.length_zero_iff_forall. split.
  - intros H t Ht. apply isin_In.
    specialize (H t). rewrite negb_false_iff in H. apply H.
    apply nodup_In. now apply in_dropna.
  - intros H t Ht. apply nodup_In, in_dropna in Ht.
    apply negb_false_iff, isin_In, H, Ht.
Qed.

Lemma check_valid_types_column (df : DataFrame) :
  check_valid_types df = check_valid_types_on (TCTYPE_column df).
Proof.
  unfold check_valid_types, check_valid_types_on, TCTYPE_column.
  now rewrite dropna_filled.
Qed.

Lemma no_nulls_amount_iff df :
  passed (check_no_nulls df "AMOUNT") = true
  <-> forall r, In r (rows df) -> is_nan (AMOUNT r) = false.
Proof.
  unfold check_no_nulls; cbn [passed].
  now rewrite SourceFacts.length_zero_iff_forall.
Qed.

Lemma valid_customers_iff df :
  passed (check_valid_customers df) = true
  <-> (CUSTOMERID_dtype df = int64 \/ CUSTOMERID_dtype df = float64 ->
       forall r, In r (rows df) -> 0 < CUSTOMERID r).
Proof.
  unfold check_valid_customers; cbn [passed].
  assert (H : Nat.eqb (List.length (filter (fun r => CUSTOMERID r <=? 0) (rows df))) 0
              = true <-> forall r, In r (rows df) -> 0 < CUSTOMERID r).
  { rewrite SourceFacts.length_zero_iff_forall.
    split; intros H r Hr; specialize (H r Hr);
      [apply Z.leb_gt in H | apply Z.leb_gt]; exact H. }
  destruct (CUSTOMERID_dtype df); simpl.
  - rewrite H. intuition.
  - rewrite H. intuition.
  - split; [intros _ [E|E]; discriminate E | reflexivity].
  - split; [intros _ [E|E]; discriminate E | reflexivity].
Qed.

Lemma amount_signs_iff df :
  passed (check_amount_signs df) = true
  <-> (forall r, In r (rows df) -> TCTYPE r = "earned" -> strictly_positive (AMOUNT r))
      /\ (forall r, In r (rows df) -> TCTYPE r = "spent" -> strictly_negative (AMOUNT r))
      /\ (forall r, In r (rows df) -> TCTYPE r = "expired" -> strictly_negative (AMOUNT r)).
Proof.
  unfold check_amount_signs; cbn [passed].
  rewrite !andb_true_iff, !SourceFacts.forallb_of_type.
  unfold strictly_positive, strictly_negative. tauto.
Qed.

(** The verdict of the source report is the conjunction of its ERROR checks;
    the four null checks on typed columns always pass. *)
Lemma source_passed_checks now df :
  ValidationReport_passed (validate_source_data now df) = true
  <-> passed (check_no_nulls df "AMOUNT") = true
      /\ passed (check_valid_types df) = true
      /\ passed (check_amount_signs df) = true
      /\ passed (check_no_duplicates df) = true
      /\ passed (check_valid_customers df) = true.
Proof.
  assert (Hn : forall f, String.eqb f "AMOUNT" = false ->
                 Nat.eqb (List.length (filter (isna f) (rows df))) 0 = true).
  { intros f Hf. apply SourceFacts.length_zero_iff_forall.
    intros r _. unfold isna. now rewrite Hf. }
  unfold ValidationReport_passed, validate_source_data.
  cbn [results map app required_fields].
  unfold check_no_nulls, check_valid_types, check_amount_signs,
    check_no_duplicates, check_no_future_dates, check_valid_customers,
    check_summary.
  cbn [filter severity String.eqb Ascii.eqb Bool.eqb forallb passed andb].
  rewrite (Hn "TRANS_ID" eq_refl), (Hn "TCTYPE" eq_refl),
    (Hn "CREATEDAT" eq_refl), (Hn "CUSTOMERID" eq_refl).
  cbn [andb]. rewrite !andb_true_iff. tauto.
Qed.

End CheckFacts.

(** X3. The uniqueness check of the source validator passes exactly when no
    TRANS_ID occurs twice in the batch. *)
Theorem uniqueness_check (now : Timestamp) (df : DataFrame) :
  exists res,
    results_named "No Duplicate Transaction IDs"
      (DataQuality.validate_source_data now df) = [res]
    /\ DataQuality.severity res = "ERROR"
    /\ (DataQuality.passed res = true <-> NoDup (map TRANS_ID (rows df))).
Proof.
  exists (DataQuality.check_no_duplicates df).
  split; [reflexivity|]. split; [reflexivity|].
  apply CheckFacts.no_duplicates_iff.
Qed.

(** X4. The transaction-type check of the source validator looks at the
    filled-in cells of the TCTYPE column only: on a column that may hold
    blank cells its result, of severity ERROR, passes exactly when every
    filled-in cell is 'earned', 'spent' or 'expired', so a blank cell never
    fails it.  The source report of a batch holds exactly one result of that
    name, the check applied to the batch's TCTYPE column; in a batch of typed
    rows no cell is blank, and there it passes exactly when every row's TCTYPE
    is one of the three. *)
Theorem valid_types_check :
  (forall col : Series string,
      DataQuality.severity (check_valid_types_on col) = "ERROR"
      /\ (DataQuality.passed (check_valid_types_on col) = true <->
          forall t, In (Some t) col ->
            t = "earned" \/ t = "spent" \/ t = "expired"))
  /\ (forall (now : Timestamp) (df : DataFrame),
        exists res,
          results_named "Valid Transaction Types"
            (DataQuality.validate_source_data now df) = [res]
          /\ res = check_valid_types_on (TCTYPE_column df)
          /\ (DataQuality.passed res = true <->
              forall r, In r (rows df) ->
                TCTYPE r = "earned" \/ TCTYPE r = "spent" \/ TCTYPE r = "expired")).
Proof.
  split.
  - intros col. split; [reflexivity|].
    rewrite CheckFacts.valid_types_on_iff.
    unfold DataQuality.valid_types; simpl.
    split; intros H t Ht; specialize (H t Ht); intuition.
  - intros now df. exists (DataQuality.check_valid_types df).
    split; [reflexivity|]. split; [apply CheckFacts.check_valid_types_column|].
    rewrite CheckFacts.valid_types_iff. unfold DataQuality.valid_types; simpl.
    split; intros H r Hr; specialize (H r Hr); intuition.
Qed.

(** A blank cell beside valid types passes the check; an unknown type fails
    it, blank cell or not. *)
Example blank_type_passes :
  DataQuality.passed (check_valid_types_on blank_type_column) = true
  /\ DataQuality.passed (check_valid_types_on unknown_type_column) = false.
Proof. split; reflexivity. Qed.

(** X5. The source report passes exactly when every TCTYPE is valid, the
    amounts have the sign of their type, no TRANS_ID is repeated and, for a
    CUSTOMERID column of dtype int64 or float64, every customer id is
    positive.  The clock reading plays no part, and a NaN amount is caught by
    the type and sign checks together. *)
Theorem source_verdict (now : Timestamp) (df : DataFrame) :
  DataQuality.ValidationReport_passed (DataQuality.validate_source_data now df) = true
  <-> (forall r, In r (rows df) ->
         (TCTYPE r = "earned" /\ strictly_positive (AMOUNT r))
         \/ (TCTYPE r = "spent" /\ strictly_negative (AMOUNT r))
         \/ (TCTYPE r = "expired" /\ strictly_negative (AMOUNT r)))
      /\ NoDup (map TRANS_ID (rows df))
      /\ (CUSTOMERID_dtype df = int64 \/ CUSTOMERID_dtype df = float64 ->
          forall r, In r (rows df) -> 0 < CUSTOMERID r).
Proof.
  rewrite CheckFacts.source_passed_checks, CheckFacts.no_nulls_amount_iff,
    CheckFacts.valid_types_iff, CheckFacts.amount_signs_iff,
    CheckFacts.no_duplicates_iff, CheckFacts.valid_customers_iff.
  unfold DataQuality.valid_types, strictly_positive, strictly_negative; simpl.
  split.
  - intros (Hnan & Hty & (He & Hs & Hx) & Hnd & Hc).
    repeat split; try assumption.
    intros r Hr. destruct (Hty r Hr) as [E|[E|[E|[]]]]; symmetry in E.
    + left. split; [exact E | now apply He].
    + right; left. split; [exact E | now apply Hs].
    + right; right. split; [exact E | now apply Hx].
  - intros (H & Hnd & Hc).
    repeat split; try assumption.
    + intros r Hr. apply FloatFacts.signed_not_nan.
      destruct (H r Hr) as [[_ Ha]|[[_ Ha]|[_ Ha]]]; tauto.
    + intros r Hr. destruct (H r Hr) as [[E _]|[[E _]|[E _]]]; rewrite E; tauto.
    + intros r Hr E. destruct (H r Hr) as [[E' Ha]|[[E' Ha]|[E' Ha]]];
        [exact Ha | congruence | congruence].
    + intros r Hr E. destruct (H r Hr) as [[E' Ha]|[[E' Ha]|[E' Ha]]];
        [congruence | exact Ha | congruence].
    + intros r Hr E. destruct (H r Hr) as [[E' Ha]|[[E' Ha]|[E' Ha]]];
        [congruence | congruence | exact Ha].
Qed.

(** ** The checks of the result validator *)

Module ResultFacts.
Import DataQuality.

Lemma is_redemption_iff r :
  is_redemption r = true <-> TCTYPE r = "spent" \/ TCTYPE r = "expired".
Proof. apply isin_spent_expired. Qed.

Lemma redeemid_valid_iff m :
  passed (check_redeemid_valid m) = true
  <-> forall r v, In r (rows m) -> REDEEMID r = Some v ->
        exists r', In r' (rows m) /\ is_redemption r' = true /\ TRANS_ID r' = v.
Proof.
  unfold check_redeemid_valid; cbn [passed].
  rewrite SourceFacts.length_zero_iff_forall.
  assert (Hflat : forall v,
    In v (flat_map (fun r => match REDEEMID r with Some v => [v] | None => [] end)
            (rows m))
    <-> exists r, In r (rows m) /\ REDEEMID r = Some v).
  { intros v. rewrite in_flat_map. split; intros (r & Hr & H); exists r;
      (split; [exact Hr|]).
    - destruct (REDEEMID r); [destruct H as [->|[]]; reflexivity | destruct H].
    - rewrite H. now left. }
  assert (Hvalid : forall v,
    existsb (Z.eqb v) (map TRANS_ID (filter is_redemption (rows m))) = true
    <-> exists r', In r' (rows m) /\ is_redemption r' = true /\ TRANS_ID r' = v).
  { intros v. rewrite existsb_exists. split.
    - intros (x & Hx & E). apply Z.eqb_eq in E. subst x.
      apply in_map_iff in Hx as (r' & Hid & Hr'). apply filter_In in Hr' as [Hr' Hk].
      now exists r'.
    - intros (r' & Hr' & Hk & Hid). exists v. split; [|apply Z.eqb_refl].
      apply in_map_iff. exists r'. split; [exact Hid|]. now apply filter_In. }
  split.
  - intros H r v Hr Hv. apply Hvalid. apply negb_false_iff, H, nodup_In, Hflat.
    now exists r.
  - intros H v Hv. apply nodup_In, Hflat in Hv as (r & Hr & Hrv).
    apply negb_false_iff, Hvalid. now apply (H r).
Qed.

Lemma only_earned_iff m :
  passed (check_only_earned m) = true
  <-> forall r, In r (rows m) -> REDEEMID r <> None -> TCTYPE r = "earned".
Proof.
  unfold check_only_earned; cbn [passed].
  rewrite SourceFacts.length_zero_iff_forall. split.
  - intros H r Hr Hn. specialize (H r Hr).
    destruct (String.eqb_spec (TCTYPE r) "earned") as [E|E]; [exact E|].
    destruct (REDEEMID r); [discriminate H | now contradiction Hn].
  - intros H r Hr. destruct (REDEEMID r) eqn:E; simpl; [|apply andb_false_r].
    rewrite (H r Hr); [reflexivity | congruence].
Qed.

Lemma chronological_iff m :
  passed (check_chronological m) = true
  <-> forall r rid r' l, In r (rows m) -> TCTYPE r = "earned" ->
        REDEEMID r = Some rid ->
        filter (fun x => TRANS_ID x =? rid) (rows m) = r' :: l ->
        CREATEDAT r <= CREATEDAT r'.
Proof.
  unfold check_chronological; cbn [passed].
  rewrite SourceFacts.length_zero_iff_forall. split.
  - intros H r rid r' l Hr Hty Hrid Hf.
    assert (Hin : In r (filter (fun r => String.eqb (TCTYPE r) "earned"
                                          && notna (REDEEMID r))%bool (rows m))).
    { apply filter_In. split; [exact Hr|]. rewrite Hty, Hrid. reflexivity. }
    specialize (H r Hin). unfold chronological_error in H.
    rewrite Hrid, Hf in H. rewrite Z.gtb_ltb in H. apply Z.ltb_ge in H. exact H.
  - intros H r Hr. apply filter_In in Hr as [Hr Hm].
    apply andb_true_iff in Hm as [Hty Hn]. apply String.eqb_eq in Hty.
    unfold chronological_error. destruct (REDEEMID r) as [rid|] eqn:Hrid;
      [|reflexivity].
    destruct (filter _ (rows m)) as [|r' l] eqn:Hf; [reflexivity|].
    rewrite Z.gtb_ltb. apply Z.ltb_ge. now apply (H r rid r' l).
Qed.

(** With the REDEEMID column present the verdict is the conjunction of the
    three ERROR checks on the annotated frame. *)
Lemma fifo_passed_checks Series_sum now original m :
  ValidationReport_passed (validate_fifo_results Series_sum now original m) = true
  <-> has_REDEEMID m = true
      /\ passed (check_redeemid_valid m) = true
      /\ passed (check_only_earned m) = true
      /\ passed (check_chronological m) = true.
Proof.
  unfold ValidationReport_passed, validate_fifo_results.
  destruct (has_REDEEMID m) eqn:Hh; cbn [negb results app].
  - unfold check_redeemid_exists, check_redeemid_valid, check_only_earned,
      check_chronological, check_balance, check_statistics.
    cbn [filter severity String.eqb Ascii.eqb Bool.eqb forallb passed andb].
    rewrite Hh. cbn [andb]. rewrite !andb_true_iff. tauto.
  - unfold check_redeemid_exists.
    cbn [filter severity String.eqb Ascii.eqb Bool.eqb forallb passed andb].
    rewrite Hh. cbn [andb]. split; [discriminate | intros [E _]; discriminate E].
Qed.

End ResultFacts.

(** X6. The result report passes exactly when the annotated frame has the
    REDEEMID column, every non-null REDEEMID is the TRANS_ID of a spent or
    expired row, only earned rows carry one, and for every annotated earned
    row the first row with the referenced TRANS_ID was not created strictly
    before it.  The summation behind the balance check, the original frame
    and the clock play no part. *)
Theorem result_verdict (Series_sum : list float -> float) (now : Timestamp)
    (original_df matched_df : DataFrame) :
  DataQuality.ValidationReport_passed
    (DataQuality.validate_fifo_results Series_sum now original_df matched_df) = true
  <-> has_REDEEMID matched_df = true
      /\ (forall r v, In r (rows matched_df) -> REDEEMID r = Some v ->
            exists r', In r' (rows matched_df)
                       /\ (TCTYPE r' = "spent" \/ TCTYPE r' = "expired")
                       /\ TRANS_ID r' = v)
      /\ (forall r, In r (rows matched_df) -> REDEEMID r <> None ->
            TCTYPE r = "earned")
      /\ (forall r rid r' l, In r (rows matched_df) -> TCTYPE r = "earned" ->
            REDEEMID r = Some rid ->
            filter (fun x => TRANS_ID x =? rid) (rows matched_df) = r' :: l ->
            CREATEDAT r <= CREATEDAT r').
Proof.
  rewrite ResultFacts.fifo_passed_checks, ResultFacts.redeemid_valid_iff,
    ResultFacts.only_earned_iff, ResultFacts.chronological_iff.
  split; intros (H1 & H2 & H3 & H4); repeat split; try assumption.
  - intros r v Hr Hv. destruct (H2 r v Hr Hv) as (r' & Hr' & Hk & Hid).
    exists r'. repeat split; try assumption. now apply ResultFacts.is_redemption_iff.
  - intros r v Hr Hv. destruct (H2 r v Hr Hv) as (r' & Hr' & Hk & Hid).
    exists r'. repeat split; try assumption. now apply ResultFacts.is_redemption_iff.
Qed.

(** ** The engine's output under the result validator *)

Module OutputFacts.
Import Fifo.

Lemma output_ids df :
  map TRANS_ID (rows (perform_fifo_matching df)) = map TRANS_ID (rows df).
Proof.
  transitivity (map TRANS_ID (map (set_REDEEMID None) (rows (perform_fifo_matching df)))).
  - now rewrite map_map.
  - rewrite FifoFacts.perform_blank. now rewrite map_map.
Qed.

(** Every annotation of the output is justified within the output. *)
Lemma annotation_justified df e :
  In e (rows (perform_fifo_matching df)) ->
  justified (rows (perform_fifo_matching df)) e.
Proof.
  intros He rid Hrid.
  destruct (Guard.final_inv df) as [(Hnd & HU & Hj) Hrows].
  rewrite Hrows in He. apply in_map_iff in He as ([i e'] & <- & Hie).
  rewrite Forall_forall in Hj.
  destruct (Hj _ Hie rid Hrid) as (Hty & r & HrU & Hid & Hkind & Hcust & Hle).
  split; [exact Hty|].
  rewrite <- (FifoFacts.perform_blank df) in HrU.
  apply in_map_iff in HrU as (r' & <- & Hr').
  exists r'. simpl in *. repeat split; assumption.
Qed.

Lemma output_passes Series_sum now original df :
  NoDup (map TRANS_ID (rows df)) ->
  DataQuality.ValidationReport_passed
    (DataQuality.validate_fifo_results Series_sum now original
       (perform_fifo_matching df)) = true.
Proof.
  intros Hids.
  set (out := perform_fifo_matching df).
  assert (Hout : NoDup (map TRANS_ID (rows out)))
    by (unfold out; now rewrite output_ids).
  apply ResultFacts.fifo_passed_checks. split; [reflexivity|].
  rewrite ResultFacts.redeemid_valid_iff, ResultFacts.only_earned_iff,
    ResultFacts.chronological_iff.
  split; [|split].
  - intros r v Hr Hv.
    destruct (annotation_justified df r Hr v Hv) as (_ & r' & Hr' & Hid & Hk & _).
    exists r'. repeat split; try assumption.
    now apply ResultFacts.is_redemption_iff.
  - intros r Hr Hn. destruct (REDEEMID r) as [v|] eqn:Hv; [|now contradiction Hn].
    exact (proj1 (annotation_justified df r Hr v Hv)).
  - intros r rid r' l Hr _ Hrid Hf.
    destruct (annotation_justified df r Hr rid Hrid)
      as (_ & r0 & Hr0 & Hid & _ & _ & Hle).
    assert (Hr' : In r' (filter (fun x => TRANS_ID x =? rid) (rows out)))
      by (rewrite Hf; now left).
    apply filter_In in Hr' as [Hr' Hid']. apply Z.eqb_eq in Hid'.
    rewrite (NoDup_map_injective_on TRANS_ID (rows out) r' r0 Hout Hr' Hr0);
      [exact Hle | congruence].
Qed.

End OutputFacts.

(** X7. When the batch's TRANS_IDs are pairwise distinct, the output of
    [perform_fifo_matching] passes the result validator, so the gate returns
    True on it without raising. *)
Theorem engine_output_validates (Series_sum : list float -> float)
    (now : Timestamp) (original_df df : DataFrame) :
  NoDup (map TRANS_ID (rows df)) ->
  let report :=
    DataQuality.validate_fifo_results Series_sum now original_df
      (Fifo.perform_fifo_matching df) in
  DataQuality.ValidationReport_passed report = true
  /\ DataQuality.validation_gate report true = DataQuality.Returns true.
Proof.
  intros Hids report.
  assert (H : DataQuality.ValidationReport_passed report = true)
    by now apply OutputFacts.output_passes.
  split; [exact H|].
  unfold DataQuality.validation_gate. now rewrite H.
Qed.

Lemma engine_output_validates_witness :
  DataQuality.ValidationReport_passed
    (DataQuality.validate_fifo_results sum_left ts_2023_02_01 sample_tc_data
       (Fifo.perform_fifo_matching sample_tc_data)) = true
  /\ DataQuality.validation_gate
       (DataQuality.validate_fifo_results sum_left ts_2023_02_01 sample_tc_data
          (Fifo.perform_fifo_matching sample_tc_data)) true
     = DataQuality.Returns true.
Proof.
  apply (engine_output_validates sum_left ts_2023_02_01 sample_tc_data sample_tc_data).
  simpl. repeat constructor; simpl; intuition discriminate.
Defined.

(** The distinctness of the TRANS_IDs is needed: on [duplicate_id_batch] the
    engine's own output fails the chronological check. *)
Example duplicate_ids_fail_validation :
  DataQuality.ValidationReport_passed
    (DataQuality.validate_fifo_results sum_left ts_2023_02_01 duplicate_id_batch
       (Fifo.perform_fifo_matching duplicate_id_batch)) = false
  /\ DataQuality.passed
       (DataQuality.check_chronological
          (Fifo.perform_fifo_matching duplicate_id_batch)) = false.
Proof. split; vm_compute; reflexivity. Qed.

(** X8. In [run_all_validations] applied to a batch and the engine's output
    on it, a source report that passes is followed by a result report that
    passes: a batch admitted by the first gate is never stopped by the
    second. *)
Theorem validated_batch_validates (Series_sum : list float -> float)
    (now : Timestamp) (source_df : DataFrame) :
  let reports :=
    Pipeline.run_all_validations Series_sum now source_df
      (Fifo.perform_fifo_matching source_df) in
  DataQuality.ValidationReport_passed (fst reports) = true ->
  DataQuality.ValidationReport_passed (snd reports) = true
  /\ DataQuality.validation_gate (snd reports) true = DataQuality.Returns true.
Proof.
  intros reports Hsrc. subst reports. cbn [Pipeline.run_all_validations fst snd] in *.
  apply CheckFacts.source_passed_checks in Hsrc as (_ & _ & _ & Hdup & _).
  apply CheckFacts.no_duplicates_iff in Hdup.
  pose proof (OutputFacts.output_passes Series_sum now source_df source_df Hdup) as H.
  split; [exact H|].
  unfold DataQuality.validation_gate. now rewrite H.
Qed.

Lemma validated_batch_validates_witness :
  DataQuality.ValidationReport_passed
    (snd (Pipeline.run_all_validations sum_left ts_2023_02_01 sample_tc_data
            (Fifo.perform_fifo_matching sample_tc_data))) = true
  /\ DataQuality.validation_gate
       (snd (Pipeline.run_all_validations sum_left ts_2023_02_01 sample_tc_data
               (Fifo.perform_fifo_matching sample_tc_data))) true
     = DataQuality.Returns true.
Proof.
  apply (validated_batch_validates sum_left ts_2023_02_01 sample_tc_data).
  reflexivity.
Defined.

(** ** First in, first out *)

Module OrderFacts.
Import Fifo.

(** The scan consumes the lots [taken] and writes exactly them. *)
Lemma scan_as_taken rid rdate (pool : Frame) : forall (S : Frame) rem tr,
  fst (fst (scan_available rid rdate pool S rem tr))
  = write_all rid (taken rdate pool rem) S
  /\ snd (scan_available rid rdate pool S rem tr)
     = tr ++ map fst (taken rdate pool rem).
Proof.
  induction pool as [|[i er] pool IH]; intros S rem tr; simpl.
  - now rewrite app_nil_r.
  - destruct (rem <=? 0)%float; simpl; [now rewrite app_nil_r|].
    destruct (CREATEDAT er >? rdate); [apply IH|].
    destruct (IH (loc_set_REDEEMID i rid S) (rem - AMOUNT er)%float (tr ++ [i]))
      as [E1 E2].
    split; [exact E1|]. rewrite E2, <- app_assoc. reflexivity.
Qed.

Lemma taken_incl rdate (pool : Frame) : forall rem x,
  In x (taken rdate pool rem) -> In x pool /\ CREATEDAT (snd x) <= rdate.
Proof.
  induction pool as [|ir pool IH]; intros rem x H; simpl in H; [contradiction|].
  destruct (rem <=? 0)%float; [contradiction|].
  destruct (Z.gtb_spec (CREATEDAT (snd ir)) rdate) as [Hgt|Hle].
  - destruct (IH _ _ H) as [H1 H2]. split; [now right | exact H2].
  - destruct H as [<-|H]; [split; [now left | lia]|].
    destruct (IH _ _ H) as [H1 H2]. split; [now right | exact H2].
Qed.

(** Within a chronological pool a scan that consumes a lot has consumed every
    strictly older lot of the pool. *)
Lemma taken_older rdate (pool : Frame) : forall rem x y,
  chronological pool ->
  In x (taken rdate pool rem) -> In y pool ->
  CREATEDAT (snd y) < CREATEDAT (snd x) ->
  In y (taken rdate pool rem).
Proof.
  induction pool as [|ir pool IH]; intros rem x y Hs Hx Hy Hlt; simpl in *;
    [contradiction|].
  apply StronglySorted_inv in Hs as [Hs Hhd]. rewrite Forall_forall in Hhd.
  destruct (rem <=? 0)%float; [contradiction|].
  destruct (Z.gtb_spec (CREATEDAT (snd ir)) rdate) as [Hgt|Hle].
  - destruct Hy as [<-|Hy]; [|now apply (IH rem x y)].
    apply taken_incl in Hx as [_ Hx]. lia.
  - destruct Hy as [<-|Hy]; [now left|]. right.
    destruct Hx as [<-|Hx]; [|now apply (IH _ x y)].
    specialize (Hhd y Hy). simpl in Hhd. lia.
Qed.

Lemma write_all_labels rid lots : forall S,
  map fst (write_all rid lots S) = map fst S.
Proof.
  unfold write_all. induction lots as [|ir lots IH]; intros S; simpl;
    [reflexivity|].
  rewrite IH. apply loc_set_labels.
Qed.

Lemma in_loc_set idx v (S : Frame) i e' :
  In (i, e') (loc_set_REDEEMID idx v S)
  <-> exists e, In (i, e) S
                /\ ((i = idx /\ e' = set_REDEEMID (Some v) e) \/ (i <> idx /\ e' = e)).
Proof.
  unfold loc_set_REDEEMID. rewrite in_map_iff. split.
  - intros ([k a] & Eq & Ha). simpl in Eq.
    destruct (Nat.eqb_spec k idx) as [->|Hne].
    + assert (Ei : idx = i) by exact (f_equal fst Eq).
      assert (Ee : set_REDEEMID (Some v) a = e') by exact (f_equal snd Eq).
      subst i. exists a. split; [exact Ha|]. left. now split.
    + assert (Ei : k = i) by exact (f_equal fst Eq).
      assert (Ee : a = e') by exact (f_equal snd Eq).
      subst k e'. exists a. split; [exact Ha|]. right. now split.
  - intros (e & He & [[-> ->]|[Hne ->]]); exists (i, e) + exists (idx, e); simpl.
    + rewrite Nat.eqb_refl. now split.
    + destruct (Nat.eqb_spec i idx) as [->|_]; [contradiction | now split].
Qed.

(** What a replay of writes leaves in a cell. *)
Lemma write_all_cell rid lots : forall S i e',
  In (i, e') (write_all rid lots S) ->
  (In i (map fst lots) -> REDEEMID e' = Some rid)
  /\ (~ In i (map fst lots) -> In (i, e') S)
  /\ (exists e, In (i, e) S /\ (REDEEMID e' = REDEEMID e \/ REDEEMID e' = Some rid)).
Proof.
  unfold write_all. induction lots as [|[j r] lots IH]; intros S i e' H;
    cbn [fold_left map fst] in *.
  - split; [intros []|]. split; [intros _; exact H|].
    exists e'. split; [exact H | now left].
  - destruct (IH _ i e' H) as (H1 & H2 & (e1 & He1 & H3)).
    split; [|split].
    + intros Hin.
      destruct (in_dec Nat.eq_dec i (map fst lots)) as [Hl|Hl]; [now apply H1|].
      destruct Hin as [<-|Hin]; [|contradiction].
      apply H2, in_loc_set in Hl as (e & _ & [[_ ->]|[Hne _]]);
        [reflexivity | now contradiction Hne].
    + intros Hn.
      assert (Hl : ~ In i (map fst lots)) by (intros Hin; apply Hn; now right).
      apply H2, in_loc_set in Hl as (e & He & [[-> _]|[_ ->]]); [|exact He].
      exfalso. apply Hn. now left.
    + apply in_loc_set in He1 as (e & He & [[_ ->]|[_ ->]]); exists e;
        (split; [exact He|]).
      * right. destruct H3 as [H3|H3]; [rewrite H3; reflexivity | exact H3].
      * exact H3.
Qed.

Lemma in_list_remove_iff idx (pool : Frame) x :
  NoDup (map fst pool) ->
  (In x (list_remove idx pool) <-> In x pool /\ fst x <> idx).
Proof.
  induction pool as [|[i r] pool IH]; simpl; intros Hnd; [tauto|].
  inversion Hnd as [|? ? Hnotin Hnd']; subst.
  destruct (Nat.eqb_spec i idx) as [->|Hne].
  - split.
    + intros H. split; [now right|]. intros <-. apply Hnotin.
      now apply (in_map fst) in H.
    + intros [[<-|H] Hx]; [now contradiction Hx | exact H].
  - simpl. rewrite (IH Hnd'). split.
    + intros [<-|[H Hx]]; [split; [now left | exact Hne] | split; [now right | exact Hx]].
    + intros [[<-|H] Hx]; [now left | right; now split].
Qed.

Lemma in_fold_list_remove_iff tr : forall (pool : Frame) x,
  NoDup (map fst pool) ->
  (In x (fold_left (fun p idx => list_remove idx p) tr pool)
   <-> In x pool /\ ~ In (fst x) tr).
Proof.
  induction tr as [|idx tr IH]; intros pool x Hnd; simpl; [tauto|].
  rewrite IH by now apply PoolFacts.list_remove_NoDup.
  rewrite in_list_remove_iff by exact Hnd. intuition.
Qed.

Lemma list_remove_chronological idx (pool : Frame) :
  chronological pool -> chronological (list_remove idx pool).
Proof.
  unfold chronological. induction pool as [|[i r] pool IH]; simpl; intros H;
    [constructor|].
  apply StronglySorted_inv in H as [H Hhd].
  destruct (Nat.eqb i idx); [exact H|].
  constructor; [now apply IH|].
  rewrite Forall_forall in *. intros y Hy. apply Hhd.
  eapply in_list_remove; exact Hy.
Qed.

Lemma fold_list_remove_chronological tr : forall pool : Frame,
  chronological pool ->
  chronological (fold_left (fun p idx => list_remove idx p) tr pool).
Proof.
  induction tr as [|idx tr IH]; intros pool H; simpl; [exact H|].
  apply IH, list_remove_chronological, H.
Qed.

Lemma fold_list_remove_NoDup tr : forall pool : Frame,
  NoDup (map fst pool) ->
  NoDup (map fst (fold_left (fun p idx => list_remove idx p) tr pool)).
Proof.
  induction tr as [|idx tr IH]; intros pool H; simpl; [exact H|].
  apply IH, PoolFacts.list_remove_NoDup, H.
Qed.

Lemma insert_chronological x (l : Frame) :
  chronological l -> chronological (insert_by_CREATEDAT x l).
Proof.
  unfold chronological. induction l as [|y l IH]; simpl; intros H.
  - constructor; [constructor | constructor].
  - pose proof (StronglySorted_inv H) as [Hl Hhd].
    destruct (Z.leb_spec (CREATEDAT (snd x)) (CREATEDAT (snd y))) as [Hle|Hgt].
    + constructor; [exact H|]. constructor; [exact Hle|].
      rewrite Forall_forall in *. intros z Hz. specialize (Hhd z Hz). lia.
    + constructor; [now apply IH|].
      rewrite Forall_forall in *. intros z Hz.
      apply in_insert_by_CREATEDAT in Hz as [->|Hz]; [lia | now apply Hhd].
Qed.

Lemma sort_values_chronological (l : Frame) : chronological (sort_values l).
Proof.
  induction l as [|x l IH]; simpl; [constructor|].
  now apply insert_chronological.
Qed.

(** One redemption keeps the state of the pass. *)
Lemma match_redemption_state (E S P : Frame) red :
  NoDup (map fst E) ->
  pass_state E S P ->
  pass_state E (fst (match_redemption (S, P) red))
    (snd (match_redemption (S, P) red)).
Proof.
  intros HE [Hsort Hnd Hincl Hfree Hcons Hup].
  unfold match_redemption.
  destruct (scan_as_taken (TRANS_ID (snd red)) (CREATEDAT (snd red)) P S
              (abs (AMOUNT (snd red))) []) as [E1 E2].
  destruct (scan_available _ _ _ _ _ _) as [[S' rem'] tr']; cbn [fst snd] in *.
  subst S' tr'.
  set (T := taken (CREATEDAT (snd red)) P (abs (AMOUNT (snd red)))) in *.
  set (rid := TRANS_ID (snd red)) in *.
  assert (HTP : forall x, In x T -> In x P)
    by (intros x Hx; exact (proj1 (taken_incl _ _ _ _ Hx))).
  assert (HinT : forall i er, In (i, er) P -> In i (map fst T) -> In (i, er) T).
  { intros i er Hp Hi. apply in_map_iff in Hi as ([j a] & Ej & Ha). simpl in Ej.
    subst j. rewrite (NoDup_labels_functional P i er a Hnd Hp (HTP _ Ha)). exact Ha. }
  constructor.
  - now apply fold_list_remove_chronological.
  - now apply fold_list_remove_NoDup.
  - intros x Hx. apply Hincl. eapply in_fold_list_remove; exact Hx.
  - intros i er e Hp He.
    apply in_fold_list_remove_iff in Hp as [Hp Hn]; [|exact Hnd]. simpl in Hn.
    destruct (write_all_cell rid T S i e He) as (_ & H2 & _).
    exact (Hfree i er e Hp (H2 Hn)).
  - intros i er e HinE Hnp He.
    destruct (write_all_cell rid T S i e He) as (H1 & H2 & (e0 & He0 & H3)).
    destruct (in_dec Nat.eq_dec i (map fst T)) as [Hi|Hi].
    + rewrite (H1 Hi). discriminate.
    + assert (Hnp' : ~ In (i, er) P).
      { intros Hp. apply Hnp. apply in_fold_list_remove_iff; [exact Hnd|].
        split; [exact Hp | exact Hi]. }
      apply (Hcons i er e HinE Hnp' (H2 Hi)).
  - intros x y Hx Hy Hlt.
    apply in_fold_list_remove_iff in Hx as [Hx Hn]; [|exact Hnd].
    apply in_fold_list_remove_iff; [exact Hnd|].
    assert (Hyp : In y P) by exact (Hup x y Hx Hy Hlt).
    split; [exact Hyp|]. intros Hi.
    apply Hn. destruct y as [j b]. simpl in Hi.
    apply (in_map fst). apply (taken_older _ _ _ (j, b) x Hsort);
      [now apply HinT | exact Hx | exact Hlt].
Qed.

Lemma fold_match_state (E : Frame) reds : forall S P : Frame,
  NoDup (map fst E) ->
  pass_state E S P ->
  pass_state E (fst (fold_left match_redemption reds (S, P)))
    (snd (fold_left match_redemption reds (S, P))).
Proof.
  induction reds as [|red reds IH]; intros S P HE H; cbn [fold_left];
    [exact H|].
  pose proof (match_redemption_state E S P red HE H) as H'.
  destruct (match_redemption (S, P) red) as [S' P']. now apply IH.
Qed.

End OrderFacts.

Module PassFacts.
Import Fifo.

(** The earned lots of a customer, as the pass sorts them. *)
Lemma in_earned_txns (A : Frame) c i a :
  In (i, a)
    (sort_values
       (filter (fun ir : Labelled => String.eqb (TCTYPE (snd ir)) "earned")
          (filter (fun ir : Labelled => CUSTOMERID (snd ir) =? c) A)))
  <-> In (i, a) A /\ TCTYPE a = "earned" /\ CUSTOMERID a = c.
Proof.
  rewrite in_sort_values, !filter_In; simpl.
  rewrite String.eqb_eq, Z.eqb_eq. tauto.
Qed.

(** A row of the store is a row of the frame the pass started from, up to
    the annotation. *)
Lemma store_row_origin (A S : Frame) i e :
  erase S = erase A -> In (i, e) S ->
  exists a, In (i, a) A /\ same_transaction a e.
Proof.
  intros HE He. apply in_erase in He. rewrite HE in He.
  apply in_map_iff in He as ([j a] & Eq & Ha). simpl in Eq.
  assert (Ej : j = i) by exact (f_equal fst Eq). subst j.
  exists a. split; [exact Ha|].
  apply blank_eq_same_transaction. symmetry. exact (f_equal snd Eq).
Qed.

Lemma initial_pass_state (A : Frame) c :
  NoDup (map fst A) ->
  (forall ir, In ir A -> REDEEMID (snd ir) = None) ->
  let E := sort_values
             (filter (fun ir : Labelled => String.eqb (TCTYPE (snd ir)) "earned")
                (filter (fun ir : Labelled => CUSTOMERID (snd ir) =? c) A)) in
  NoDup (map fst E) /\ pass_state E A E.
Proof.
  intros Hnd Hnone E.
  assert (HE : NoDup (map fst E)) by now apply PoolFacts.initial_pool_NoDup.
  split; [exact HE|]. constructor.
  - apply OrderFacts.sort_values_chronological.
  - exact HE.
  - apply incl_refl.
  - intros i er e _ He. exact (Hnone (i, e) He).
  - intros i er e Hin Hn. contradiction.
  - intros x y _ Hy _. exact Hy.
Qed.

(** Within one customer's pass over an unannotated frame, an annotated
    earned lot leaves no strictly older earned lot unannotated. *)
Lemma process_customer_fifo (A : Frame) c i1 e1 i2 e2 :
  NoDup (map fst A) ->
  (forall ir, In ir A -> REDEEMID (snd ir) = None) ->
  In (i1, e1) (process_customer A c) -> In (i2, e2) (process_customer A c) ->
  CUSTOMERID e1 = c -> CUSTOMERID e2 = c ->
  TCTYPE e1 = "earned" -> TCTYPE e2 = "earned" ->
  CREATEDAT e1 < CREATEDAT e2 ->
  REDEEMID e2 <> None -> REDEEMID e1 <> None.
Proof.
  intros Hnd Hnone H1 H2 Hc1 Hc2 Ht1 Ht2 Hlt Hann.
  pose proof (FifoFacts.process_customer_erase A c) as Her.
  destruct (initial_pass_state A c Hnd Hnone) as [HE Hinit].
  unfold process_customer in *.
  set (E := sort_values (filter _ (filter _ A))) in *.
  destruct (_ || _)%bool.
  - exfalso. apply Hann. exact (Hnone (i2, e2) H2).
  - match type of H1 with
    | In _ (fst (fold_left _ ?reds _)) =>
        pose proof (OrderFacts.fold_match_state E reds A E HE Hinit) as Hst
    end.
    destruct (fold_left match_redemption _ (A, E)) as [S P]; cbn [fst snd] in *.
    destruct Hst as [_ _ _ Hfree Hcons Hup].
    destruct (store_row_origin A S i1 e1 Her H1) as (a1 & Ha1 & Hs1).
    destruct (store_row_origin A S i2 e2 Her H2) as (a2 & Ha2 & Hs2).
    destruct Hs1 as (_ & T1 & C1 & _ & U1 & _), Hs2 as (_ & T2 & C2 & _ & U2 & _).
    assert (HE1 : In (i1, a1) E) by (apply in_earned_txns; repeat split; congruence).
    assert (HE2 : In (i2, a2) E) by (apply in_earned_txns; repeat split; congruence).
    apply (Hcons i1 a1 e1 HE1); [|exact H1].
    intros HP1.
    assert (HP2 : In (i2, a2) P)
      by (apply (Hup (i1, a1) (i2, a2) HP1 HE2); simpl; lia).
    apply Hann. exact (Hfree i2 a2 e2 HP2 H2).
Qed.

Lemma blank_frame_unannotated rs c ir :
  In ir (filter (customer_mask c) (enumerate (map (set_REDEEMID None) rs))) ->
  REDEEMID (snd ir) = None.
Proof.
  intros H. apply filter_In in H as [H _]. apply (in_map snd) in H.
  rewrite enumerate_rows in H. apply in_map_iff in H as (r & <- & _). reflexivity.
Qed.

(** A row of customer [c] in the output, with its label in the customer's
    pass. *)
Lemma output_row_in_pass df c e :
  In e (rows (perform_fifo_matching df)) -> CUSTOMERID e = c ->
  exists i,
    In (i, e)
      (process_customer
         (filter (customer_mask c)
            (enumerate (map (set_REDEEMID None) (rows df)))) c).
Proof.
  intros He Hc.
  assert (H : In e (filter (of_customer c) (rows (perform_fifo_matching df)))).
  { apply filter_In. split; [exact He|]. unfold of_customer. now apply Z.eqb_eq. }
  rewrite perform_customer_rows in H.
  apply in_map_iff in H as ([i e'] & <- & H). now exists i.
Qed.

End PassFacts.

(** X9. First in, first out: in the output, when an earned row of a customer
    carries a REDEEMID, every earned row of the same customer created
    strictly earlier carries one too. *)
Theorem fifo_order (df : DataFrame) (e1 e2 : Row) :
  In e1 (rows (Fifo.perform_fifo_matching df)) ->
  In e2 (rows (Fifo.perform_fifo_matching df)) ->
  CUSTOMERID e1 = CUSTOMERID e2 ->
  TCTYPE e1 = "earned" ->
  CREATEDAT e1 < CREATEDAT e2 ->
  REDEEMID e2 <> None ->
  REDEEMID e1 <> None.
Proof.
  intros H1 H2 Hc Ht1 Hlt Hann.
  assert (Ht2 : TCTYPE e2 = "earned").
  { destruct (REDEEMID e2) as [rid|] eqn:E; [|now contradiction Hann].
    exact (proj1 (OutputFacts.annotation_justified df e2 H2 rid E)). }
  destruct (PassFacts.output_row_in_pass df (CUSTOMERID e2) e1 H1 Hc) as [i1 P1].
  destruct (PassFacts.output_row_in_pass df (CUSTOMERID e2) e2 H2 eq_refl) as [i2 P2].
  eapply (PassFacts.process_customer_fifo _ (CUSTOMERID e2) i1 e1 i2 e2);
    try eassumption; try reflexivity.
  - apply NoDup_labels_filter, enumerate_NoDup.
  - intros ir Hir. eapply PassFacts.blank_frame_unannotated; exact Hir.
Qed.

Lemma fifo_order_witness :
  REDEEMID (set_REDEEMID (Some 1003) sample_1001) <> None.
Proof.
  apply (fifo_order sample_tc_data (set_REDEEMID (Some 1003) sample_1001)
           (set_REDEEMID (Some 1003) sample_1002)).
  - vm_compute. left. reflexivity.
  - vm_compute. right. left. reflexivity.
  - reflexivity.
  - reflexivity.
  - vm_compute. reflexivity.
  - discriminate.
Defined.

(** X10. An earned row created after every spent and expired row of its
    customer (in particular a row of a customer without any) comes out with a
    null REDEEMID. *)
Theorem late_lot_unmatched (df : DataFrame) (e : Row) :
  In e (rows (Fifo.perform_fifo_matching df)) ->
  (forall r, In r (rows df) -> CUSTOMERID r = CUSTOMERID e ->
             TCTYPE r = "spent" \/ TCTYPE r = "expired" ->
             CREATEDAT r < CREATEDAT e) ->
  REDEEMID e = None.
Proof.
  intros He Hlate.
  destruct (REDEEMID e) as [rid|] eqn:E; [exfalso|reflexivity].
  destruct (OutputFacts.annotation_justified df e He rid E)
    as (_ & r & Hr & _ & Hk & Hc & Hle).
  pose proof (FifoFacts.perform_blank df) as Hb.
  assert (Hin : In (set_REDEEMID None r) (map (set_REDEEMID None) (rows df)))
    by (rewrite <- Hb; now apply in_map).
  apply in_map_iff in Hin as (r0 & E0 & Hr0).
  apply blank_eq_same_transaction in E0.
  destruct E0 as (_ & T0 & C0 & _ & U0 & _).
  assert (CREATEDAT r0 < CREATEDAT e).
  { apply (Hlate r0 Hr0); [congruence|]. rewrite <- T0 in Hk. exact Hk. }
  lia.
Qed.

Lemma late_lot_unmatched_witness :
  REDEEMID (mkRow 1002 "earned" 1675209600000000000 None 100 None 20%float None None)
  = None.
Proof.
  apply (late_lot_unmatched spent_before_earned
           (mkRow 1002 "earned" 1675209600000000000 None 100 None 20%float None None)).
  - vm_compute. right. left. reflexivity.
  - intros r [<-|[<-|[]]] _ [H|H]; simpl in *; try discriminate H; lia.
Defined.

(** ** Redemptions and the lots they consume *)

Module ServeFacts.
Import Fifo.

Lemma match_redemption_as_taken (S P : Frame) red :
  match_redemption (S, P) red
  = (write_all (TRANS_ID (snd red))
       (taken (CREATEDAT (snd red)) P (abs (AMOUNT (snd red)))) S,
     fold_left (fun p idx => list_remove idx p)
       (map fst (taken (CREATEDAT (snd red)) P (abs (AMOUNT (snd red))))) P).
Proof.
  unfold match_redemption.
  destruct (OrderFacts.scan_as_taken (TRANS_ID (snd red)) (CREATEDAT (snd red)) P S
              (abs (AMOUNT (snd red))) []) as [E1 E2].
  destruct (scan_available _ _ _ _ _ _) as [[S' rem'] tr']; cbn [fst snd] in *.
  now subst.
Qed.

(** A scan with an open need and an eligible lot in the pool consumes a lot. *)
Lemma taken_nonempty rdate (pool : Frame) rem x :
  (rem <=? 0)%float = false -> In x pool -> CREATEDAT (snd x) <= rdate ->
  exists y, In y (taken rdate pool rem).
Proof.
  intros Hrem. induction pool as [|p pool IH]; simpl; intros Hx Hle;
    [contradiction|].
  rewrite Hrem.
  destruct (Z.gtb_spec (CREATEDAT (snd p)) rdate) as [Hgt|_].
  - destruct Hx as [->|Hx]; [lia | now apply IH].
  - exists p. now left.
Qed.

(** A scan that consumes a lot started with an open need. *)
Lemma taken_open rdate (pool : Frame) rem y :
  In y (taken rdate pool rem) -> (rem <=? 0)%float = false.
Proof.
  destruct pool as [|p pool]; simpl; [contradiction|].
  destruct (rem <=? 0)%float; [contradiction | reflexivity].
Qed.

Lemma write_all_outside rid lots : forall (S : Frame) i e,
  In (i, e) S -> ~ In i (map fst lots) -> In (i, e) (write_all rid lots S).
Proof.
  unfold write_all. induction lots as [|[j r] lots IH]; intros S i e He Hn;
    cbn [fold_left map fst] in *; [exact He|].
  apply IH; [|intros Hin; apply Hn; now right].
  apply OrderFacts.in_loc_set. exists e. split; [exact He|]. right.
  split; [|reflexivity].
  intros ->. apply Hn. now left.
Qed.

Lemma taken_labels_in_pool rdate (P : Frame) rem i :
  In i (map fst (taken rdate P rem)) -> In i (map fst P).
Proof.
  intros H. apply in_map_iff in H as (y & <- & Hy).
  apply in_map. exact (proj1 (OrderFacts.taken_incl _ _ _ _ Hy)).
Qed.

Lemma fold_match_pool_incl reds : forall (S P : Frame) x,
  In x (snd (fold_left match_redemption reds (S, P))) -> In x P.
Proof.
  induction reds as [|red reds IH]; intros S P x H; cbn [fold_left] in H;
    [exact H|].
  rewrite match_redemption_as_taken in H. apply IH in H.
  eapply in_fold_list_remove; exact H.
Qed.

(** A row whose label has left the pool is never written again. *)
Lemma fold_match_outside reds : forall (S P : Frame) i e,
  In (i, e) S -> ~ In i (map fst P) ->
  In (i, e) (fst (fold_left match_redemption reds (S, P))).
Proof.
  induction reds as [|red reds IH]; intros S P i e He Hn; cbn [fold_left];
    [exact He|].
  rewrite match_redemption_as_taken. apply IH.
  - apply write_all_outside; [exact He|].
    intros Hin. apply Hn. eapply taken_labels_in_pool; exact Hin.
  - intros Hin. apply Hn. apply in_map_iff in Hin as (y & <- & Hy).
    apply in_map. eapply in_fold_list_remove; exact Hy.
Qed.

(** If a lot eligible for a redemption with a non-zero amount is still in the
    pool at the end of the pass, that redemption has annotated some row. *)
Lemma fold_match_served (E : Frame) reds : forall (S P : Frame) red x,
  NoDup (map fst E) -> incl (map fst E) (map fst S) ->
  pass_state E S P ->
  In red reds -> (abs (AMOUNT (snd red)) <=? 0)%float = false ->
  In x (snd (fold_left match_redemption reds (S, P))) ->
  CREATEDAT (snd x) <= CREATEDAT (snd red) ->
  exists i e',
    In (i, e') (fst (fold_left match_redemption reds (S, P)))
    /\ REDEEMID e' = Some (TRANS_ID (snd red)).
Proof.
  induction reds as [|r0 reds IH]; intros S P red x HE Hlab Hst Hred Hamt Hx Hle;
    [contradiction|].
  cbn [fold_left] in *.
  pose proof (OrderFacts.match_redemption_state E S P r0 HE Hst) as Hst1.
  rewrite match_redemption_as_taken in *. cbn [fst snd] in Hst1.
  set (T := taken (CREATEDAT (snd r0)) P (abs (AMOUNT (snd r0)))) in *.
  set (S1 := write_all (TRANS_ID (snd r0)) T S) in *.
  set (P1 := fold_left (fun p idx => list_remove idx p) (map fst T) P) in *.
  assert (Hlab1 : incl (map fst E) (map fst S1))
    by (unfold S1; now rewrite OrderFacts.write_all_labels).
  destruct Hred as [<-|Hred]; [|now apply (IH S1 P1 red x)].
  assert (HxP : In x P).
  { apply fold_match_pool_incl in Hx. eapply in_fold_list_remove; exact Hx. }
  destruct (taken_nonempty (CREATEDAT (snd r0)) P _ x Hamt HxP Hle) as [y Hy].
  fold T in Hy.
  assert (HyP : In y P) by exact (proj1 (OrderFacts.taken_incl _ _ _ _ Hy)).
  assert (HyS : In (fst y) (map fst S1)).
  { apply Hlab1. apply in_map. apply (ps_incl _ _ _ Hst). exact HyP. }
  apply in_map_iff in HyS as ([j e'] & Ej & He'). simpl in Ej. subst j.
  exists (fst y), e'. split.
  - apply fold_match_outside; [exact He'|].
    intros Hin. apply in_map_iff in Hin as (z & Ez & Hz).
    apply OrderFacts.in_fold_list_remove_iff in Hz as [_ Hz];
      [|exact (ps_labels _ _ _ Hst)].
    apply Hz. rewrite Ez. now apply in_map.
  - destruct (OrderFacts.write_all_cell _ T S (fst y) e' He') as (H1 & _).
    apply H1. now apply in_map.
Qed.

Lemma fold_match_named_open (R : Frame) reds : forall S P : Frame,
  incl reds R -> named_open R S ->
  named_open R (fst (fold_left match_redemption reds (S, P))).
Proof.
  induction reds as [|r0 reds IH]; intros S P Hincl HK; cbn [fold_left];
    [exact HK|].
  rewrite match_redemption_as_taken. apply IH.
  - intros z Hz. apply Hincl. now right.
  - remember (taken (CREATEDAT (snd r0)) P (abs (AMOUNT (snd r0)))) as T eqn:ET.
    intros i e' rid He' Hrid.
    destruct (OrderFacts.write_all_cell _ T S i e' He') as (_ & H2 & (e & He & H3)).
    destruct T as [|y T'].
    + apply (HK i e' rid); [|exact Hrid]. apply H2. intros [].
    + destruct H3 as [H3|H3].
      * apply (HK i e rid He). congruence.
      * exists r0. split; [apply Hincl; now left|]. split; [congruence|].
        apply (taken_open (CREATEDAT (snd r0)) P _ y). rewrite <- ET. now left.
Qed.

End ServeFacts.

Module ServePass.
Import Fifo.

Lemma in_redemption_txns (A : Frame) c j r :
  In (j, r)
    (sort_values
       (filter (fun ir : Labelled => isin (TCTYPE (snd ir)) ["spent"; "expired"])
          (filter (fun ir : Labelled => CUSTOMERID (snd ir) =? c) A)))
  <-> In (j, r) A /\ (TCTYPE r = "spent" \/ TCTYPE r = "expired")
      /\ CUSTOMERID r = c.
Proof.
  rewrite in_sort_values, !filter_In; cbn [snd].
  rewrite isin_spent_expired, Z.eqb_eq. tauto.
Qed.

Lemma length_zero_not_in {A} (l : list A) x :
  Nat.eqb (List.length l) 0 = true -> ~ In x l.
Proof.
  intros H. apply Nat.eqb_eq, length_zero_iff_nil in H. now subst.
Qed.

(** Within one customer's pass over an unannotated frame: if an earned lot
    eligible for a non-zero redemption is left unannotated, that redemption
    has annotated a row. *)
Lemma process_customer_served (A : Frame) c j r i e :
  NoDup (map fst A) ->
  (forall ir, In ir A -> REDEEMID (snd ir) = None) ->
  In (j, r) (process_customer A c) -> In (i, e) (process_customer A c) ->
  CUSTOMERID r = c -> CUSTOMERID e = c ->
  TCTYPE r = "spent" \/ TCTYPE r = "expired" ->
  (abs (AMOUNT r) <=? 0)%float = false ->
  TCTYPE e = "earned" ->
  CREATEDAT e <= CREATEDAT r ->
  REDEEMID e = None ->
  exists i' e', In (i', e') (process_customer A c)
                /\ REDEEMID e' = Some (TRANS_ID r).
Proof.
  intros Hnd Hnone Hr He Hcr Hce Hkind Hamt Hty Hle Hfree.
  pose proof (FifoFacts.process_customer_erase A c) as Her.
  destruct (PassFacts.initial_pass_state A c Hnd Hnone) as [HE Hinit].
  destruct (PassFacts.store_row_origin A _ j r Her Hr) as (ra & Hra & Hsr).
  destruct (PassFacts.store_row_origin A _ i e Her He) as (a & Ha & Hse).
  destruct Hsr as (Ir & Tr & Cr & _ & Ur & _ & Mr & _).
  destruct Hse as (_ & Te & Ce & _ & Ue & _).
  assert (HinE : In (i, a)
            (sort_values
               (filter (fun ir : Labelled => String.eqb (TCTYPE (snd ir)) "earned")
                  (filter (fun ir : Labelled => CUSTOMERID (snd ir) =? c) A))))
    by (apply PassFacts.in_earned_txns; repeat split; congruence).
  assert (HinR : In (j, ra)
            (sort_values
               (filter (fun ir : Labelled => isin (TCTYPE (snd ir)) ["spent"; "expired"])
                  (filter (fun ir : Labelled => CUSTOMERID (snd ir) =? c) A)))).
  { apply in_redemption_txns. repeat split; [exact Hra | | congruence].
    rewrite <- Tr. exact Hkind. }
  unfold process_customer in *.
  set (E := sort_values (filter (fun ir : Labelled => String.eqb _ _) _)) in *.
  set (R := sort_values (filter (fun ir : Labelled => isin _ _) _)) in *.
  destruct (Nat.eqb (List.length E) 0 || Nat.eqb (List.length R) 0)%bool eqn:Hskip.
  - exfalso. apply orb_true_iff in Hskip as [H|H];
      [exact (length_zero_not_in E _ H HinE) | exact (length_zero_not_in R _ H HinR)].
  - pose proof (OrderFacts.fold_match_state E R A E HE Hinit) as Hst.
    assert (Hlab : incl (map fst E) (map fst A)).
    { intros k Hk. apply in_map_iff in Hk as ([k' b] & <- & Hb).
      apply PassFacts.in_earned_txns in Hb as [Hb _]. now apply (in_map fst) in Hb. }
    pose proof (ServeFacts.fold_match_served E R A E (j, ra) (i, a) HE Hlab Hinit HinR)
      as Hserved.
    remember (fold_left match_redemption R (A, E)) as st eqn:Est.
    destruct st as [S P]; cbn [fst snd] in *.
    assert (HP : In (i, a) P).
    { destruct (in_dec Nat.eq_dec i (map fst P)) as [Hi|Hi].
      - apply in_map_iff in Hi as ([k b] & Ek & Hb). simpl in Ek. subst k.
        rewrite (NoDup_labels_functional E i a b HE HinE (ps_incl _ _ _ Hst _ Hb)).
        exact Hb.
      - exfalso. apply (ps_consumed _ _ _ Hst i a e HinE); [|exact He|exact Hfree].
        intros Hin. apply Hi. apply (in_map fst) in Hin. exact Hin. }
    assert (Ham : (abs (AMOUNT (snd (j, ra))) <=? 0)%float = false)
      by (simpl; congruence).
    assert (Hle' : CREATEDAT (snd (i, a)) <= CREATEDAT (snd (j, ra)))
      by (simpl; lia).
    destruct (Hserved Ham HP Hle') as (i' & e' & He' & Hid).
    exists i', e'. split; [exact He' | simpl in Hid; congruence].
Qed.

Lemma process_customer_named_open (A : Frame) c :
  (forall ir, In ir A -> REDEEMID (snd ir) = None) ->
  named_open
    (sort_values
       (filter (fun ir : Labelled => isin (TCTYPE (snd ir)) ["spent"; "expired"])
          (filter (fun ir : Labelled => CUSTOMERID (snd ir) =? c) A)))
    (process_customer A c).
Proof.
  intros Hnone.
  assert (H0 : forall R, named_open R A).
  { intros R i e rid He Hrid. pose proof (Hnone (i, e) He) as Hn. simpl in Hn.
    congruence. }
  unfold process_customer. destruct (_ || _)%bool; [apply H0|].
  apply ServeFacts.fold_match_named_open; [apply incl_refl | apply H0].
Qed.

(** Every annotation of the output names a row of the output whose amount is
    not zero. *)
Lemma output_names_open df e rid :
  In e (rows (perform_fifo_matching df)) -> REDEEMID e = Some rid ->
  exists r, In r (rows (perform_fifo_matching df)) /\ TRANS_ID r = rid
            /\ (abs (AMOUNT r) <=? 0)%float = false.
Proof.
  intros He Hrid.
  destruct (PassFacts.output_row_in_pass df (CUSTOMERID e) e He eq_refl) as [i Hi].
  set (A := filter (customer_mask (CUSTOMERID e))
              (enumerate (map (set_REDEEMID None) (rows df)))) in *.
  assert (Hnone : forall ir, In ir A -> REDEEMID (snd ir) = None)
    by (intros ir Hir; eapply PassFacts.blank_frame_unannotated; exact Hir).
  destruct (process_customer_named_open A (CUSTOMERID e) Hnone i e rid Hi Hrid)
    as ([j ra] & Hra & Hid & Hamt).
  apply in_redemption_txns in Hra as [Hra _]. simpl in *.
  unfold A in Hra. apply filter_In in Hra as [Hra _].
  apply (in_map snd) in Hra. rewrite enumerate_rows in Hra. simpl in Hra.
  rewrite <- (FifoFacts.perform_blank df) in Hra.
  apply in_map_iff in Hra as (r & Er & Hr).
  exists r. split; [exact Hr|]. rewrite <- Er in Hid, Hamt. simpl in *.
  now split.
Qed.

End ServePass.

(** X11. No redemption with credit available goes unmatched: if the output
    leaves an earned row of a customer unannotated, then every spent or
    expired row of that customer with a non-zero amount, created at or after
    that earned row, is the REDEEMID of some row of the customer. *)
Theorem available_lot_is_used (df : DataFrame) (r e : Row) :
  In r (rows (Fifo.perform_fifo_matching df)) ->
  In e (rows (Fifo.perform_fifo_matching df)) ->
  CUSTOMERID e = CUSTOMERID r ->
  TCTYPE r = "spent" \/ TCTYPE r = "expired" ->
  (abs (AMOUNT r) <=? 0)%float = false ->
  TCTYPE e = "earned" ->
  CREATEDAT e <= CREATEDAT r ->
  REDEEMID e = None ->
  exists e', In e' (rows (Fifo.perform_fifo_matching df))
             /\ CUSTOMERID e' = CUSTOMERID r
             /\ REDEEMID e' = Some (TRANS_ID r).
Proof.
  intros Hr He Hc Hkind Hamt Hty Hle Hfree.
  destruct (PassFacts.output_row_in_pass df (CUSTOMERID r) r Hr eq_refl) as [j Pj].
  destruct (PassFacts.output_row_in_pass df (CUSTOMERID r) e He Hc) as [i Pi].
  destruct (ServePass.process_customer_served
              (filter (customer_mask (CUSTOMERID r))
                 (enumerate (map (set_REDEEMID None) (rows df))))
              (CUSTOMERID r) j r i e)
    as (i' & e' & He' & Hid); try assumption; try reflexivity.
  - apply NoDup_labels_filter, enumerate_NoDup.
  - intros ir Hir. eapply PassFacts.blank_frame_unannotated; exact Hir.
  - apply (in_map snd) in He'. rewrite <- perform_customer_rows in He'.
    apply filter_In in He' as [He' Hc']. unfold of_customer in Hc'.
    apply Z.eqb_eq in Hc'. simpl in *. exists e'. now repeat split.
Qed.

Lemma available_lot_is_used_witness :
  exists e', In e' (rows (Fifo.perform_fifo_matching leftover_batch))
             /\ CUSTOMERID e' = 100
             /\ REDEEMID e' = Some 1003.
Proof.
  apply (available_lot_is_used leftover_batch
           (mkRow 1003 "spent" ts_2023_02_01 None 100 (Some 5001) (-15)%float None None)
           (mkRow 1002 "earned" ts_2023_01_15 None 100 None 30%float None None)).
  - vm_compute. right. right. left. reflexivity.
  - vm_compute. right. left. reflexivity.
  - reflexivity.
  - left. reflexivity.
  - reflexivity.
  - reflexivity.
  - vm_compute. discriminate.
  - reflexivity.
Defined.

(** X12. A redemption whose absolute amount is not above zero consumes
    nothing: when the batch's TRANS_IDs are pairwise distinct, no row of the
    output carries the TRANS_ID of such a row as its REDEEMID. *)
Theorem zero_redemption_unreferenced (df : DataFrame) (r e : Row) :
  NoDup (map TRANS_ID (rows df)) ->
  In r (rows (Fifo.perform_fifo_matching df)) ->
  (abs (AMOUNT r) <=? 0)%float = true ->
  In e (rows (Fifo.perform_fifo_matching df)) ->
  REDEEMID e <> Some (TRANS_ID r).
Proof.
  intros Hids Hr Hzero He Hrid.
  destruct (ServePass.output_names_open df e (TRANS_ID r) He Hrid)
    as (r' & Hr' & Hid & Hamt).
  rewrite <- OutputFacts.output_ids in Hids.
  rewrite (NoDup_map_injective_on TRANS_ID _ r' r Hids Hr' Hr Hid) in Hamt.
  congruence.
Qed.

Lemma zero_redemption_unreferenced_witness :
  REDEEMID (mkRow 1001 "earned" ts_2023_01_01 None 100 None 20%float None None)
  <> Some 1002.
Proof.
  apply (zero_redemption_unreferenced zero_spend_batch
           (mkRow 1002 "spent" ts_2023_02_01 None 100 (Some 5001) 0%float None None)
           (mkRow 1001 "earned" ts_2023_01_01 None 100 None 20%float None None)).
  - simpl. repeat constructor; simpl; intuition discriminate.
  - vm_compute. right. left. reflexivity.
  - reflexivity.
  - vm_compute. left. reflexivity.
Defined.

(** ** The balance history *)

Module AnalyticsFacts.
Import Analytics.

Lemma running_totals_transactions round2 c l : forall ce cs cx,
  map record_transaction (running_totals round2 c l ce cs cx)
  = map (fun r => (c, CREATEDAT r, TRANS_ID r, TCTYPE r, AMOUNT r)) l.
Proof.
  induction l as [|r l IH]; intros ce cs cx; cbn [running_totals map];
    [reflexivity|].
  destruct (String.eqb (TCTYPE r) "earned");
    [|destruct (String.eqb (TCTYPE r) "spent");
      [|destruct (String.eqb (TCTYPE r) "expired")]];
    cbn [map]; rewrite IH; reflexivity.
Qed.

Lemma insert_Permutation x (l : Frame) :
  Permutation (insert_by_CREATEDAT x l) (x :: l).
Proof.
  induction l as [|y l IH]; simpl; [reflexivity|].
  destruct (CREATEDAT (snd x) <=? CREATEDAT (snd y)); [reflexivity|].
  rewrite IH. apply perm_swap.
Qed.

Lemma sort_values_Permutation (l : Frame) : Permutation (sort_values l) l.
Proof.
  induction l as [|x l IH]; simpl; [reflexivity|].
  rewrite insert_Permutation. now apply perm_skip.
Qed.

Lemma customer_rows_Permutation df c :
  Permutation (customer_rows df c) (filter (of_customer c) (rows df)).
Proof.
  unfold customer_rows.
  rewrite sort_values_Permutation, <- filter_rows_labelled, enumerate_rows.
  reflexivity.
Qed.

Lemma in_customer_rows df c r :
  In r (customer_rows df c) <-> In r (rows df) /\ CUSTOMERID r = c.
Proof.
  split.
  - intros H. apply (Permutation_in _ (customer_rows_Permutation df c)) in H.
    apply filter_In in H as [H Hc]. split; [exact H|]. now apply Z.eqb_eq.
  - intros [H Hc].
    apply (Permutation_in _ (Permutation_sym (customer_rows_Permutation df c))).
    apply filter_In. split; [exact H|]. now apply Z.eqb_eq.
Qed.

(** Grouping a list by a duplicate-free list of keys that covers it loses
    and repeats nothing. *)
Lemma group_insert (r : Row) (l : list Row) ks :
  NoDup ks -> In (CUSTOMERID r) ks ->
  Permutation (flat_map (fun c => filter (of_customer c) (r :: l)) ks)
              (r :: flat_map (fun c => filter (of_customer c) l) ks).
Proof.
  induction ks as [|k ks IH]; intros Hnd Hin; [contradiction|].
  inversion Hnd as [|? ? Hnotin Hnd']; subst.
  assert (Hcons : forall c, filter (of_customer c) (r :: l)
                  = if CUSTOMERID r =? c then r :: filter (of_customer c) l
                    else filter (of_customer c) l) by reflexivity.
  cbn [flat_map]. rewrite Hcons.
  destruct (Z.eqb_spec (CUSTOMERID r) k) as [Ek|Hne].
  - simpl. apply perm_skip. apply Permutation_app_head.
    assert (E : forall ks', ~ In (CUSTOMERID r) ks' ->
              flat_map (fun c => filter (of_customer c) (r :: l)) ks'
              = flat_map (fun c => filter (of_customer c) l) ks').
    { induction ks' as [|k' ks' IH']; intros Hn; [reflexivity|].
      cbn [flat_map]. rewrite Hcons.
      destruct (Z.eqb_spec (CUSTOMERID r) k') as [Ek'|_];
        [exfalso; apply Hn; now left|].
      rewrite IH'; [reflexivity | intros H; apply Hn; now right]. }
    rewrite E; [reflexivity|]. rewrite Ek. exact Hnotin.
  - destruct Hin as [Ek|Hin]; [now contradiction Hne|].
    rewrite (IH Hnd' Hin). apply Permutation_sym, Permutation_middle.
Qed.

Lemma group_Permutation (l : list Row) ks :
  NoDup ks -> (forall r, In r l -> In (CUSTOMERID r) ks) ->
  Permutation (flat_map (fun c => filter (of_customer c) l) ks) l.
Proof.
  intros Hnd. induction l as [|r l IH]; intros Hcov.
  - clear Hcov Hnd. induction ks as [|k ks IHk]; [reflexivity | exact IHk].
  - rewrite group_insert; [|exact Hnd | apply Hcov; now left].
    apply perm_skip, IH. intros x Hx. apply Hcov. now right.
Qed.

Lemma flat_map_Permutation {A B} (f g : A -> list B) ks :
  (forall k, Permutation (f k) (g k)) ->
  Permutation (flat_map f ks) (flat_map g ks).
Proof.
  intros H. induction ks as [|k ks IH]; simpl; [reflexivity|].
  now apply Permutation_app.
Qed.

Lemma map_flat_map' {A B C} (h : B -> C) (f : A -> list B) ks :
  map h (flat_map f ks) = flat_map (fun k => map h (f k)) ks.
Proof.
  induction ks as [|k ks IH]; simpl; [reflexivity|].
  now rewrite map_app, IH.
Qed.

Lemma history_transactions round2 df :
  Permutation (map record_transaction (balance_history round2 df))
              (map row_transaction (rows df)).
Proof.
  unfold balance_history. rewrite map_flat_map'.
  transitivity (flat_map (fun c => map row_transaction (filter (of_customer c) (rows df)))
                  (unique (map CUSTOMERID (rows df)))).
  - apply flat_map_Permutation. intros c.
    rewrite running_totals_transactions.
    rewrite <- (customer_rows_Permutation df c).
    replace (map (fun r => (c, CREATEDAT r, TRANS_ID r, TCTYPE r, AMOUNT r))
               (customer_rows df c))
      with (map row_transaction (customer_rows df c)); [reflexivity|].
    apply map_ext_in. intros r Hr. apply in_customer_rows in Hr as [_ <-].
    reflexivity.
  - rewrite <- map_flat_map'. apply Permutation_map, group_Permutation.
    + apply unique_NoDup.
    + intros r Hr. apply unique_In. now apply in_map.
Qed.

Lemma running_totals_customer round2 c l : forall ce cs cx b,
  In b (running_totals round2 c l ce cs cx) -> customer_id b = c.
Proof.
  induction l as [|r l IH]; intros ce cs cx b H; cbn [running_totals] in H;
    [contradiction|].
  destruct (String.eqb (TCTYPE r) "earned");
    [|destruct (String.eqb (TCTYPE r) "spent");
      [|destruct (String.eqb (TCTYPE r) "expired")]];
    (destruct H as [<-|H]; [reflexivity | eapply IH; exact H]).
Qed.

(** The records of one customer are that customer's own chunk of the
    history. *)
Lemma history_of_customer round2 df c :
  filter (fun b => customer_id b =? c) (balance_history round2 df)
  = running_totals round2 c (customer_rows df c) 0 0 0.
Proof.
  unfold balance_history.
  assert (Hsame : forall l, (forall b, In b l -> customer_id b = c) ->
            filter (fun b => customer_id b =? c) l = l).
  { intros l H. apply forallb_filter_id, forallb_forall.
    intros b Hb. apply Z.eqb_eq. now apply H. }
  assert (Hother : forall k l, k <> c -> (forall b, In b l -> customer_id b = k) ->
            filter (fun b => customer_id b =? c) l = []).
  { intros k l Hk H. induction l as [|b l IH]; [reflexivity|]. simpl.
    destruct (Z.eqb_spec (customer_id b) c) as [E|_].
    - exfalso. apply Hk. rewrite <- E. symmetry. apply H. now left.
    - apply IH. intros x Hx. apply H. now right. }
  assert (Hgen : forall ks, NoDup ks ->
            filter (fun b => customer_id b =? c)
              (flat_map (fun k => running_totals round2 k (customer_rows df k) 0 0 0) ks)
            = if in_dec Z.eq_dec c ks
              then running_totals round2 c (customer_rows df c) 0 0 0 else []).
  { induction ks as [|k ks IH]; intros Hnd; [reflexivity|].
    inversion Hnd as [|? ? Hnotin Hnd']; subst.
    cbn [flat_map]. rewrite filter_app, (IH Hnd').
    destruct (Z.eq_dec k c) as [->|Hne].
    - rewrite Hsame by (intros b Hb; eapply running_totals_customer; exact Hb).
      destruct (in_dec Z.eq_dec c ks) as [Hin|_]; [contradiction|].
      destruct (in_dec Z.eq_dec c (c :: ks)) as [_|Hn];
        [apply app_nil_r | exfalso; apply Hn; now left].
    - rewrite (Hother k) by
        (try exact Hne; intros b Hb; eapply running_totals_customer; exact Hb).
      simpl app.
      destruct (in_dec Z.eq_dec c ks) as [Hin|Hn];
        destruct (in_dec Z.eq_dec c (k :: ks)) as [Hin'|Hn']; try reflexivity.
      + exfalso. apply Hn'. now right.
      + destruct Hin' as [E|Hin']; [contradiction | contradiction]. }
  rewrite Hgen by apply unique_NoDup.
  destruct (in_dec Z.eq_dec c (unique (map CUSTOMERID (rows df)))) as [_|Hn];
    [reflexivity|].
  destruct (customer_rows df c) as [|r l] eqn:E; [reflexivity|].
  exfalso. apply Hn. apply unique_In.
  assert (Hr : In r (customer_rows df c)) by (rewrite E; now left).
  apply in_customer_rows in Hr as [Hr <-]. now apply in_map.
Qed.

End AnalyticsFacts.

(** X13. The balance history (with or without rounding, so both for
    [build_customer_balance_history] and for the DAG's [build_analytics]) has
    exactly one record per transaction of the batch, carrying that
    transaction's customer, date, id, type and amount. *)
Theorem history_covers_batch (round2 : float -> float) (df : DataFrame) :
  Permutation
    (map Analytics.record_transaction
       (Analytics.build_customer_balance_history round2 df))
    (map Analytics.row_transaction (rows df))
  /\ Permutation
       (map Analytics.record_transaction (Analytics.build_analytics df))
       (map Analytics.row_transaction (rows df))
  /\ List.length (Analytics.build_customer_balance_history round2 df)
     = List.length (rows df).
Proof.
  split; [apply AnalyticsFacts.history_transactions|].
  split; [apply AnalyticsFacts.history_transactions|].
  pose proof (Permutation_length (AnalyticsFacts.history_transactions round2 df)) as H.
  rewrite !length_map in H. exact H.
Qed.

(** ** Queries on the balance history *)

Module QueryFacts.
Import Analytics.

Lemma iloc_last_nil {A} (l : list A) : iloc_last l = None <-> l = [].
Proof.
  induction l as [|x [|y l] IH]; simpl in *; split; try discriminate; try reflexivity.
  - intros H. apply IH in H. discriminate H.
Qed.

Lemma iloc_last_In {A} (l : list A) d : iloc_last l = Some d -> In d l.
Proof.
  induction l as [|x [|y l] IH]; simpl in *; intros H; [discriminate | |].
  - injection H as ->. now left.
  - right. now apply IH.
Qed.

(** The last row of a sorted selection dominates the selection. *)
Lemma iloc_last_max {A} (R : A -> A -> Prop) (l : list A) d :
  StronglySorted R l -> iloc_last l = Some d ->
  forall x, In x l -> x = d \/ R x d.
Proof.
  induction l as [|a [|y l] IH]; intros Hs H x Hx; simpl in H; [discriminate | |].
  - injection H as <-. destruct Hx as [->|[]]. now left.
  - apply StronglySorted_inv in Hs as [Hs Ha]. rewrite Forall_forall in Ha.
    destruct Hx as [<-|Hx]; [|now apply IH].
    right. apply Ha. now apply iloc_last_In.
Qed.

Lemma filter_StronglySorted {A} (R : A -> A -> Prop) (p : A -> bool) (l : list A) :
  StronglySorted R l -> StronglySorted R (filter p l).
Proof.
  induction l as [|a l IH]; simpl; intros H; [constructor|].
  apply StronglySorted_inv in H as [H Ha].
  destruct (p a); [|now apply IH].
  constructor; [now apply IH|].
  rewrite Forall_forall in *. intros x Hx. apply Ha.
  apply filter_In in Hx. tauto.
Qed.

Lemma filter_andb {A} (p q : A -> bool) (l : list A) :
  filter (fun x => p x && q x)%bool l = filter q (filter p l).
Proof.
  induction l as [|a l IH]; simpl; [reflexivity|].
  destruct (p a); simpl; [destruct (q a)|]; now rewrite IH.
Qed.

(** Records and rows of a customer's chunk correspond. *)
Lemma record_of_row round2 c l ce cs cx r :
  In r l ->
  exists b, In b (running_totals round2 c l ce cs cx)
            /\ record_transaction b = (c, CREATEDAT r, TRANS_ID r, TCTYPE r, AMOUNT r).
Proof.
  intros Hr.
  apply (in_map (fun r => (c, CREATEDAT r, TRANS_ID r, TCTYPE r, AMOUNT r))) in Hr.
  rewrite <- (AnalyticsFacts.running_totals_transactions round2 c l ce cs cx) in Hr.
  apply in_map_iff in Hr as (b & Eb & Hb). now exists b.
Qed.

Lemma row_of_record round2 c l ce cs cx b :
  In b (running_totals round2 c l ce cs cx) ->
  exists r, In r l
            /\ record_transaction b = (c, CREATEDAT r, TRANS_ID r, TCTYPE r, AMOUNT r).
Proof.
  intros Hb. apply (in_map record_transaction) in Hb.
  rewrite AnalyticsFacts.running_totals_transactions in Hb.
  apply in_map_iff in Hb as (r & Er & Hr). exists r. now split.
Qed.

Lemma record_date b c d i t a :
  record_transaction b = (c, d, i, t, a) -> transaction_date b = d.
Proof. unfold record_transaction. intros H. congruence. Qed.

Lemma running_totals_sorted round2 c l : forall ce cs cx,
  StronglySorted (fun x y : Row => CREATEDAT x <= CREATEDAT y) l ->
  StronglySorted (fun x y => transaction_date x <= transaction_date y)
    (running_totals round2 c l ce cs cx).
Proof.
  induction l as [|r l IH]; intros ce cs cx Hs; cbn [running_totals];
    [constructor|].
  apply StronglySorted_inv in Hs as [Hs Hr]. rewrite Forall_forall in Hr.
  destruct (String.eqb (TCTYPE r) "earned");
    [|destruct (String.eqb (TCTYPE r) "spent");
      [|destruct (String.eqb (TCTYPE r) "expired")]];
    (constructor; [now apply IH|]; apply Forall_forall; intros b Hb;
     apply row_of_record in Hb as (r' & Hr' & Eb);
     rewrite (record_date _ _ _ _ _ _ Eb); cbn [transaction_date];
     now apply Hr).
Qed.

Lemma customer_rows_sorted df c :
  StronglySorted (fun x y : Row => CREATEDAT x <= CREATEDAT y) (customer_rows df c).
Proof.
  unfold customer_rows.
  pose proof (OrderFacts.sort_values_chronological
                (filter (customer_mask c) (enumerate (rows df)))) as H.
  unfold chronological in H.
  induction H as [|x l Hl IH Hx]; simpl; constructor; [exact IH|].
  rewrite Forall_forall in *. intros y Hy.
  apply in_map_iff in Hy as (z & <- & Hz). now apply Hx.
Qed.

(** The loop body of the query, against the batch the history was built
    from. *)
Lemma balance_of_customer_latest round2 df target_date target_dt c :
  answers_latest df (balance_history round2 df) target_dt
    (balance_of_customer (balance_history round2 df) target_date target_dt c)
  /\ queried_customer
       (balance_of_customer (balance_history round2 df) target_date target_dt c) = c.
Proof.
  unfold balance_of_customer, answers_latest.
  rewrite (filter_andb (fun b => customer_id b =? c)
             (fun b => transaction_date b <=? target_dt)).
  rewrite AnalyticsFacts.history_of_customer.
  set (RT := running_totals round2 c (customer_rows df c) 0 0 0).
  assert (Hsorted : StronglySorted
            (fun x y => transaction_date x <= transaction_date y)
            (filter (fun b => transaction_date b <=? target_dt) RT)).
  { apply filter_StronglySorted, running_totals_sorted, customer_rows_sorted. }
  assert (Hrow : forall r, In r (rows df) -> CUSTOMERID r = c ->
            exists b, In b RT /\ transaction_date b = CREATEDAT r).
  { intros r Hr Hc.
    destruct (record_of_row round2 c (customer_rows df c) 0 0 0 r) as (b & Hb & Eb).
    - apply AnalyticsFacts.in_customer_rows. now split.
    - exists b. split; [exact Hb|]. eapply record_date; exact Eb. }
  destruct (iloc_last (filter _ RT)) as [latest|] eqn:EL; cbn; (split; [|reflexivity]).
  - pose proof (iloc_last_In _ _ EL) as Hin.
    apply filter_In in Hin as [HinRT Hle]. apply Z.leb_le in Hle.
    split; [exact Hle|]. split.
    + intros r Hr Hc Hrt. destruct (Hrow r Hr Hc) as (b & Hb & Eb).
      assert (Hbf : In b (filter (fun b => transaction_date b <=? target_dt) RT)).
      { apply filter_In. split; [exact Hb|]. apply Z.leb_le. lia. }
      destruct (iloc_last_max _ _ _ Hsorted EL b Hbf) as [->|H]; lia.
    + exists latest. repeat split.
      * assert (H : In latest (filter (fun b => customer_id b =? c)
                                 (balance_history round2 df)))
          by (rewrite AnalyticsFacts.history_of_customer; exact HinRT).
        apply filter_In in H. tauto.
      * eapply AnalyticsFacts.running_totals_customer; exact HinRT.
  - apply iloc_last_nil in EL. split; [|repeat split].
    intros r Hr Hc. destruct (Hrow r Hr Hc) as (b & Hb & Eb).
    destruct (Z.leb_spec (transaction_date b) target_dt) as [Hle|Hgt]; [|lia].
    exfalso.
    assert (Hbf : In b (filter (fun b => transaction_date b <=? target_dt) RT)).
    { apply filter_In. split; [exact Hb|]. now apply Z.leb_le. }
    rewrite EL in Hbf. contradiction.
Qed.

Lemma customer_rows_isolated df1 df2 c :
  filter (of_customer c) (rows df1) = filter (of_customer c) (rows df2) ->
  customer_rows df1 c = customer_rows df2 c.
Proof.
  intros H. unfold customer_rows.
  set (A := filter (customer_mask c) (enumerate (rows df1))).
  set (B := filter (customer_mask c) (enumerate (rows df2))).
  assert (Hrows : map snd A = map snd B).
  { unfold A, B. now rewrite <- !filter_rows_labelled, !enumerate_rows. }
  destruct (same_rows_relabel A B Hrows) as (g & _ & ->);
    [apply NoDup_labels_filter, enumerate_NoDup
    | apply NoDup_labels_filter, enumerate_NoDup |].
  now rewrite relabel_sort_values, relabel_rows.
Qed.

Lemma history_empty_iff round2 df :
  balance_history round2 df = [] <-> rows df = [].
Proof.
  pose proof (Permutation_length (AnalyticsFacts.history_transactions round2 df)) as H.
  rewrite !length_map in H.
  split; intros E; apply length_zero_iff_nil; apply length_zero_iff_nil in E; lia.
Qed.

End QueryFacts.

(** X14. The balance records of a customer depend on that customer's
    transactions only: two batches with the same rows for the customer give
    the same records for the customer, whatever the other rows are. *)
Theorem history_isolation (round2 : float -> float) (df1 df2 : DataFrame) (c : Z) :
  filter (of_customer c) (rows df1) = filter (of_customer c) (rows df2) ->
  filter (fun b => Analytics.customer_id b =? c)
    (Analytics.build_customer_balance_history round2 df1)
  = filter (fun b => Analytics.customer_id b =? c)
      (Analytics.build_customer_balance_history round2 df2).
Proof.
  intros H. unfold Analytics.build_customer_balance_history.
  rewrite !AnalyticsFacts.history_of_customer.
  now rewrite (QueryFacts.customer_rows_isolated df1 df2 c H).
Qed.

Lemma history_isolation_witness :
  filter (fun b => Analytics.customer_id b =? 100)
    (Analytics.build_customer_balance_history (fun x => x) multi_customer_data)
  = filter (fun b => Analytics.customer_id b =? 100)
      (Analytics.build_customer_balance_history (fun x => x) customer_100_only).
Proof.
  apply (history_isolation (fun x => x) multi_customer_data customer_100_only 100).
  reflexivity.
Defined.

(** X15. When [get_balance_on_date] answers on the history built from a
    batch, it gives one entry per requested customer, in order; an entry is
    all zero with no last date exactly when the customer has no transaction
    on or before the target, and otherwise repeats the totals of a record of
    that customer dated at the customer's latest transaction on or before the
    target. *)
Theorem balance_on_date_is_latest (round2 : float -> float)
    (to_datetime : string -> option Timestamp) (df : DataFrame)
    (customer_ids : list Z) (target_date : string) (target_dt : Timestamp)
    (answer : list Analytics.BalanceOnDate) :
  to_datetime target_date = Some target_dt ->
  Analytics.get_balance_on_date to_datetime
    (Analytics.build_customer_balance_history round2 df) customer_ids target_date
  = Analytics.Answer answer ->
  map Analytics.queried_customer answer = customer_ids
  /\ Forall (answers_latest df
               (Analytics.build_customer_balance_history round2 df) target_dt)
       answer.
Proof.
  intros Hdt Hans. unfold Analytics.get_balance_on_date in Hans. rewrite Hdt in Hans.
  unfold Analytics.build_customer_balance_history in *.
  assert (E : answer
              = map (Analytics.balance_of_customer (Analytics.balance_history round2 df)
                       target_date target_dt) customer_ids).
  { destruct customer_ids as [|c cs];
      [|destruct (Analytics.balance_history round2 df); [discriminate Hans|]];
      now injection Hans as <-. }
  subst answer. split.
  - rewrite map_map. rewrite <- (map_id customer_ids) at 2. apply map_ext.
    intros c. apply QueryFacts.balance_of_customer_latest.
  - apply Forall_map, Forall_forall. intros c _.
    apply QueryFacts.balance_of_customer_latest.
Qed.

Lemma balance_on_date_is_latest_witness :
  map Analytics.queried_customer
    [ Analytics.mkOnDate 100 "2023-01-20" (Some ts_2023_01_15) 50 0 0 50;
      Analytics.mkOnDate 7 "2023-01-20" None 0 0 0 0 ] = [100; 7]
  /\ Forall (answers_latest sample_tc_data
               (Analytics.build_customer_balance_history (fun x => x) sample_tc_data)
               1674172800000000000)
       [ Analytics.mkOnDate 100 "2023-01-20" (Some ts_2023_01_15) 50 0 0 50;
         Analytics.mkOnDate 7 "2023-01-20" None 0 0 0 0 ].
Proof.
  apply (balance_on_date_is_latest (fun x => x) read_date sample_tc_data
           [100; 7] "2023-01-20" 1674172800000000000).
  - reflexivity.
  - vm_compute. reflexivity.
Defined.

(** X16. With a readable target date, [get_balance_on_date] on the history
    built from a batch raises the KeyError of the 'customer_id' column exactly
    when the batch is empty and at least one customer is asked for: the frame
    built from no record has no columns.  In every other case it answers. *)
Theorem empty_history_query (round2 : float -> float)
    (to_datetime : string -> option Timestamp) (df : DataFrame)
    (customer_ids : list Z) (target_date : string) (target_dt : Timestamp) :
  to_datetime target_date = Some target_dt ->
  (Analytics.get_balance_on_date to_datetime
     (Analytics.build_customer_balance_history round2 df) customer_ids target_date
   = Analytics.Raises_KeyError "customer_id"
   <-> rows df = [] /\ customer_ids <> [])
  /\ (rows df <> [] \/ customer_ids = [] ->
      exists answer,
        Analytics.get_balance_on_date to_datetime
          (Analytics.build_customer_balance_history round2 df) customer_ids target_date
        = Analytics.Answer answer
        /\ List.length answer = List.length customer_ids).
Proof.
  intros Hdt. unfold Analytics.get_balance_on_date, Analytics.build_customer_balance_history.
  rewrite Hdt.
  pose proof (QueryFacts.history_empty_iff round2 df) as Hiff.
  destruct customer_ids as [|c cs].
  - split.
    + split; [discriminate | intros [_ H]; now contradiction H].
    + intros _. eexists. split; reflexivity.
  - destruct (Analytics.balance_history round2 df) as [|b H] eqn:EH.
    + split.
      * split; [|reflexivity]. intros _. split; [now apply Hiff | discriminate].
      * intros [Hne|E]; [|discriminate E]. exfalso. apply Hne. now apply Hiff.
    + split.
      * split; [discriminate|]. intros [E _]. apply Hiff in E. discriminate E.
      * intros _. eexists. split; [reflexivity|]. cbn [List.length map].
        now rewrite length_map.
Qed.

Lemma empty_history_query_witness :
  Analytics.get_balance_on_date read_date
    (Analytics.build_customer_balance_history (fun x => x) empty_batch)
    [100] "2023-01-20"
  = Analytics.Raises_KeyError "customer_id"
  <-> rows empty_batch = [] /\ [100] <> [].
Proof.
  apply (proj1 (empty_history_query (fun x => x) read_date empty_batch [100]
                  "2023-01-20" 1674172800000000000 eq_refl)).
Defined.

(** ** What the matching reads *)

Module ViewFacts.
Import Fifo.

Lemma alike_fields x y :
  alike x y ->
  fst x = fst y /\ TRANS_ID (snd x) = TRANS_ID (snd y)
  /\ String.eqb (TCTYPE (snd x)) "earned" = String.eqb (TCTYPE (snd y)) "earned"
  /\ isin (TCTYPE (snd x)) ["spent"; "expired"]
     = isin (TCTYPE (snd y)) ["spent"; "expired"]
  /\ CREATEDAT (snd x) = CREATEDAT (snd y)
  /\ CUSTOMERID (snd x) = CUSTOMERID (snd y)
  /\ AMOUNT (snd x) = AMOUNT (snd y)
  /\ REDEEMID (snd x) = REDEEMID (snd y).
Proof.
  intros (Hl & Hv & Hr). unfold matching_view in Hv.
  repeat split; try assumption; congruence.
Qed.

Lemma alike_filter (m : Labelled -> bool) (l1 l2 : Frame) :
  (forall x y, alike x y -> m x = m y) ->
  Forall2 alike l1 l2 -> Forall2 alike (filter m l1) (filter m l2).
Proof.
  intros Hm H. induction H as [|x y l1 l2 Hxy H IH]; simpl; [constructor|].
  rewrite (Hm x y Hxy). destruct (m y); [constructor; assumption | exact IH].
Qed.

Lemma alike_insert x y (l1 l2 : Frame) :
  alike x y -> Forall2 alike l1 l2 ->
  Forall2 alike (insert_by_CREATEDAT x l1) (insert_by_CREATEDAT y l2).
Proof.
  intros Hxy H. induction H as [|a b l1 l2 Hab H IH]; simpl.
  - constructor; [exact Hxy | constructor].
  - destruct (alike_fields x y Hxy) as (_ & _ & _ & _ & Ex & _).
    destruct (alike_fields a b Hab) as (_ & _ & _ & _ & Ea & _).
    rewrite Ex, Ea.
    destruct (CREATEDAT (snd y) <=? CREATEDAT (snd b)).
    + constructor; [exact Hxy|]. constructor; assumption.
    + constructor; assumption.
Qed.

Lemma alike_sort (l1 l2 : Frame) :
  Forall2 alike l1 l2 -> Forall2 alike (sort_values l1) (sort_values l2).
Proof.
  intros H. induction H as [|x y l1 l2 Hxy H IH]; simpl; [constructor|].
  now apply alike_insert.
Qed.

Lemma alike_loc_set idx v (S1 S2 : Frame) :
  Forall2 alike S1 S2 ->
  Forall2 alike (loc_set_REDEEMID idx v S1) (loc_set_REDEEMID idx v S2).
Proof.
  intros H. induction H as [|x y S1 S2 Hxy H IH]; simpl; constructor; [|exact IH].
  destruct Hxy as (Hl & Hv & Hr). rewrite Hl.
  destruct (Nat.eqb (fst y) idx); [|now repeat split].
  repeat split; assumption.
Qed.

Lemma alike_list_remove idx (P1 P2 : Frame) :
  Forall2 alike P1 P2 ->
  Forall2 alike (list_remove idx P1) (list_remove idx P2).
Proof.
  intros H. induction H as [|x y P1 P2 Hxy H IH]; simpl; [constructor|].
  destruct Hxy as (Hl & Hv & Hr). rewrite Hl.
  destruct (Nat.eqb (fst y) idx); [exact H|].
  constructor; [now repeat split | exact IH].
Qed.

Lemma alike_fold_remove tr : forall P1 P2 : Frame,
  Forall2 alike P1 P2 ->
  Forall2 alike (fold_left (fun p idx => list_remove idx p) tr P1)
                (fold_left (fun p idx => list_remove idx p) tr P2).
Proof.
  induction tr as [|idx tr IH]; intros P1 P2 H; simpl; [exact H|].
  now apply IH, alike_list_remove.
Qed.

Lemma alike_scan rid rdate (P1 P2 : Frame) :
  Forall2 alike P1 P2 -> forall (S1 S2 : Frame) rem tr,
  Forall2 alike S1 S2 ->
  Forall2 alike (fst (fst (scan_available rid rdate P1 S1 rem tr)))
                (fst (fst (scan_available rid rdate P2 S2 rem tr)))
  /\ snd (scan_available rid rdate P1 S1 rem tr)
     = snd (scan_available rid rdate P2 S2 rem tr).
Proof.
  intros HP. induction HP as [|x y P1 P2 Hxy HP IH]; intros S1 S2 rem tr HS.
  - simpl. now split.
  - destruct x as [i a], y as [j b].
    destruct (alike_fields _ _ Hxy) as (Hl & _ & _ & _ & Hc & _ & Ha & _).
    simpl in Hl, Hc, Ha. subst j. cbn [scan_available]. rewrite Hc, Ha.
    destruct (rem <=? 0)%float; [simpl; now split|].
    destruct (CREATEDAT b >? rdate); [now apply IH|].
    apply IH. now apply alike_loc_set.
Qed.

Lemma alike_match_redemption (S1 S2 P1 P2 : Frame) r1 r2 :
  alike r1 r2 -> Forall2 alike S1 S2 -> Forall2 alike P1 P2 ->
  Forall2 alike (fst (match_redemption (S1, P1) r1))
                (fst (match_redemption (S2, P2) r2))
  /\ Forall2 alike (snd (match_redemption (S1, P1) r1))
                   (snd (match_redemption (S2, P2) r2)).
Proof.
  intros Hr HS HP. unfold match_redemption.
  destruct (alike_fields _ _ Hr) as (_ & Hid & _ & _ & Hc & _ & Ha & _).
  rewrite Hid, Hc, Ha.
  destruct (alike_scan (TRANS_ID (snd r2)) (CREATEDAT (snd r2)) P1 P2 HP S1 S2
              (abs (AMOUNT (snd r2))) [] HS) as [H1 H2].
  destruct (scan_available _ _ P1 S1 _ _) as [[S1' rem1] tr1].
  destruct (scan_available _ _ P2 S2 _ _) as [[S2' rem2] tr2].
  cbn [fst snd] in *. subst tr2. split; [exact H1|].
  now apply alike_fold_remove.
Qed.

Lemma alike_fold_match (R1 R2 : Frame) :
  Forall2 alike R1 R2 -> forall S1 S2 P1 P2 : Frame,
  Forall2 alike S1 S2 -> Forall2 alike P1 P2 ->
  Forall2 alike (fst (fold_left match_redemption R1 (S1, P1)))
                (fst (fold_left match_redemption R2 (S2, P2))).
Proof.
  intros HR. induction HR as [|r1 r2 R1 R2 Hr HR IH]; intros S1 S2 P1 P2 HS HP;
    cbn [fold_left]; [exact HS|].
  destruct (alike_match_redemption S1 S2 P1 P2 r1 r2 Hr HS HP) as [H1 H2].
  destruct (match_redemption (S1, P1) r1) as [S1' P1'].
  destruct (match_redemption (S2, P2) r2) as [S2' P2'].
  now apply IH.
Qed.

Lemma alike_process_customer (S1 S2 : Frame) c :
  Forall2 alike S1 S2 ->
  Forall2 alike (process_customer S1 c) (process_customer S2 c).
Proof.
  intros HS. unfold process_customer.
  assert (HC : Forall2 alike
            (filter (fun ir : Labelled => CUSTOMERID (snd ir) =? c) S1)
            (filter (fun ir : Labelled => CUSTOMERID (snd ir) =? c) S2)).
  { apply alike_filter; [|exact HS]. intros x y Hxy.
    destruct (alike_fields _ _ Hxy) as (_ & _ & _ & _ & _ & Hc & _). now rewrite Hc. }
  assert (HE : Forall2 alike
            (sort_values (filter (fun ir : Labelled => String.eqb (TCTYPE (snd ir)) "earned")
               (filter (fun ir : Labelled => CUSTOMERID (snd ir) =? c) S1)))
            (sort_values (filter (fun ir : Labelled => String.eqb (TCTYPE (snd ir)) "earned")
               (filter (fun ir : Labelled => CUSTOMERID (snd ir) =? c) S2)))).
  { apply alike_sort, alike_filter; [|exact HC]. intros x y Hxy.
    now destruct (alike_fields _ _ Hxy) as (_ & _ & He & _). }
  assert (HR : Forall2 alike
            (sort_values (filter (fun ir : Labelled => isin (TCTYPE (snd ir)) ["spent"; "expired"])
               (filter (fun ir : Labelled => CUSTOMERID (snd ir) =? c) S1)))
            (sort_values (filter (fun ir : Labelled => isin (TCTYPE (snd ir)) ["spent"; "expired"])
               (filter (fun ir : Labelled => CUSTOMERID (snd ir) =? c) S2)))).
  { apply alike_sort, alike_filter; [|exact HC]. intros x y Hxy.
    now destruct (alike_fields _ _ Hxy) as (_ & _ & _ & Hi & _). }
  rewrite (Forall2_length HE), (Forall2_length HR).
  destruct (_ || _)%bool; [exact HS|].
  now apply alike_fold_match.
Qed.

Lemma alike_fold_process custs : forall S1 S2 : Frame,
  Forall2 alike S1 S2 ->
  Forall2 alike (fold_left process_customer custs S1)
                (fold_left process_customer custs S2).
Proof.
  induction custs as [|c custs IH]; intros S1 S2 HS; simpl; [exact HS|].
  now apply IH, alike_process_customer.
Qed.

Lemma alike_initial (rs1 rs2 : list Row) :
  map matching_view rs1 = map matching_view rs2 ->
  Forall2 alike (enumerate (map (set_REDEEMID None) rs1))
                (enumerate (map (set_REDEEMID None) rs2)).
Proof.
  unfold enumerate. rewrite !length_map. generalize 0%nat. revert rs2.
  induction rs1 as [|r1 rs1 IH]; intros [|r2 rs2] n H; simpl in *;
    try discriminate; constructor.
  - repeat split. exact (f_equal (hd (matching_view r1)) H).
  - apply IH. exact (f_equal (@tl _) H).
Qed.

Lemma alike_REDEEMID (S1 S2 : Frame) :
  Forall2 alike S1 S2 ->
  map REDEEMID (map snd S1) = map REDEEMID (map snd S2).
Proof.
  intros H. induction H as [|x y S1 S2 (_ & _ & Hr) H IH]; simpl; [reflexivity|].
  now rewrite Hr, IH.
Qed.

Lemma alike_customers (S1 S2 : Frame) :
  Forall2 alike S1 S2 ->
  map (fun ir : Labelled => CUSTOMERID (snd ir)) S1
  = map (fun ir : Labelled => CUSTOMERID (snd ir)) S2.
Proof.
  intros H. induction H as [|x y S1 S2 Hxy H IH]; simpl; [reflexivity|].
  destruct (alike_fields _ _ Hxy) as (_ & _ & _ & _ & _ & Hc & _).
  now rewrite Hc, IH.
Qed.

End ViewFacts.

(** X17. The matching reads of a row only its TRANS_ID, whether it is earned,
    whether it is spent or expired (without telling the two apart), its
    CREATEDAT, CUSTOMERID and AMOUNT: two batches that agree on these, row by
    row, get the same REDEEMID column.  In particular EXPIREDAT is never
    consulted, and an expiry consumes lots exactly as a spend does. *)
Theorem matching_reads_only_view (df1 df2 : DataFrame) :
  map matching_view (rows df1) = map matching_view (rows df2) ->
  map REDEEMID (rows (Fifo.perform_fifo_matching df1))
  = map REDEEMID (rows (Fifo.perform_fifo_matching df2)).
Proof.
  intros H. unfold Fifo.perform_fifo_matching; cbn [rows].
  pose proof (ViewFacts.alike_initial (rows df1) (rows df2) H) as H0.
  rewrite (ViewFacts.alike_customers _ _ H0).
  apply ViewFacts.alike_REDEEMID, ViewFacts.alike_fold_process, H0.
Qed.

Lemma matching_reads_only_view_witness :
  map REDEEMID (rows (Fifo.perform_fifo_matching expired_transactions_data))
  = map REDEEMID (rows (Fifo.perform_fifo_matching expiry_as_spend)).
Proof.
  apply (matching_reads_only_view expired_transactions_data expiry_as_spend).
  reflexivity.
Defined.

(** ** Warnings of the source validator *)

(** X18. The future-date check of the source validator is a WARNING that
    fails exactly when some CREATEDAT is later than the clock reading; it is
    the only warning of the source stage, so the report's warning count is 1
    in that case and 0 otherwise. *)
Theorem future_dates_warning (now : Timestamp) (df : DataFrame) :
  exists res,
    results_named "No Future Dates" (DataQuality.validate_source_data now df) = [res]
    /\ DataQuality.severity res = "WARNING"
    /\ (DataQuality.passed res = false
        <-> exists r, In r (rows df) /\ now < CREATEDAT r)
    /\ DataQuality.ValidationReport_warning_count
         (DataQuality.validate_source_data now df)
       = if DataQuality.passed res then 0%nat else 1%nat.
Proof.
  exists (DataQuality.check_no_future_dates now df).
  split; [reflexivity|]. split; [reflexivity|]. split.
  - unfold DataQuality.check_no_future_dates; cbn [DataQuality.passed].
    rewrite <- not_true_iff_false, SourceFacts.length_zero_iff_forall. split.
    + intros H.
      destruct (existsb (fun r => CREATEDAT r >? now) (rows df)) eqn:E.
      * apply existsb_exists in E as (r & Hr & Hgt). exists r.
        split; [exact Hr|]. rewrite Z.gtb_ltb in Hgt. now apply Z.ltb_lt.
      * exfalso. apply H. intros x Hx.
        destruct (CREATEDAT x >? now) eqn:Q; [|reflexivity].
        assert (existsb (fun r => CREATEDAT r >? now) (rows df) = true)
          by (apply existsb_exists; now exists x).
        congruence.
    + intros (r & Hr & Hlt) H. specialize (H r Hr).
      rewrite Z.gtb_ltb in H. apply Z.ltb_ge in H. lia.
  - unfold DataQuality.ValidationReport_warning_count, DataQuality.validate_source_data.
    cbn [DataQuality.results map app DataQuality.required_fields].
    unfold DataQuality.check_no_nulls, DataQuality.check_valid_types,
      DataQuality.check_amount_signs, DataQuality.check_no_duplicates,
      DataQuality.check_valid_customers, DataQuality.check_summary.
    cbn [filter DataQuality.severity DataQuality.passed String.eqb Ascii.eqb
         Bool.eqb andb negb].
    rewrite !andb_false_r. cbn [andb].
    destruct (DataQuality.passed (DataQuality.check_no_future_dates now df)) eqn:P;
      unfold DataQuality.check_no_future_dates in *;
      cbn [DataQuality.severity DataQuality.passed String.eqb Ascii.eqb Bool.eqb] in *;
      rewrite P; reflexivity.
Qed.

(** Seen from 2023-01-20 the fixture has one future-dated row: one warning,
    and the report still passes. *)
Example future_row_only_warns :
  DataQuality.ValidationReport_warning_count
    (DataQuality.validate_source_data evening_2023_01_20 sample_tc_data) = 1%nat
  /\ DataQuality.ValidationReport_passed
       (DataQuality.validate_source_data evening_2023_01_20 sample_tc_data) = true.
Proof. split; vm_compute; reflexivity. Qed.
